(** * Hybrid retrieval engine of the BIORAG backend: a Rocq model

    This development embeds the algorithmic core of the backend
    (backend/src/api/v1/vectordb.py and
    backend/src/services/embedding/chunker.py) and proves properties of
    it.

    Modelling conventions.
    - Python [str] values are modelled as [string] (sequences of ASCII
      characters); [str.lower], [\w], [\s] and [\d] are the ASCII
      restrictions of the Python operations.
    - Python [float] values are modelled as exact rationals [Q]: the
      rounding error of IEEE arithmetic is abstracted, [round(x, n)] is
      rounding of the exact value to [n] decimals with ties to even.
      [math.log] is a parameter of the functions that call it.
    - Python [int] values are [Z]; list slices follow Python's rules for
      negative and out-of-range bounds.
    - A raised exception is the [None] of an [option] result; a [while]
      loop takes a fuel argument and returns [None] when it runs out.
    - External collaborators (OpenAI, Qdrant, numpy) and the iteration
      order of Python [set] objects are fields of a [World] record. *)

From Stdlib Require Import ZArith QArith Qround Qabs Lqa Lia Ascii String.
From Stdlib Require Import Permutation Sorted.
From stdpp Require Import gmap strings list fin_maps.

Local Open Scope string_scope.
Local Open Scope list_scope.
Local Open Scope Z_scope.

#[local] Set Warnings "-clear-no-such-hyp".

(** ** Python primitives *)

Module Py.

(** [c.isspace()] on ASCII: TAB..CR, FS..US and the blank. *)
Definition isspace (c : ascii) : bool :=
  let n := nat_of_ascii c in
  ((9 <=? n)%nat && (n <=? 13)%nat) || ((28 <=? n)%nat && (n <=? 32)%nat).

Definition isdigit (c : ascii) : bool :=
  let n := nat_of_ascii c in (48 <=? n)%nat && (n <=? 57)%nat.

Definition isupper (c : ascii) : bool :=
  let n := nat_of_ascii c in (65 <=? n)%nat && (n <=? 90)%nat.

Definition islower (c : ascii) : bool :=
  let n := nat_of_ascii c in (97 <=? n)%nat && (n <=? 122)%nat.

Definition isalpha (c : ascii) : bool := isupper c || islower c.

(** The regular-expression class [\w]. *)
Definition isword (c : ascii) : bool :=
  isalpha c || isdigit c || Ascii.eqb c "_"%char.

Definition lower_char (c : ascii) : ascii :=
  if isupper c then ascii_of_nat (nat_of_ascii c + 32) else c.

Definition chars (s : string) : list ascii := list_ascii_of_string s.
Definition str (l : list ascii) : string := string_of_list_ascii l.

(** [s.lower()] *)
Definition lower (s : string) : string := str (map lower_char (chars s)).

(** [s.split()]: maximal runs of non-blank characters. *)
Fixpoint split_ws (cur : list ascii) (l : list ascii) : list string :=
  match l with
  | [] => match cur with [] => [] | _ => [str (rev cur)] end
  | c :: l' =>
      if isspace c then
        match cur with
        | [] => split_ws [] l'
        | _ => str (rev cur) :: split_ws [] l'
        end
      else split_ws (c :: cur) l'
  end.

Definition split (s : string) : list string := split_ws [] (chars s).

(** [s.split(sep)] for a one-character separator. *)
Fixpoint split_on_aux (sep : ascii) (cur : list ascii) (l : list ascii)
  : list string :=
  match l with
  | [] => [str (rev cur)]
  | c :: l' =>
      if Ascii.eqb c sep then str (rev cur) :: split_on_aux sep [] l'
      else split_on_aux sep (c :: cur) l'
  end.

Definition split_on (sep : ascii) (s : string) : list string :=
  split_on_aux sep [] (chars s).

Fixpoint lstrip_chars (l : list ascii) : list ascii :=
  match l with
  | [] => []
  | c :: l' => if isspace c then lstrip_chars l' else l
  end.

(** [s.strip()] *)
Definition strip (s : string) : string :=
  str (rev (lstrip_chars (rev (lstrip_chars (chars s))))).

(** [sep.join(l)] *)
Fixpoint join (sep : string) (l : list string) : string :=
  match l with
  | [] => ""
  | [x] => x
  | x :: l' => x +:+ sep +:+ join sep l'
  end.

Fixpoint is_prefix (p l : list ascii) : bool :=
  match p, l with
  | [], _ => true
  | _ :: _, [] => false
  | a :: p', b :: l' => Ascii.eqb a b && is_prefix p' l'
  end.

Fixpoint contains_chars (p l : list ascii) : bool :=
  is_prefix p l ||
  match l with
  | [] => false
  | _ :: l' => contains_chars p l'
  end.

(** [sub in s] *)
Definition contains (sub s : string) : bool :=
  contains_chars (chars sub) (chars s).

(** [len(l)] as a Python int. *)
Definition len {A} (l : list A) : Z := Z.of_nat (length l).

(** A slice bound is clamped the way [PySlice_AdjustIndices] does. *)
Definition clamp (n i : Z) : Z :=
  if i <? 0 then Z.max (i + n) 0 else Z.min i n.

(** [l[a:b]] *)
Definition slice {A} (l : list A) (a b : Z) : list A :=
  let a' := clamp (len l) a in
  let b' := clamp (len l) b in
  firstn (Z.to_nat (b' - a')) (skipn (Z.to_nat a') l).

(** [l[:b]] *)
Definition slice_to {A} (l : list A) (b : Z) : list A := slice l 0 b.

(** [int(x)] of a float: truncation towards zero. *)
Definition int_of (x : Q) : Z := Z.quot (Qnum x) (Z.pos (Qden x)).

(** [round(x, n)]: the nearest multiple of [10^-n], ties to even. *)
Definition round_half_even (x : Q) : Z :=
  let f := Qfloor x in
  let r := (x - inject_Z f)%Q in
  match (r ?= 1 # 2)%Q with
  | Lt => f
  | Gt => f + 1
  | Eq => if Z.even f then f else f + 1
  end.

Definition round (x : Q) (ndigits : nat) : Q :=
  let p := 10 ^ Z.of_nat ndigits in
  (inject_Z (round_half_even (x * inject_Z p)) / inject_Z p)%Q.

(** [re.sub(pattern, repl, s)] for a pattern that never matches the empty
    string: [m l] is the length of the match of the pattern at the head
    of [l], if there is one.  [skip] counts the characters of the current
    match that are still to be dropped. *)
Fixpoint re_sub_aux (m : list ascii -> option nat) (repl : list ascii)
    (skip : nat) (l : list ascii) : list ascii :=
  match l with
  | [] => []
  | c :: l' =>
      match skip with
      | S k => re_sub_aux m repl k l'
      | O =>
          match m l with
          | Some (S k) => repl ++ re_sub_aux m repl k l'
          | _ => c :: re_sub_aux m repl 0%nat l'
          end
      end
  end.

Definition re_sub (m : list ascii -> option nat) (repl : string) (s : string)
  : string :=
  str (re_sub_aux m (chars repl) 0%nat (chars s)).

(** Length of the longest prefix of [l] whose characters satisfy [p]. *)
Fixpoint span (p : ascii -> bool) (l : list ascii) : nat :=
  match l with
  | [] => 0%nat
  | c :: l' => if p c then S (span p l') else 0%nat
  end.

End Py.

(** ** services/embedding/chunker.py *)

Module Chunker.

(** core/config.py *)
Definition settings_CHUNK_SIZE : Z := 500.
Definition settings_CHUNK_OVERLAP : Z := 100.

Record TextChunk := mkTextChunk {
  text : string;
  index : Z;
  section : option string;
  token_count : option Z
}.

Record TextChunker := mkTextChunker {
  chunk_size : Z;
  chunk_overlap : Z
}.

(** [x or d] for an optional int: [None] and [0] are falsy. *)
Definition or_default (x : option Z) (d : Z) : Z :=
  match x with
  | None => d
  | Some v => if v =? 0 then d else v
  end.

(** [TextChunker.__init__] *)
Definition init (chunk_size chunk_overlap : option Z) : TextChunker :=
  {| chunk_size := or_default chunk_size settings_CHUNK_SIZE;
     chunk_overlap := or_default chunk_overlap settings_CHUNK_OVERLAP |}.

(** The tail of [\[\d+(?:,\s*\d+)*\]] after the first number: groups of
    a comma, blanks and a number, then the closing bracket. *)
Fixpoint match_ref_groups (fuel : nat) (l : list ascii) : option nat :=
  match fuel with
  | O => None
  | S f =>
      match l with
      | "]"%char :: _ => Some 1%nat
      | ","%char :: r =>
          let s := Py.span Py.isspace r in
          let r1 := skipn s r in
          let d := Py.span Py.isdigit r1 in
          if (d =? 0)%nat then None
          else option_map (fun k => (1 + s + d + k)%nat)
                 (match_ref_groups f (skipn d r1))
      | _ => None
      end
  end.

(** [\[\d+(?:,\s*\d+)*\]] *)
Definition match_reference (l : list ascii) : option nat :=
  match l with
  | "["%char :: r =>
      let d := Py.span Py.isdigit r in
      if (d =? 0)%nat then None
      else option_map (fun k => (1 + d + k)%nat)
             (match_ref_groups (length r) (skipn d r))
  | _ => None
  end.

Definition is_prefix_ci (p : string) (l : list ascii) : bool :=
  Py.is_prefix (Py.chars p) (map Py.lower_char l).

(** [\((?:Fig(?:ure)?|Table)\s*\.?\s*\d+[a-zA-Z]?\)] with IGNORECASE *)
Definition match_figure (l : list ascii) : option nat :=
  match l with
  | "("%char :: r =>
      let kw :=
        if is_prefix_ci "figure" r then Some 6%nat
        else if is_prefix_ci "fig" r then Some 3%nat
        else if is_prefix_ci "table" r then Some 5%nat
        else None in
      match kw with
      | None => None
      | Some k =>
          let r1 := skipn k r in
          let s1 := Py.span Py.isspace r1 in
          let r2 := skipn s1 r1 in
          let dot := match r2 with "."%char :: _ => 1%nat | _ => 0%nat end in
          let r3 := skipn dot r2 in
          let s2 := Py.span Py.isspace r3 in
          let r4 := skipn s2 r3 in
          let d := Py.span Py.isdigit r4 in
          let r5 := skipn d r4 in
          if (d =? 0)%nat then None
          else
            let a := match r5 with
                     | c :: _ => if Py.isalpha c then 1%nat else 0%nat
                     | [] => 0%nat
                     end in
            match skipn a r5 with
            | ")"%char :: _ => Some (1 + k + s1 + dot + s2 + d + a + 1)%nat
            | _ => None
            end
      end
  | _ => None
  end.

(** [\s+] *)
Definition match_blanks (l : list ascii) : option nat :=
  let s := Py.span Py.isspace l in
  if (s =? 0)%nat then None else Some s.

(** [http[s]?://\S+] *)
Definition match_url (l : list ascii) : option nat :=
  if Py.is_prefix (Py.chars "http") l then
    let r := skipn 4 l in
    let s := match r with "s"%char :: _ => 1%nat | _ => 0%nat end in
    let r1 := skipn s r in
    if Py.is_prefix (Py.chars "://") r1 then
      let k := Py.span (fun c => negb (Py.isspace c)) (skipn 3 r1) in
      if (k =? 0)%nat then None else Some (4 + s + 3 + k)%nat
    else None
  else None.

(** [TextChunker.clean_text] *)
Definition clean_text (text : string) : string :=
  if String.eqb text "" then ""
  else
    let text := Py.re_sub match_reference "" text in
    let text := Py.re_sub match_figure "" text in
    let text := Py.re_sub match_blanks " " text in
    let text := Py.re_sub match_url "" text in
    Py.strip text.

(** [TextChunker.estimate_tokens] *)
Definition estimate_tokens (text : string) : Z :=
  let words := Py.len (Py.split text) in
  Py.int_of (inject_Z words * (13 # 10)).

(** The [while start < len(words)] loop of [chunk_by_tokens]. *)
Fixpoint chunk_loop (fuel : nat) (words : list string)
    (words_per_chunk words_overlap : Z) (start : Z)
    (chunks : list TextChunk) : option (list TextChunk) :=
  match fuel with
  | O => None
  | S fuel' =>
      if start <? Py.len words then
        let end_ := Z.min (start + words_per_chunk) (Py.len words) in
        let chunk_words := Py.slice words start end_ in
        let chunk_text := Py.join " " chunk_words in
        let chunks := chunks ++ [ {| text := chunk_text;
                                     index := Py.len chunks;
                                     section := None;
                                     token_count :=
                                       Some (estimate_tokens chunk_text) |} ] in
        let start := end_ - words_overlap in
        if start >=? Py.len words - words_overlap then Some chunks
        else chunk_loop fuel' words words_per_chunk words_overlap start chunks
      else Some chunks
  end.

(** [TextChunker.chunk_by_tokens] *)
Definition chunk_by_tokens (fuel : nat) (self : TextChunker) (text : string)
    (chunk_size overlap : option Z) : option (list TextChunk) :=
  let chunk_size := or_default chunk_size (Chunker.chunk_size self) in
  let overlap := or_default overlap (Chunker.chunk_overlap self) in
  let text := clean_text text in
  if String.eqb text "" then Some []
  else
    let words := Py.split text in
    match words with
    | [] => Some []
    | _ =>
        let words_per_chunk := Py.int_of (inject_Z chunk_size / (13 # 10)) in
        let words_overlap := Py.int_of (inject_Z overlap / (13 # 10)) in
        chunk_loop fuel words words_per_chunk words_overlap 0 []
    end.

End Chunker.

(** ** Rationals as floats: comparisons, stable sorting *)

Module Num.

(** [x < y] on floats *)
Definition Qltb (x y : Q) : bool := negb (Qle_bool y x).

(** [max(x, y)] and [min(x, y)]: the first argument wins a tie. *)
Definition max (x y : Q) : Q := if Qltb x y then y else x.
Definition min (x y : Q) : Q := if Qltb y x then y else x.

(** [max(l)] of a non-empty sequence given as head and tail. *)
Definition max_list (x : Q) (l : list Q) : Q := foldl max x l.

(** [sum(l)] of ints *)
Definition sum (l : list Z) : Z := foldl Z.add 0 l.

Section Sort.
Context {A : Type} (key : A -> Q).

(** Insertion in a list sorted by decreasing key: [x] goes before the
    first element whose key is not greater than its own. *)
Fixpoint insert_desc (x : A) (l : list A) : list A :=
  match l with
  | [] => [x]
  | y :: l' => if Qltb (key x) (key y) then y :: insert_desc x l'
               else x :: l
  end.

(** [l.sort(key=key, reverse=True)]: Python's sort is stable, also
    with [reverse=True]. *)
Definition sort_desc (l : list A) : list A := foldr insert_desc [] l.
End Sort.

End Num.

(** ** api/v1/vectordb.py *)

Module VectorDB.

Definition vector : Type := list Q.

(** A point returned by Qdrant's [query_points]. *)
Record ScoredPoint := mkScoredPoint {
  sp_id : string;
  sp_score : Q;
  sp_payload : gmap string string
}.

(** The environment of the store: settings, collaborators, runtime. *)
Record World := mkWorld {
  (** [settings.OPENAI_API_KEY] is set *)
  OPENAI_API_KEY : bool;
  (** the chat completion for the expansion prompt of a query: the
      message content of a 200 response, [None] for any other status or
      an exception *)
  chat_completion : string -> option string;
  (** the embeddings endpoint, [None] for a failure *)
  embeddings : string -> option vector;
  (** [qdrant_client.query_points], [None] when it raises *)
  query_points : vector -> Z -> option (list ScoredPoint);
  (** [np.dot(u, v) / (np.linalg.norm(u) * np.linalg.norm(v))] *)
  cosine : vector -> vector -> Q;
  (** the order in which a [set] of strings is iterated *)
  set_iter : gset string -> list string
}.

(** *** SPLADESearch *)

Record SPLADESearch := mkSPLADESearch {
  k1 : Q;
  b : Q;
  doc_freqs : gmap string Z;
  doc_lens : list Z;
  avg_doc_len : Q;
  n_docs : Z;
  idf : gmap string Q;
  term_weights : gmap string (gmap string Q)
}.

(** [SPLADESearch.__init__] *)
Definition SPLADESearch_init (k1 b : Q) : SPLADESearch :=
  {| k1 := k1; b := b; doc_freqs := ∅; doc_lens := []; avg_doc_len := 0;
     n_docs := 0; idf := ∅; term_weights := ∅ |}.

(** [SPLADESearch()] with the default parameters *)
Definition SPLADESearch_new : SPLADESearch :=
  SPLADESearch_init (15 # 10) (75 # 100).

(** [SPLADESearch._tokenize] *)
Definition _tokenize (text : string) : list string :=
  let text := Py.lower text in
  let text :=
    Py.str (map (fun c => if Py.isword c || Py.isspace c
                             || Ascii.eqb c "-"%char
                          then c else " "%char) (Py.chars text)) in
  let tokens := Py.split text in
  List.filter (fun t => (1 <? String.length t)%nat) tokens.

(** [Counter(tokens)] *)
Definition Counter (tokens : list string) : gmap string Z :=
  foldl (fun m t => <[t := default 0 (m !! t) + 1]> m) ∅ tokens.

(** [enumerate(l)] *)
Definition enumerate {A} (l : list A) : list (nat * A) :=
  zip (seq 0 (length l)) l.

(** [d[k] = v] on a dict whose key order matters. *)
Fixpoint dict_set {V} (k : string) (v : V) (d : list (string * V))
  : list (string * V) :=
  match d with
  | [] => [(k, v)]
  | (k', v') :: d' =>
      if String.eqb k' k then (k', v) :: d' else (k', v') :: dict_set k v d'
  end.

(** The first loop of [_expand_query]: original terms, first occurrence
    wins. *)
Definition add_original (acc : list (string * Q) * gset string)
    (tw : string * Q) : list (string * Q) * gset string :=
  let '(weighted_terms, seen_terms) := acc in
  let '(term, weight) := tw in
  if decide (term ∈ seen_terms) then acc
  else (weighted_terms ++ [(term, weight)], {[term]} ∪ seen_terms).

(** The second loop: candidate [term] at position [i] of the reply. *)
Definition add_expanded (acc : list (string * Q) * gset string)
    (it : nat * string) : list (string * Q) * gset string :=
  let '(weighted_terms, seen_terms) := acc in
  let '(i, term) := it in
  let term := Py.lower (Py.strip term) in
  if negb (String.eqb term "") && bool_decide (term ∉ seen_terms) then
    let weight := (1 / (1 + (15 # 100) * inject_Z (Z.of_nat i)))%Q in
    (weighted_terms ++ [(term, weight)], {[term]} ∪ seen_terms)
  else acc.

(** [SPLADESearch._expand_query] *)
Definition _expand_query (w : World) (query : string) : list (string * Q) :=
  let original_tokens := _tokenize query in
  let original_terms := map (fun t => (t, 2%Q)) original_tokens in
  if negb (OPENAI_API_KEY w) then original_terms
  else
    match chat_completion w query with
    | Some content =>
        let expanded_text := Py.strip content in
        let terms := map (fun t => Py.lower (Py.strip t))
                       (Py.split_on ","%char expanded_text) in
        let acc := foldl add_original ([], ∅) original_terms in
        let acc := foldl add_expanded acc (enumerate terms) in
        Py.slice_to (fst acc) 20
    | None => original_terms
    end.

(** The body of the loop of [fit] over [zip(doc_ids, documents)]. *)
Definition fit_step
    (acc : list Z * gmap string Z * gmap string (gmap string Q))
    (d : string * string)
  : list Z * gmap string Z * gmap string (gmap string Q) :=
  let '(doc_lens, doc_freqs, term_weights) := acc in
  let '(doc_id, doc) := d in
  let tokens := _tokenize doc in
  let term_freq := Counter tokens in
  let total_terms := Py.len tokens in
  let tfs := (fun freq : Z =>
                if 0 <? total_terms
                then (inject_Z freq / inject_Z total_terms)%Q else 0%Q)
             <$> term_freq in
  let unique_terms : gset string := list_to_set tokens in
  (doc_lens ++ [Py.len tokens],
   set_fold (fun term df => <[term := default 0 (df !! term) + 1]> df)
     doc_freqs unique_terms,
   <[doc_id := tfs]> term_weights).

(** [SPLADESearch.fit]; [log] stands for [math.log]. *)
Definition fit (log : Q -> Q) (self : SPLADESearch)
    (documents doc_ids : list string) : SPLADESearch :=
  let n_docs := Py.len documents in
  let '(doc_lens, doc_freqs, term_weights) :=
    foldl fit_step ([], ∅, ∅) (zip doc_ids documents) in
  let avg_doc_len :=
    if 0 <? n_docs then (inject_Z (Num.sum doc_lens) / inject_Z n_docs)%Q
    else 0%Q in
  let idf :=
    map_fold (fun term df idf =>
                <[term := log ((inject_Z n_docs - inject_Z df + (1 # 2))
                               / (inject_Z df + (1 # 2)) + 1)%Q]> idf)
      (idf self) doc_freqs in
  {| k1 := k1 self; b := b self; doc_freqs := doc_freqs;
     doc_lens := doc_lens; avg_doc_len := avg_doc_len; n_docs := n_docs;
     idf := idf; term_weights := term_weights |}.

(** The loop of [score] over the query terms.  [None] is the
    [ZeroDivisionError] of [doc_len / self.avg_doc_len]. *)
Fixpoint score_loop (self : SPLADESearch) (doc_len : Z)
    (term_freqs : gmap string Z) (doc_text : string)
    (query_terms : list (string * Q))
    (score : Q) (term_scores : list (string * Q))
  : option (Q * list (string * Q)) :=
  match query_terms with
  | [] => Some (score, term_scores)
  | (term, query_weight) :: rest =>
      let term_tokens := Py.split term in
      if 1 <? Py.len term_tokens then
        let doc_text_lower := Py.lower doc_text in
        if Py.contains term doc_text_lower then
          let phrase_score := (query_weight * 2)%Q in
          score_loop self doc_len term_freqs doc_text rest
            (score + phrase_score)%Q (dict_set term phrase_score term_scores)
        else score_loop self doc_len term_freqs doc_text rest score term_scores
      else
        match idf self !! term with
        | None =>
            score_loop self doc_len term_freqs doc_text rest score term_scores
        | Some idf_t =>
            let tf := default 0 (term_freqs !! term) in
            if tf =? 0 then
              score_loop self doc_len term_freqs doc_text rest score
                term_scores
            else if Qeq_bool (avg_doc_len self) 0 then None
            else
              let numerator := (inject_Z tf * (k1 self + 1))%Q in
              let denominator :=
                (inject_Z tf
                 + k1 self * (1 - b self
                              + b self * (inject_Z doc_len
                                          / avg_doc_len self)))%Q in
              let term_score :=
                if Num.Qltb 0 denominator
                then (idf_t * (numerator / denominator) * query_weight)%Q
                else 0%Q in
              score_loop self doc_len term_freqs doc_text rest
                (score + term_score)%Q (dict_set term term_score term_scores)
        end
  end.

(** [SPLADESearch.score] *)
Definition score (self : SPLADESearch) (query_terms : list (string * Q))
    (doc_idx : nat) (doc_text : string) : option (Q * list (string * Q)) :=
  let doc_tokens := _tokenize doc_text in
  let doc_len := match doc_lens self !! doc_idx with
                 | Some n => n
                 | None => Py.len doc_tokens
                 end in
  let term_freqs := Counter doc_tokens in
  score_loop self doc_len term_freqs doc_text query_terms 0 [].

(** An entry of the result list of [SPLADESearch.search]. *)
Record SparseHit := mkSparseHit {
  h_idx : nat;
  h_doc_id : string;
  h_score : Q;
  h_matched_terms : list string
}.

(** The scoring loop of [SPLADESearch.search] over
    [enumerate(zip(documents, doc_ids))]. *)
Fixpoint search_loop (self : SPLADESearch) (query_terms : list (string * Q))
    (docs : list (nat * (string * string))) (results : list SparseHit)
  : option (list SparseHit) :=
  match docs with
  | [] => Some results
  | (idx, (doc, doc_id)) :: rest =>
      match score self query_terms idx doc with
      | None => None
      | Some (s, term_scores) =>
          if Num.Qltb 0 s then
            search_loop self query_terms rest
              (results ++ [ {| h_idx := idx; h_doc_id := doc_id; h_score := s;
                               h_matched_terms :=
                                 Py.slice_to (map fst term_scores) 5 |} ])
          else search_loop self query_terms rest results
      end
  end.

(** [SPLADESearch.search] *)
Definition search (w : World) (self : SPLADESearch) (query : string)
    (documents doc_ids : list string) (top_k : Z) : option (list SparseHit) :=
  let query_terms := _expand_query w query in
  match search_loop self query_terms (enumerate (zip documents doc_ids)) []
  with
  | None => None
  | Some results =>
      let results := Num.sort_desc h_score results in
      Some (Py.slice_to results top_k)
  end.

(** *** HybridVectorStore *)

Record Document := mkDocument {
  d_id : string;
  d_text : string;
  d_embedding : option vector;
  d_metadata : gmap string string
}.

Record HybridVectorStore := mkStore {
  documents : list Document;
  splade : SPLADESearch;
  (** [self.qdrant_dense.use_qdrant] *)
  use_qdrant : bool;
  _splade_fitted : bool
}.

(** A search result (a dict in the source). *)
Record Result := mkResult {
  r_id : string;
  r_text : string;
  r_dense_score : option Q;
  r_sparse_score : option Q;
  r_score : Q;
  r_metadata : gmap string string;
  r_matched_terms : list string;
  r_search_engine : string
}.

(** [HybridVectorStore._rebuild_sparse_index] *)
Definition _rebuild_sparse_index (log : Q -> Q) (self : HybridVectorStore)
  : HybridVectorStore :=
  match documents self with
  | [] => self
  | _ =>
      let texts := map d_text (documents self) in
      let doc_ids := map d_id (documents self) in
      {| documents := documents self;
         splade := fit log (splade self) texts doc_ids;
         use_qdrant := use_qdrant self;
         _splade_fitted := true |}
  end.

(** [HybridVectorStore.get_embedding] *)
Definition get_embedding (w : World) (text : string) : option vector :=
  if negb (OPENAI_API_KEY w) then None
  else embeddings w (String.substring 0 (Z.to_nat 8000) text).

(** [HybridVectorStore._normalize_dense_score] *)
Definition _normalize_dense_score (score : Q) : Q :=
  Num.max 0 (Num.min 1 (if Num.Qltb score 0 then ((score + 1) / 2)%Q
                        else score)).

(** [HybridVectorStore._normalize_sparse_score] with the default
    [max_possible=30.0] *)
Definition _normalize_sparse_score (score : Q) : Q :=
  if Qle_bool score 0 then 0%Q
  else
    let scaled := Num.min (score * 3)%Q 30 in
    Py.round scaled 2.

Definition dense_result (id text : string) (normalized_dense : Q)
    (metadata : gmap string string) (engine : string) : Result :=
  {| r_id := id; r_text := text;
     r_dense_score := Some (Py.round normalized_dense 4);
     r_sparse_score := None;
     r_score := Py.round normalized_dense 4;
     r_metadata := metadata; r_matched_terms := [];
     r_search_engine := engine |}.

(** The in-memory branch of [search_dense]. *)
Definition search_dense_in_memory (w : World) (self : HybridVectorStore)
    (query_embedding : vector) (top_k : Z) : list Result :=
  let results :=
    omap (fun doc =>
            match d_embedding doc with
            | Some e =>
                let score := cosine w query_embedding e in
                Some (dense_result (d_id doc) (d_text doc)
                        (_normalize_dense_score score) (d_metadata doc)
                        "in_memory")
            | None => None
            end) (documents self) in
  Py.slice_to (Num.sort_desc r_score results) top_k.

(** [HybridVectorStore.search_dense] *)
Definition search_dense (w : World) (self : HybridVectorStore)
    (query : string) (top_k : Z) : list Result :=
  match documents self with
  | [] => []
  | _ =>
      match get_embedding w query with
      | None => []
      | Some query_embedding =>
          if use_qdrant self then
            match query_points w query_embedding top_k with
            | Some points =>
                map (fun r =>
                       dense_result (sp_id r)
                         (default "" (sp_payload r !! "text"))
                         (_normalize_dense_score (sp_score r))
                         (delete "text" (sp_payload r)) "qdrant") points
            | None => search_dense_in_memory w self query_embedding top_k
            end
          else search_dense_in_memory w self query_embedding top_k
      end
  end.

(** The result loop of [search_sparse] over the hits of the index;
    [None] is the [IndexError] of [self.documents[r["idx"]]]. *)
Definition sparse_result (self : HybridVectorStore) (r : SparseHit)
  : option Result :=
  match documents self !! h_idx r with
  | None => None
  | Some doc =>
      let normalized_sparse := _normalize_sparse_score (h_score r) in
      Some {| r_id := d_id doc; r_text := d_text doc;
              r_dense_score := None;
              r_sparse_score := Some normalized_sparse;
              r_score := normalized_sparse;
              r_metadata := d_metadata doc;
              r_matched_terms := h_matched_terms r;
              r_search_engine := "splade" |}
  end.

(** [HybridVectorStore.search_sparse] *)
Definition search_sparse (w : World) (self : HybridVectorStore)
    (query : string) (top_k : Z) : option (list Result) :=
  match documents self with
  | [] => Some []
  | _ =>
      if negb (_splade_fitted self) then Some []
      else
        let texts := map d_text (documents self) in
        let doc_ids := map d_id (documents self) in
        match search w (splade self) query texts doc_ids (Py.len texts) with
        | None => None
        | Some splade_results =>
            match mapM (sparse_result self) splade_results with
            | None => None
            | Some results => Some (Py.slice_to results top_k)
            end
        end
  end.

(** [{r["id"]: f(r) for r in results}]: a later entry replaces an
    earlier one with the same id. *)
Definition dict_by_id {V} (f : Result -> option V) (results : list Result)
  : gmap string V :=
  foldl (fun m r => match f r with
                    | Some v => <[r_id r := v]> m
                    | None => m
                    end) ∅ results.

(** [next((x for x in l if p(x)), None)] *)
Definition first_where {A} (p : A -> bool) (l : list A) : option A :=
  List.find p l.

(** The body of the loop of [search_hybrid] over [all_doc_ids];
    [None] when the id is skipped by [continue]. *)
Definition combine (self : HybridVectorStore) (dense_results : list Result)
    (dense_scores_map sparse_scores_map sparse_scores_normalized
       : gmap string Q)
    (matched_terms_map : gmap string (list string))
    (dense_weight sparse_weight : Q) (doc_id : string) : option Result :=
  let doc :=
    match first_where (fun d => String.eqb (d_id d) doc_id) (documents self)
    with
    | Some d => Some (d_text d, d_metadata d)
    | None =>
        match first_where (fun r => String.eqb (r_id r) doc_id) dense_results
        with
        | Some dense_r => Some (r_text dense_r, r_metadata dense_r)
        | None => None
        end
    end in
  match doc with
  | None => None
  | Some (text, metadata) =>
      let d_score := default 0%Q (dense_scores_map !! doc_id) in
      let s_score_raw := default 0%Q (sparse_scores_map !! doc_id) in
      let s_score_norm := default 0%Q (sparse_scores_normalized !! doc_id) in
      let hybrid_score :=
        (d_score * dense_weight + s_score_norm * sparse_weight)%Q in
      let has_dense :=
        bool_decide (is_Some (dense_scores_map !! doc_id))
        && Num.Qltb 0 d_score in
      let has_sparse :=
        bool_decide (is_Some (sparse_scores_map !! doc_id))
        && Num.Qltb 0 s_score_raw in
      let hybrid_score :=
        if has_dense && has_sparse then
          let synergy_boost := ((1 # 10) * Num.min d_score s_score_norm)%Q in
          Num.min (hybrid_score + synergy_boost)%Q 1
        else hybrid_score in
      Some {| r_id := doc_id; r_text := text;
              r_dense_score := Some (Py.round d_score 4);
              r_sparse_score := Some (Py.round s_score_raw 2);
              r_score := Py.round hybrid_score 4;
              r_metadata := metadata;
              r_matched_terms := default [] (matched_terms_map !! doc_id);
              r_search_engine := "hybrid" |}
  end.

(** [combined_results] of [search_hybrid], before it is sorted. *)
Definition hybrid_combined (w : World) (self : HybridVectorStore)
    (query : string) (dense_weight : Q) : option (list Result) :=
  let sparse_weight := (1 - dense_weight)%Q in
  let dense_results := search_dense w self query (Py.len (documents self)) in
  let dense_scores_map := dict_by_id r_dense_score dense_results in
  match search_sparse w self query (Py.len (documents self)) with
  | None => None
  | Some sparse_results =>
      let sparse_scores_map := dict_by_id r_sparse_score sparse_results in
      let matched_terms_map :=
        dict_by_id (fun r => Some (r_matched_terms r)) sparse_results in
      let max_sparse :=
        match (map_to_list sparse_scores_map).*2 with
        | [] => 1%Q
        | x :: l => Num.max_list x l
        end in
      let sparse_scores_normalized :=
        (fun score : Q =>
           if Num.Qltb 0 max_sparse then (score / max_sparse)%Q else 0%Q)
        <$> sparse_scores_map in
      let all_doc_ids := dom dense_scores_map ∪ dom sparse_scores_map in
      Some (omap (combine self dense_results dense_scores_map
                    sparse_scores_map sparse_scores_normalized
                    matched_terms_map dense_weight sparse_weight)
              (set_iter w all_doc_ids))
  end.

(** [HybridVectorStore.search_hybrid] *)
Definition search_hybrid (w : World) (self : HybridVectorStore)
    (query : string) (top_k : Z) (dense_weight : Q) : option (list Result) :=
  match documents self with
  | [] => Some []
  | _ =>
      match hybrid_combined w self query dense_weight with
      | None => None
      | Some combined_results =>
          let combined_results := Num.sort_desc r_score combined_results in
          Some (Py.slice_to combined_results top_k)
      end
  end.

(** [HybridVectorStore.search] *)
Definition store_search (w : World) (self : HybridVectorStore)
    (query : string) (top_k : Z) (mode : string) (dense_weight : Q)
  : option (list Result) :=
  if String.eqb mode "dense" then Some (search_dense w self query top_k)
  else if String.eqb mode "sparse" then search_sparse w self query top_k
  else search_hybrid w self query top_k dense_weight.

(** [HybridVectorStore.clear] *)
Definition clear (self : HybridVectorStore) : HybridVectorStore :=
  {| documents := []; splade := SPLADESearch_new;
     use_qdrant := use_qdrant self; _splade_fitted := false |}.

(** The loop of [chunk_text]. *)
Fixpoint chunk_text_loop (fuel : nat) (words : list string)
    (chunk_size overlap : Z) (start : Z) (chunks : list string)
  : option (list string) :=
  match fuel with
  | O => None
  | S fuel' =>
      if start <? Py.len words then
        let end_ := Z.min (start + chunk_size) (Py.len words) in
        let chunk := Py.join " " (Py.slice words start end_) in
        let chunks := chunks ++ [chunk] in
        let start := end_ - overlap in
        if start >=? Py.len words - overlap then Some chunks
        else chunk_text_loop fuel' words chunk_size overlap start chunks
      else Some chunks
  end.

(** [chunk_text] *)
Definition chunk_text (fuel : nat) (text : string) (chunk_size overlap : Z)
  : option (list string) :=
  if String.eqb text "" then Some []
  else
    let words := Py.split text in
    if Py.len words <=? chunk_size then Some [text]
    else chunk_text_loop fuel words chunk_size overlap 0 [].

End VectorDB.

(** ** Reference statements and worked examples *)

(** [a] sorts before [b] in a list sorted by decreasing key. *)
Definition ge_key {A} (key : A -> Q) (a b : A) : Prop := (key b <= key a)%Q.

(** A list of characters that does not start with a blank. *)
Definition stripped_head (l : list ascii) : Prop :=
  match l with [] => True | c :: _ => Py.isspace c = false end.

(** [strip] on lists of characters. *)
Definition strip_chars (l : list ascii) : list ascii :=
  rev (Py.lstrip_chars (rev (Py.lstrip_chars l))).

(** The invariant of the two loops of [_expand_query]: [seen_terms] is
    the set of the terms of [weighted_terms], which are distinct. *)
Definition expand_inv (acc : list (string * Q) * gset string) : Prop :=
  acc.2 = list_to_set acc.1.*1 /\ NoDup acc.1.*1.

(** A score in [[0, 1]]. *)
Definition unit_interval (x : Q) : Prop := (0 <= x <= 1)%Q.

(** A result whose score and dense score are in [[0, 1]]. *)
Definition bounded_result (r : VectorDB.Result) : Prop :=
  unit_interval (VectorDB.r_score r)
  /\ exists d, VectorDB.r_dense_score r = Some d /\ unit_interval d.

(** Iterating over a set yields its elements, each once, in some order. *)
Definition set_iter_valid (w : VectorDB.World) : Prop :=
  forall s : gset string, Permutation (VectorDB.set_iter w s) (elements s).

(** The results with fused score [s], in the order of the list. *)
Definition with_score (s : Q) (results : list VectorDB.Result)
  : list VectorDB.Result :=
  List.filter (fun r => Qeq_bool (VectorDB.r_score r) s) results.

(** The sparse index of the store, when built, was last fitted on the
    current documents; [__init__], [_sync_from_qdrant], [add_documents]
    and [clear] all leave the store in such a state. *)
Definition index_synced (self : VectorDB.HybridVectorStore) : Prop :=
  VectorDB._splade_fitted self = true ->
  exists (log : Q -> Q) (old : VectorDB.SPLADESearch),
    VectorDB.splade self
    = VectorDB.fit log old
        (map VectorDB.d_text (VectorDB.documents self))
        (map VectorDB.d_id (VectorDB.documents self)).

(** The inverse document frequency of a term with document frequency
    [df] in a corpus of [n_docs] documents. *)
Definition idf_of (log : Q -> Q) (n_docs df : Z) : Q :=
  log ((inject_Z n_docs - inject_Z df + (1 # 2))
       / (inject_Z df + (1 # 2)) + 1)%Q.

(** The search modes named by the documentation of [search]. *)
Definition recognized_modes : list string := ["dense"; "sparse"; "hybrid"].

(** A multi-word query term, scored by substring match. *)
Definition is_phrase (term : string) : bool := 1 <? Py.len (Py.split term).

(** The sum of the phrase bonuses of a query against a document. *)
Definition phrase_total (query_terms : list (string * Q)) (doc_text : string)
  : Q :=
  foldl (fun acc (tw : string * Q) =>
           if is_phrase tw.1 && Py.contains tw.1 (Py.lower doc_text)
           then (acc + tw.2 * 2)%Q else acc) 0%Q query_terms.

(** The weight of the expansion candidate at position [i] of the reply. *)
Definition expansion_weight (i : nat) : Q :=
  (1 / (1 + (15 # 100) * inject_Z (Z.of_nat i)))%Q.

(** The candidates of a reply, as the second loop of [_expand_query]
    sees them. *)
Definition candidates (content : string) : list string :=
  map (fun t => Py.lower (Py.strip t))
    (Py.split_on ","%char (Py.strip content)).

(** The chunk built by [chunk_by_tokens] for the words [start:end_]. *)
Definition chunk_of (words : list string) (start end_ : Z) (i : Z)
  : Chunker.TextChunk :=
  let t := Py.join " " (Py.slice words start end_) in
  {| Chunker.text := t; Chunker.index := i; Chunker.section := None;
     Chunker.token_count := Some (Chunker.estimate_tokens t) |}.

(** The [k]-th window of 76 words advancing by 61 words. *)
Definition window (ws : list string) (k : nat) : list string :=
  Py.slice ws (61 * Z.of_nat k) (61 * Z.of_nat k + 76).

(** Every chunk but the last has [n] words. *)
Definition all_but_last_have_words (n : nat)
    (chunks : list Chunker.TextChunk) : Prop :=
  forall k c, (S k < length chunks)%nat -> chunks !! k = Some c ->
    length (Py.split (Chunker.text c)) = n.

(** Sparse-only fusion, after section 4.6 of the design: every id of the
    sparse list gets dense component 0 and sparse component its score
    divided by the maximum of the batch; the fused score is the sparse
    component times [1 - dense_weight]; no synergy boost; the results
    are sorted by decreasing fused score and truncated to [top_k]. *)
Definition sparse_only_fused (w : VectorDB.World)
    (self : VectorDB.HybridVectorStore)
    (sparse_results : list VectorDB.Result) (dense_weight : Q) (top_k : Z)
  : list VectorDB.Result :=
  let scores := VectorDB.dict_by_id VectorDB.r_sparse_score sparse_results in
  let terms :=
    VectorDB.dict_by_id (fun r => Some (VectorDB.r_matched_terms r))
      sparse_results in
  let batch_max := match (map_to_list scores).*2 with
                   | [] => 1%Q
                   | x :: l => Num.max_list x l
                   end in
  let fuse (doc_id : string) : option VectorDB.Result :=
    match List.find (fun d => String.eqb (VectorDB.d_id d) doc_id)
            (VectorDB.documents self), scores !! doc_id with
    | Some d, Some s =>
        let sparse_component :=
          if Num.Qltb 0 batch_max then (s / batch_max)%Q else 0%Q in
        Some {| VectorDB.r_id := doc_id;
                VectorDB.r_text := VectorDB.d_text d;
                VectorDB.r_dense_score := Some (Py.round 0 4);
                VectorDB.r_sparse_score := Some (Py.round s 2);
                VectorDB.r_score :=
                  Py.round (sparse_component * (1 - dense_weight))%Q 4;
                VectorDB.r_metadata := VectorDB.d_metadata d;
                VectorDB.r_matched_terms := default [] (terms !! doc_id);
                VectorDB.r_search_engine := "hybrid" |}
    | _, _ => None
    end in
  Py.slice_to
    (Num.sort_desc VectorDB.r_score
       (omap fuse (VectorDB.set_iter w (dom scores)))) top_k.

Module Examples.
Import VectorDB.

(** A rational stand-in for [math.log], the first term of the series
    of the logarithm; the examples do not depend on its values. *)
Definition log_approx (x : Q) : Q := (2 * (x - 1) / (x + 1))%Q.

(** No API key, no Qdrant. *)
Definition world_offline : World :=
  {| OPENAI_API_KEY := false;
     chat_completion := fun _ => None;
     embeddings := fun _ => None;
     query_points := fun _ _ => None;
     cosine := fun _ _ => 0%Q;
     set_iter := elements |}.

(** An API key, but every call to the API fails. *)
Definition world_failing : World :=
  {| OPENAI_API_KEY := true;
     chat_completion := fun _ => None;
     embeddings := fun _ => None;
     query_points := fun _ _ => None;
     cosine := fun _ _ => 0%Q;
     set_iter := elements |}.

(** The chat completion repeats the query term before a new term. *)
Definition world_expanding : World :=
  {| OPENAI_API_KEY := true;
     chat_completion := fun _ => Some "crispr, cas9";
     embeddings := fun _ => None;
     query_points := fun _ _ => None;
     cosine := fun _ _ => 0%Q;
     set_iter := elements |}.

(** Embeddings are one-dimensional and every cosine is one half; the
    two worlds differ only in the order in which a set is iterated. *)
Definition world_forward : World :=
  {| OPENAI_API_KEY := true;
     chat_completion := fun _ => None;
     embeddings := fun _ => Some [1%Q];
     query_points := fun _ _ => None;
     cosine := fun _ _ => (1 # 2)%Q;
     set_iter := elements |}.

Definition world_backward : World :=
  {| OPENAI_API_KEY := true;
     chat_completion := fun _ => None;
     embeddings := fun _ => Some [1%Q];
     query_points := fun _ _ => None;
     cosine := fun _ _ => (1 # 2)%Q;
     set_iter := fun s => rev (elements s) |}.

Definition paper_a : Document :=
  {| d_id := "a"; d_text := "CRISPR gene editing reduces symptoms";
     d_embedding := Some [1%Q]; d_metadata := {["pmid" := "1"]} |}.

Definition paper_b : Document :=
  {| d_id := "b"; d_text := "Unrelated topic about finance";
     d_embedding := Some [1%Q]; d_metadata := {["pmid" := "2"]} |}.

(** The store after [add_documents] of the two papers. *)
Definition two_papers : HybridVectorStore :=
  _rebuild_sparse_index log_approx
    {| documents := [paper_a; paper_b]; splade := SPLADESearch_new;
       use_qdrant := false; _splade_fitted := false |}.

(** The combined results of the query "xyzzy", which matches no term. *)
Definition tie_combined : list Result :=
  default [] (hybrid_combined world_backward two_papers "xyzzy" (7 # 10)).

Definition five_hundred_words : string := Py.join " " (repeat "word" 500).

Definition twenty_one_tokens : string :=
  "t01 t02 t03 t04 t05 t06 t07 t08 t09 t10 t11 t12 t13 t14 t15 t16 t17 t18 t19 t20 t21".

End Examples.

(** ** More of services/embedding/chunker.py *)

Module Sentences.
Import Chunker.

(** One of the characters of the look-behind [(?<=[.!?])]. *)
Definition is_end_punct (prev : option ascii) : bool :=
  match prev with
  | Some c => Ascii.eqb c "."%char || Ascii.eqb c "!"%char
              || Ascii.eqb c "?"%char
  | None => false
  end.

(** [re.split(r'(?<=[.!?])\s+', text)]: the text is cut at every run of
    blanks that follows a full stop, an exclamation or a question mark.
    [cur] is the current piece, reversed; [prev] the previous character;
    [in_gap] tells that the blanks of a cut are being skipped. *)
Fixpoint split_sentences_aux (cur : list ascii) (prev : option ascii)
    (in_gap : bool) (l : list ascii) : list string :=
  match l with
  | [] => [Py.str (rev cur)]
  | c :: l' =>
      if Py.isspace c then
        if in_gap then split_sentences_aux cur (Some c) true l'
        else if is_end_punct prev
             then Py.str (rev cur) :: split_sentences_aux [] (Some c) true l'
             else split_sentences_aux (c :: cur) (Some c) false l'
      else split_sentences_aux (c :: cur) (Some c) false l'
  end.

Definition split_sentences (text : string) : list string :=
  split_sentences_aux [] None false (Py.chars text).

(** The chunk appended by [chunk_by_sentences] and [chunk_by_tokens]. *)
Definition new_chunk (chunks : list TextChunk) (chunk_text : string)
  : TextChunk :=
  {| text := chunk_text; index := Py.len chunks; section := None;
     token_count := Some (estimate_tokens chunk_text) |}.

(** The body of the loop of [chunk_by_sentences]. *)
Definition sentence_step (max_chunk_size : Z)
    (st : list TextChunk * list string * Z) (sentence : string)
  : list TextChunk * list string * Z :=
  let '(chunks, current_chunk, current_size) := st in
  let sentence_tokens := estimate_tokens sentence in
  let st :=
    if (max_chunk_size <? current_size + sentence_tokens)
       && negb (Nat.eqb (length current_chunk) 0)
    then (chunks ++ [new_chunk chunks (Py.join " " current_chunk)], [], 0)
    else st in
  let '(chunks, current_chunk, current_size) := st in
  (chunks, current_chunk ++ [sentence], current_size + sentence_tokens).

(** [TextChunker.chunk_by_sentences] *)
Definition chunk_by_sentences (self : TextChunker) (text : string)
    (max_chunk_size : option Z) : list TextChunk :=
  let max_chunk_size := or_default max_chunk_size (chunk_size self) in
  let text := clean_text text in
  if String.eqb text "" then []
  else
    let sentences := split_sentences text in
    let '(chunks, current_chunk, _) :=
      foldl (sentence_step max_chunk_size) ([], [], 0) sentences in
    match current_chunk with
    | [] => chunks
    | _ => chunks ++ [new_chunk chunks (Py.join " " current_chunk)]
    end.

(** The loops of [chunk_paper] that label and renumber the chunks of a
    section and append them to [chunks]. *)
Definition append_section (section_name : string)
    (chunks section_chunks : list TextChunk) : list TextChunk :=
  foldl (fun chunks chunk =>
           chunks ++ [ {| text := text chunk; index := Py.len chunks;
                          section := Some section_name;
                          token_count := token_count chunk |} ])
    chunks section_chunks.

(** The loop of [chunk_paper] over [sections.items()]. *)
Fixpoint chunk_sections (fuel : nat) (self : TextChunker)
    (sections : list (string * string)) (chunks : list TextChunk)
  : option (list TextChunk) :=
  match sections with
  | [] => Some chunks
  | (section_name, section_text) :: rest =>
      match chunk_by_tokens fuel self section_text None None with
      | None => None
      | Some section_chunks =>
          chunk_sections fuel self rest
            (append_section (Py.lower section_name) chunks section_chunks)
      end
  end.

(** [TextChunker.chunk_paper]; [sections] is the dict in the order of
    its items. *)
Definition chunk_paper (fuel : nat) (self : TextChunker)
    (title abstract : string) (sections : option (list (string * string)))
  : option (list TextChunk) :=
  let combined :=
    if String.eqb abstract "" then title
    else title +:+ ". " +:+ abstract in
  match chunk_by_tokens fuel self combined None None with
  | None => None
  | Some abstract_chunks =>
      let chunks := append_section "abstract" [] abstract_chunks in
      match sections with
      | None => Some chunks
      | Some sections => chunk_sections fuel self sections chunks
      end
  end.

End Sentences.

(** ** More of api/v1/vectordb.py *)

Module Store.
Import VectorDB.

(** [min(x, l...)] of a non-empty sequence. *)
Definition min_list (x : Q) (l : list Q) : Q := foldl Num.min x l.

(** [HybridVectorStore._normalize_scores] *)
Definition _normalize_scores (scores : list Q) (target_min target_max : Q)
  : list Q :=
  match scores with
  | [] => []
  | x :: l =>
      let min_score := min_list x l in
      let max_score := Num.max_list x l in
      if Qeq_bool max_score min_score
      then repeat target_max (length scores)
      else
        let normalized :=
          map (fun s => ((s - min_score) / (max_score - min_score))%Q)
            scores in
        map (fun n => (target_min + n * (target_max - target_min))%Q)
          normalized
  end.

(** What ingestion needs beyond [World]: the batch embeddings endpoint
    ([None] for a failure) and the source of [uuid.uuid4()]. *)
Record Ingest := mkIngest {
  embeddings_batch : list string -> option (list vector);
  uuid4s : nat -> list string
}.

(** [HybridVectorStore.get_batch_embeddings] *)
Definition get_batch_embeddings (w : World) (g : Ingest)
    (texts : list string) : list (option vector) :=
  if negb (OPENAI_API_KEY w) then repeat None (length texts)
  else
    let truncated_texts :=
      map (String.substring 0 (Z.to_nat 8000)) texts in
    match embeddings_batch g truncated_texts with
    | Some vectors => map Some vectors
    | None => repeat None (length texts)
    end.

(** [zip(ids, texts, embeddings, metadatas)] as documents *)
Fixpoint zip_documents (ids texts : list string)
    (embeddings : list (option vector))
    (metadatas : list (gmap string string)) : list Document :=
  match ids, texts, embeddings, metadatas with
  | doc_id :: ids, text :: texts, embedding :: embeddings,
    metadata :: metadatas =>
      {| d_id := doc_id; d_text := text; d_embedding := embedding;
         d_metadata := metadata |}
      :: zip_documents ids texts embeddings metadatas
  | _, _, _, _ => []
  end.

(** [HybridVectorStore.add_documents]: the local store and the sparse
    index; the upsert into Qdrant is an effect on the collaborator and
    its failure is swallowed. *)
Definition add_documents (log : Q -> Q) (w : World) (g : Ingest)
    (self : HybridVectorStore) (texts : list string)
    (metadatas : list (gmap string string)) (ids : option (list string))
  : HybridVectorStore * list string :=
  let ids := match ids with
             | Some ids => ids
             | None => uuid4s g (length texts)
             end in
  let embeddings := get_batch_embeddings w g texts in
  let self :=
    {| documents :=
         documents self ++ zip_documents ids texts embeddings metadatas;
       splade := splade self; use_qdrant := use_qdrant self;
       _splade_fitted := _splade_fitted self |} in
  (_rebuild_sparse_index log self, ids).

(** [HybridVectorStore.get_stats]: the counts it reports. *)
Record Stats := mkStats {
  vectors_count : Z;
  with_embeddings : Z;
  splade_indexed : bool;
  splade_vocab_size : Z
}.

Definition get_stats (self : HybridVectorStore) : Stats :=
  {| vectors_count := Py.len (documents self);
     with_embeddings :=
       Py.len (List.filter (fun d => match d_embedding d with
                                     | Some _ => true
                                     | None => false
                                     end) (documents self));
     splade_indexed := _splade_fitted self;
     splade_vocab_size :=
       if _splade_fitted self
       then Z.of_nat (size (idf (splade self))) else 0 |}.

End Store.

(** ** Statements about the additional code *)

(** A character that may occur in a token: a word character or a
    hyphen, and no upper-case letter. *)
Definition token_char (c : ascii) : bool :=
  (Py.isword c || Ascii.eqb c "-"%char) && negb (Py.isupper c).

(** The only blank character left by [clean_text]. *)
Definition plain_blank (c : ascii) : Prop :=
  Py.isspace c = true -> c = " "%char.

(** The chunks are numbered by their position. *)
Definition numbered (chunks : list Chunker.TextChunk) : Prop :=
  forall i c, chunks !! i = Some c -> Chunker.index c = Z.of_nat i.

(** Non-increasing scores. *)
Definition descending (results : list VectorDB.Result) : Prop :=
  StronglySorted (ge_key VectorDB.r_score) results.

(** The number of words [int(tokens / 1.3)] that [chunk_by_tokens]
    takes for a number of tokens. *)
Definition words_for (tokens : Z) : Z :=
  Py.int_of (inject_Z tokens / (13 # 10)).

(** Overlapping windows put back together: the first window, then every
    later window without its first [overlap] words. *)
Definition stitch (overlap : Z) (windows : list (list string))
  : list string :=
  match windows with
  | [] => []
  | w :: ws => w ++ concat (map (skipn (Z.to_nat overlap)) ws)
  end.

(** A non-empty string without blanks. *)
Definition is_word (w : string) : Prop :=
  w <> "" /\ Forall (fun c => Py.isspace c = false) (Py.chars w).

(** A chunk as [chunk_by_tokens] and [chunk_by_sentences] build it: no
    section, and the token estimate of its own text. *)
Definition plain_chunk (c : Chunker.TextChunk) : Prop :=
  Chunker.section c = None
  /\ Chunker.token_count c
     = Some (Chunker.estimate_tokens (Chunker.text c)).

(** The words of the cleaned text, and the window and overlap in words
    that [chunk_by_tokens] computes from its arguments. *)
Definition cleaned_words (text : string) : list string :=
  Py.split (Chunker.clean_text text).

Definition words_per_chunk (self : Chunker.TextChunker)
    (chunk_size : option Z) : Z :=
  words_for (Chunker.or_default chunk_size (Chunker.chunk_size self)).

Definition words_overlap (self : Chunker.TextChunker)
    (overlap : option Z) : Z :=
  words_for (Chunker.or_default overlap (Chunker.chunk_overlap self)).

(** The sum of the token estimates of the sentences of a group. *)
Definition group_tokens (g : list string) : Z :=
  foldr (fun s acc => Chunker.estimate_tokens s + acc) 0 g.

(** The sentences that [chunk_by_sentences] sees. *)
Definition cleaned_sentences (text : string) : list string :=
  if String.eqb (Chunker.clean_text text) "" then []
  else Sentences.split_sentences (Chunker.clean_text text).

(** A group of sentences that fits a chunk: one sentence, or several
    whose estimates sum to at most [max_chunk_size]. *)
Definition sentence_group (max_chunk_size : Z) (g : list string) : Prop :=
  g <> [] /\ (length g = 1%nat \/ group_tokens g <= max_chunk_size).

(** [f"{title}. {abstract}" if abstract else title] *)
Definition title_and_abstract (title abstract : string) : string :=
  if String.eqb abstract "" then title else title +:+ ". " +:+ abstract.

(** The section label and the text of a chunk. *)
Definition labelled_text (c : Chunker.TextChunk) : option string * string :=
  (Chunker.section c, Chunker.text c).

(** The labelled texts of the chunks of a section. *)
Definition section_texts (name : string)
    (section_chunks : list Chunker.TextChunk)
  : list (option string * string) :=
  map (fun c => (Some name, Chunker.text c)) section_chunks.

(** What the loop of [chunk_by_sentences] keeps: the chunks are the
    joined groups, numbered and plain; every closed group fits; the
    open group fits or is empty, and [current_size] is its estimate. *)
Definition sentence_inv (max_chunk_size : Z)
    (st : list Chunker.TextChunk * list string * Z)
    (groups : list (list string)) : Prop :=
  let '(chunks, current_chunk, current_size) := st in
  map Chunker.text chunks = map (Py.join " ") groups
  /\ numbered chunks /\ Forall plain_chunk chunks
  /\ Forall (sentence_group max_chunk_size) groups
  /\ (current_chunk = [] \/ sentence_group max_chunk_size current_chunk)
  /\ current_size = group_tokens current_chunk.

(** A value between two bounds. *)
Definition in_range (lo hi x : Q) : Prop := (lo <= x <= hi)%Q.

(** Two lists of scores in the same order: the list [out] has the
    length of [scores], and a score that is not greater than another
    has an image that is not greater. *)
Definition same_order (scores out : list Q) : Prop :=
  length out = length scores
  /\ forall i j s t y z,
       scores !! i = Some s -> scores !! j = Some t ->
       out !! i = Some y -> out !! j = Some z ->
       (s <= t)%Q -> (y <= z)%Q.

(** A result of the sparse search: the score is the sparse score, it
    lies between 0 and 30, and there is no dense score. *)
Definition sparse_only_result (r : VectorDB.Result) : Prop :=
  in_range 0 30 (VectorDB.r_score r)
  /\ VectorDB.r_sparse_score r = Some (VectorDB.r_score r)
  /\ VectorDB.r_dense_score r = None
  /\ VectorDB.r_search_engine r = "splade".

(** The result reports a document of the store. *)
Definition of_document (self : VectorDB.HybridVectorStore)
    (r : VectorDB.Result) : Prop :=
  exists d, In d (VectorDB.documents self)
            /\ VectorDB.r_id r = VectorDB.d_id d
            /\ VectorDB.r_text r = VectorDB.d_text d
            /\ VectorDB.r_metadata r = VectorDB.d_metadata d.

(** At most [top_k] results, for a [top_k] that is not negative. *)
Definition at_most {A} (top_k : Z) (results : list A) : Prop :=
  0 <= top_k -> Py.len results <= top_k.

(** A result of the in-memory dense search: the score is the dense
    score, it lies between 0 and 1, and there is no sparse score. *)
Definition dense_only_result (r : VectorDB.Result) : Prop :=
  unit_interval (VectorDB.r_score r)
  /\ VectorDB.r_dense_score r = Some (VectorDB.r_score r)
  /\ VectorDB.r_sparse_score r = None
  /\ VectorDB.r_search_engine r = "in_memory".

(** Hits by non-increasing score. *)
Definition descending_hits (hits : list VectorDB.SparseHit) : Prop :=
  StronglySorted (ge_key VectorDB.h_score) hits.

(** A hit of the lexical search: a positive score, at most five matched
    terms, and the position and id of one of the documents searched. *)
Definition positive_hit (documents doc_ids : list string)
    (h : VectorDB.SparseHit) : Prop :=
  (0 < VectorDB.h_score h)%Q
  /\ Py.len (VectorDB.h_matched_terms h) <= 5
  /\ is_Some (documents !! VectorDB.h_idx h)
  /\ doc_ids !! VectorDB.h_idx h = Some (VectorDB.h_doc_id h).

(** A single-token query term that [score] rates by BM25 on a document:
    it is in the idf table and among the tokens of the document. *)
Definition bm25_term (self : VectorDB.SPLADESearch) (doc_text term : string)
  : Prop :=
  is_phrase term = false
  /\ is_Some (VectorDB.idf self !! term)
  /\ In term (VectorDB._tokenize doc_text).

(** The number of the documents that have the term among their
    tokens. *)
Definition containing (term : string) (documents : list string) : Z :=
  Py.len (List.filter
            (fun doc => bool_decide (term ∈ VectorDB._tokenize doc))
            documents).

(** The entry of the term in the table of document frequencies: none
    when no document has it. *)
Definition df_entry (term : string) (documents : list string) : option Z :=
  if containing term documents =? 0 then None
  else Some (containing term documents).

(** The sparse index of the store is the one a new [SPLADESearch] gets
    when fitted on the documents of the store, and it is marked as
    fitted exactly when there are documents. *)
Definition fresh_index (log : Q -> Q) (self : VectorDB.HybridVectorStore)
  : Prop :=
  match VectorDB.documents self with
  | [] => VectorDB._splade_fitted self = false
          /\ VectorDB.splade self = VectorDB.SPLADESearch_new
  | _ => VectorDB._splade_fitted self = true
         /\ VectorDB.splade self
            = VectorDB.fit log VectorDB.SPLADESearch_new
                (map VectorDB.d_text (VectorDB.documents self))
                (map VectorDB.d_id (VectorDB.documents self))
  end.

(** A weighted query term: a token of the query with weight 2, or
    another non-empty term with a weight above 0 and at most 1. *)
Definition query_term_ok (query : string) (tw : string * Q) : Prop :=
  (In tw.1 (VectorDB._tokenize query) /\ tw.2 = 2%Q)
  \/ (~ In tw.1 (VectorDB._tokenize query) /\ tw.1 <> ""
      /\ (0 < tw.2 <= 1)%Q).

(** No entry of a table of counts is zero or negative. *)
Definition positive_counts (df : gmap string Z) : Prop :=
  forall t k, df !! t = Some k -> 0 < k.

(** A query term for which the loop of [score] divides by the average
    document length: a single token with an idf entry and a frequency
    in the document that is not zero. *)
Definition divides (self : VectorDB.SPLADESearch)
    (term_freqs : gmap string Z) (tw : string * Q) : Prop :=
  is_phrase tw.1 = false /\ is_Some (VectorDB.idf self !! tw.1)
  /\ default 0 (term_freqs !! tw.1) <> 0.

(** A sentence that ends with a full stop, an exclamation or a question
    mark. *)
Definition ends_sentence (s : string) : Prop :=
  Sentences.is_end_punct (hd_error (rev (Py.chars s))) = true.

(** The distinct tokens of the documents of the store. *)
Definition vocabulary (self : VectorDB.HybridVectorStore) : gset string :=
  list_to_set
    (concat (map (fun d => VectorDB._tokenize (VectorDB.d_text d))
               (VectorDB.documents self))).

(** ** Comparisons, rounding and sorting *)

Lemma Qltb_lt (x y : Q) : Num.Qltb x y = true <-> (x < y)%Q.
Proof.
  unfold Num.Qltb. rewrite negb_true_iff.
  destruct (Qle_bool y x) eqn:E.
  - apply Qle_bool_iff in E. split; [discriminate|]. intros H.
    exfalso. exact (Qlt_not_le _ _ H E).
  - split; [intros _|reflexivity].
    apply Qnot_le_lt. intros H. apply Qle_bool_iff in H. congruence.
Qed.

Lemma Qltb_ge (x y : Q) : Num.Qltb x y = false <-> (y <= x)%Q.
Proof.
  unfold Num.Qltb. rewrite negb_false_iff. apply Qle_bool_iff.
Qed.

Lemma max_cases (x y : Q) :
  (Num.max x y = y /\ (x < y)%Q) \/ (Num.max x y = x /\ (y <= x)%Q).
Proof.
  unfold Num.max. destruct (Num.Qltb x y) eqn:E.
  - left. split; [reflexivity|]. now apply Qltb_lt.
  - right. split; [reflexivity|]. now apply Qltb_ge.
Qed.

Lemma min_cases (x y : Q) :
  (Num.min x y = y /\ (y < x)%Q) \/ (Num.min x y = x /\ (x <= y)%Q).
Proof.
  unfold Num.min. destruct (Num.Qltb y x) eqn:E.
  - left. split; [reflexivity|]. now apply Qltb_lt.
  - right. split; [reflexivity|]. now apply Qltb_ge.
Qed.

Lemma max_list_ge (l : list Q) : forall x,
  (x <= Num.max_list x l)%Q
  /\ forall y, In y l -> (y <= Num.max_list x l)%Q.
Proof.
  induction l as [|a l IH]; intros x; simpl.
  - split; [apply Qle_refl|intros y []].
  - destruct (IH (Num.max x a)) as [H1 H2].
    destruct (max_cases x a) as [[E Hlt]|[E Hle]]; rewrite E in *.
    + split; [eapply Qle_trans; [apply Qlt_le_weak, Hlt|exact H1]|].
      intros y [<-|Hy]; auto.
    + split; [exact H1|].
      intros y [<-|Hy]; [eapply Qle_trans; eauto|auto].
Qed.

(** Rounding to an integer stays between the floor and the next integer,
    and integers are fixed. *)
Lemma round_half_even_bounds (x : Q) (lo hi : Z) :
  (inject_Z lo <= x <= inject_Z hi)%Q ->
  lo <= Py.round_half_even x <= hi.
Proof.
  intros [Hlo Hhi]. unfold Py.round_half_even.
  pose proof (Qfloor_le x) as Hf.
  pose proof (Qlt_floor x) as Hc.
  assert (lo <= Qfloor x).
  { apply Z.lt_succ_r. rewrite <- Z.add_1_r. rewrite Zlt_Qlt.
    eapply Qle_lt_trans; [exact Hlo|exact Hc]. }
  assert (Qfloor x <= hi).
  { rewrite Zle_Qle. eapply Qle_trans; [exact Hf|exact Hhi]. }
  assert (Hstep : (0 < x - inject_Z (Qfloor x))%Q -> Qfloor x + 1 <= hi).
  { intros Hr. assert (Qfloor x < hi); [|lia].
    rewrite Zlt_Qlt. eapply Qlt_le_trans; [|exact Hhi]. lra. }
  destruct (Qcompare_spec (x - inject_Z (Qfloor x)) (1 # 2)) as [E|E|E].
  - destruct (Z.even (Qfloor x)); [lia|].
    split; [lia|]. apply Hstep. rewrite E. reflexivity.
  - lia.
  - split; [lia|]. apply Hstep. lra.
Qed.

Lemma inject_Z_pos (p : Z) : 0 < p -> (0 < inject_Z p)%Q.
Proof. intros H. unfold Qlt. simpl. lia. Qed.

Lemma round_unit_interval (x : Q) (n : nat) :
  (0 <= x <= 1)%Q -> (0 <= Py.round x n <= 1)%Q.
Proof.
  intros [H0 H1]. unfold Py.round.
  set (p := 10 ^ Z.of_nat n).
  assert (Hp : 0 < p) by (apply Z.pow_pos_nonneg; lia).
  assert (HpQ : (0 < inject_Z p)%Q) by (apply inject_Z_pos, Hp).
  destruct (round_half_even_bounds (x * inject_Z p) 0 p) as [Ha Hb].
  { split; [change (inject_Z 0) with 0%Q; nra|nra]. }
  rewrite Zle_Qle in Ha, Hb. change (inject_Z 0) with 0%Q in Ha.
  split.
  - apply Qle_shift_div_l; [exact HpQ|]. lra.
  - apply Qle_shift_div_r; [exact HpQ|]. lra.
Qed.

Lemma round_nonneg (x : Q) (n : nat) : (0 <= x)%Q -> (0 <= Py.round x n)%Q.
Proof.
  intros H0. unfold Py.round.
  set (p := 10 ^ Z.of_nat n).
  assert (Hp : 0 < p) by (apply Z.pow_pos_nonneg; lia).
  assert (HpQ : (0 < inject_Z p)%Q) by (apply inject_Z_pos, Hp).
  assert (Ha : 0 <= Py.round_half_even (x * inject_Z p)).
  { unfold Py.round_half_even.
    assert (0 <= Qfloor (x * inject_Z p)).
    { change 0 with (Qfloor 0). apply Qfloor_resp_le. nra. }
    destruct (_ ?= _)%Q; [destruct (Z.even _)|..]; lia. }
  rewrite Zle_Qle in Ha. change (inject_Z 0) with 0%Q in Ha.
  apply Qle_shift_div_l; [exact HpQ|]. lra.
Qed.

Lemma round_half_even_proper (x y : Q) :
  (x == y)%Q -> Py.round_half_even x = Py.round_half_even y.
Proof.
  intros E. unfold Py.round_half_even.
  assert (Ef : Qfloor x = Qfloor y) by (now apply Qfloor_comp).
  rewrite Ef.
  assert (Ec : ((x - inject_Z (Qfloor y)) ?= 1 # 2)%Q
               = ((y - inject_Z (Qfloor y)) ?= 1 # 2)%Q).
  { apply Qcompare_comp; [rewrite E|]; reflexivity. }
  now rewrite Ec.
Qed.

Lemma round_proper (x y : Q) (n : nat) :
  (x == y)%Q -> Py.round x n = Py.round y n.
Proof.
  intros E. unfold Py.round.
  rewrite (round_half_even_proper (x * _) (y * inject_Z (10 ^ Z.of_nat n)));
    [reflexivity|]. now rewrite E.
Qed.

Section SortFacts.
Context {A : Type} (key : A -> Q).

Lemma insert_desc_perm (x : A) (l : list A) :
  Permutation (x :: l) (Num.insert_desc key x l).
Proof.
  induction l as [|y l IH]; simpl; [reflexivity|].
  destruct (Num.Qltb (key x) (key y)); [|reflexivity].
  rewrite perm_swap. now constructor.
Qed.

Lemma sort_desc_perm (l : list A) : Permutation l (Num.sort_desc key l).
Proof.
  induction l as [|x l IH]; simpl; [reflexivity|].
  rewrite <- insert_desc_perm. now constructor.
Qed.

Lemma insert_desc_sorted (x : A) (l : list A) :
  StronglySorted (ge_key key) l -> StronglySorted (ge_key key) (Num.insert_desc key x l).
Proof.
  induction 1 as [|y l Hs IH Hall]; simpl.
  - repeat constructor.
  - destruct (Num.Qltb (key x) (key y)) eqn:E.
    + constructor; [exact IH|].
      apply Qltb_lt in E.
      rewrite List.Forall_forall. intros z Hz.
      apply (Permutation_in _ (Permutation_sym (insert_desc_perm x l))) in Hz.
      destruct Hz as [<-|Hz]; [apply Qlt_le_weak, E|].
      rewrite List.Forall_forall in Hall. auto.
    + apply Qltb_ge in E.
      constructor; [now constructor|].
      constructor; [exact E|].
      rewrite List.Forall_forall in *. intros z Hz.
      unfold ge_key in *. eapply Qle_trans; [apply Hall, Hz|exact E].
Qed.

Lemma sort_desc_sorted (l : list A) :
  StronglySorted (ge_key key) (Num.sort_desc key l).
Proof.
  induction l as [|x l IH]; simpl; [constructor|].
  now apply insert_desc_sorted.
Qed.

(** Stability: the elements with a given key keep their order. *)
Lemma insert_desc_stable (s : Q) (x : A) (l : list A) :
  List.filter (fun a => Qeq_bool (key a) s) (Num.insert_desc key x l)
  = List.filter (fun a => Qeq_bool (key a) s) (x :: l).
Proof.
  induction l as [|y l IH]; [reflexivity|].
  simpl Num.insert_desc.
  destruct (Num.Qltb (key x) (key y)) eqn:E; [|reflexivity].
  apply Qltb_lt in E.
  simpl in *. rewrite IH.
  destruct (Qeq_bool (key x) s) eqn:Ex; [|reflexivity].
  destruct (Qeq_bool (key y) s) eqn:Ey; [|reflexivity].
  apply Qeq_bool_iff in Ex, Ey. rewrite Ex, Ey in E.
  exfalso. exact (Qlt_irrefl _ E).
Qed.

Lemma sort_desc_stable (s : Q) (l : list A) :
  List.filter (fun a => Qeq_bool (key a) s) (Num.sort_desc key l)
  = List.filter (fun a => Qeq_bool (key a) s) l.
Proof.
  induction l as [|x l IH]; [reflexivity|].
  simpl Num.sort_desc. rewrite insert_desc_stable. simpl. now rewrite IH.
Qed.
End SortFacts.

Lemma slice_sublist {A} (l : list A) (a b : Z) :
  Py.slice l a b `sublist_of` l.
Proof.
  unfold Py.slice. etransitivity; [apply sublist_take|apply sublist_drop].
Qed.

Lemma In_slice {A} (x : A) (l : list A) (a b : Z) :
  In x (Py.slice l a b) -> In x l.
Proof.
  rewrite <- !list_elem_of_In. intros H.
  eapply elem_of_sublist; [exact H|apply slice_sublist].
Qed.

(** ** Termination of the sliding-window loops *)

Section ChunkTextLoop.
Import VectorDB.
Variables (words : list string) (chunk_size overlap : Z).

Lemma chunk_text_loop_fuel_mono (fuel fuel' : nat) :
  (fuel <= fuel')%nat ->
  forall start chunks r,
    chunk_text_loop fuel words chunk_size overlap start chunks = Some r ->
    chunk_text_loop fuel' words chunk_size overlap start chunks = Some r.
Proof.
  revert fuel'. induction fuel as [|fuel IH]; intros fuel' Hle start chunks r H.
  - discriminate.
  - destruct fuel' as [|fuel']; [lia|].
    simpl in *.
    destruct (start <? Py.len words); [|exact H].
    destruct (_ >=? _); [exact H|].
    apply IH; [lia|exact H].
Qed.

Hypothesis Hov : 0 <= overlap < chunk_size.

Lemma chunk_text_loop_returns (fuel : nat) :
  forall start chunks,
    0 <= start ->
    (Z.to_nat (Py.len words - start) < fuel)%nat ->
    is_Some (chunk_text_loop fuel words chunk_size overlap start chunks).
Proof.
  induction fuel as [|fuel IH]; intros start chunks Hs Hf; [lia|].
  simpl.
  destruct (start <? Py.len words) eqn:Hlt; [|eauto].
  apply Z.ltb_lt in Hlt.
  destruct (_ >=? _) eqn:Hbrk; [eauto|].
  rewrite Z.geb_leb in Hbrk. apply Z.leb_gt in Hbrk.
  apply IH; lia.
Qed.
End ChunkTextLoop.

Lemma chunk_text_diverges_loop (words : list string) (chunk_size overlap : Z) :
  chunk_size < Py.len words -> 0 < Py.len words -> chunk_size <= overlap ->
  forall fuel start chunks,
    start <= 0 ->
    VectorDB.chunk_text_loop fuel words chunk_size overlap start chunks = None.
Proof.
  intros Hcs Hn Hov. induction fuel as [|fuel IH]; intros start chunks Hs.
  - reflexivity.
  - simpl.
    destruct (start <? Py.len words) eqn:Hlt; [|apply Z.ltb_ge in Hlt; lia].
    destruct (_ >=? _) eqn:Hbrk.
    + apply Z.geb_le in Hbrk. lia.
    + apply IH. lia.
Qed.

Lemma split_empty_text (text : string) :
  (text =? "")%string = true -> Py.split text = [].
Proof. intros H. apply String.eqb_eq in H. subst. reflexivity. Qed.

(** C10: [chunk_text] returns a list for every text whenever
    [0 <= overlap < chunk_size]: any fuel above the number of words is
    enough, and the result does not depend on it.  That nothing else
    guards the loop is [chunk_text_diverges] below. *)
Theorem chunk_text_terminates (text : string) (chunk_size overlap : Z) :
  0 <= overlap < chunk_size ->
  exists chunks,
    forall fuel, (length (Py.split text) < fuel)%nat ->
      VectorDB.chunk_text fuel text chunk_size overlap = Some chunks.
Proof.
  intros Hov. unfold VectorDB.chunk_text.
  destruct (text =? "")%string; [eauto|].
  destruct (_ <=? _); [eauto|].
  destruct (chunk_text_loop_returns (Py.split text) chunk_size overlap Hov
              (S (length (Py.split text))) 0 []) as [r Hr];
    [lia|unfold Py.len; lia|].
  exists r. intros fuel Hf.
  eapply chunk_text_loop_fuel_mono; [|exact Hr]. lia.
Qed.

Lemma chunk_text_terminates_witness :
  exists chunks,
    forall fuel, (length (Py.split "a b c d e f g") < fuel)%nat ->
      VectorDB.chunk_text fuel "a b c d e f g" 3 1 = Some chunks.
Proof. apply (chunk_text_terminates "a b c d e f g" 3 1). lia. Defined.

(** Without the precondition the loop has no other guard: for a text
    of more than [chunk_size] words and [overlap >= chunk_size] no
    amount of fuel is enough. *)
Theorem chunk_text_diverges (text : string) (chunk_size overlap : Z) :
  chunk_size < Py.len (Py.split text) -> 0 < Py.len (Py.split text) ->
  chunk_size <= overlap ->
  forall fuel, VectorDB.chunk_text fuel text chunk_size overlap = None.
Proof.
  intros Hcs Hn Hov fuel. unfold VectorDB.chunk_text.
  destruct (text =? "")%string eqn:He.
  - rewrite (split_empty_text _ He) in Hn. unfold Py.len in Hn. simpl in Hn. lia.
  - destruct (_ <=? _) eqn:Hle; [apply Z.leb_le in Hle; lia|].
    apply chunk_text_diverges_loop; auto. lia.
Qed.


Section ChunkLoop.
Import Chunker.
Variables (words : list string) (wpc wo : Z).

Lemma chunk_loop_continue fuel start chunks :
  start < Py.len words -> start + wpc < Py.len words ->
  chunk_loop (S fuel) words wpc wo start chunks =
  chunk_loop fuel words wpc wo (start + wpc - wo)
    (chunks ++ [chunk_of words start (start + wpc) (Py.len chunks)]).
Proof.
  intros H1 H2. simpl.
  apply Z.ltb_lt in H1 as ->.
  rewrite Z.min_l by lia.
  destruct (_ >=? _) eqn:Hb; [apply Z.geb_le in Hb; lia|reflexivity].
Qed.

Lemma chunk_loop_last fuel start chunks :
  start < Py.len words -> Py.len words <= start + wpc ->
  chunk_loop (S fuel) words wpc wo start chunks =
  Some (chunks ++ [chunk_of words start (Py.len words) (Py.len chunks)]).
Proof.
  intros H1 H2. simpl.
  apply Z.ltb_lt in H1 as ->.
  rewrite Z.min_r by lia.
  destruct (_ >=? _) eqn:Hb; [reflexivity|].
  rewrite Z.geb_leb in Hb. apply Z.leb_gt in Hb. lia.
Qed.
End ChunkLoop.

Lemma clamp_nonneg n i : 0 <= i -> Py.clamp n i = Z.min i n.
Proof.
  intros H. unfold Py.clamp.
  destruct (i <? 0) eqn:E; [apply Z.ltb_lt in E; lia|reflexivity].
Qed.

Lemma window_length ws k :
  length ws = 500%nat -> (k < 7)%nat -> length (window ws k) = 76%nat.
Proof.
  intros Hl Hk. unfold window, Py.slice, Py.len.
  rewrite !clamp_nonneg by lia.
  rewrite length_take, length_drop, Hl. lia.
Qed.

Lemma window_overlap ws k :
  length ws = 500%nat -> (k < 7)%nat ->
  skipn 61 (window ws k) = firstn 15 (window ws (S k)).
Proof.
  intros Hl Hk. unfold window, Py.slice, Py.len.
  rewrite !clamp_nonneg by lia. rewrite Hl.
  do 7 (destruct k as [|k]; [vm_compute Z.to_nat; rewrite skipn_firstn_comm, skipn_skipn, firstn_firstn; reflexivity|]).
  lia.
Qed.

(** C9, as the code has it: for a text whose cleaned form splits into
    500 words, [chunk_by_tokens] with [chunk_size=100], [overlap=20]
    returns, for any fuel of at least 8, the same 8 chunks: chunk [k] is
    the words [61k .. 61k+76) joined by blanks, so every chunk but the
    last has exactly [int(100/1.3) = 76] words, shares its last
    [int(20/1.3) = 15] words with the start of the next one, and the
    last chunk has 73 words. *)
Theorem chunk_by_tokens_500_words (self : Chunker.TextChunker)
    (text : string) (ws : list string) (fuel : nat) :
  Py.split (Chunker.clean_text text) = ws ->
  length ws = 500%nat ->
  (8 <= fuel)%nat ->
  exists chunks,
    Chunker.chunk_by_tokens fuel self text (Some 100) (Some 20) = Some chunks
    /\ map Chunker.text chunks
       = map (fun k => Py.join " " (window ws k)) (seq 0 8)
    /\ (forall k, (k < 7)%nat ->
          length (window ws k) = 76%nat
          /\ skipn 61 (window ws k) = firstn 15 (window ws (S k)))
    /\ length (window ws 7) = 73%nat.
Proof.
  intros Hs Hl Hf.
  assert (Hlen : Py.len ws = 500) by (unfold Py.len; lia).
  unfold Chunker.chunk_by_tokens.
  destruct (Chunker.clean_text text =? "")%string eqn:He.
  { rewrite (proj1 (String.eqb_eq _ _) He) in Hs. subst ws. discriminate Hl. }
  rewrite Hs. destruct ws as [|w0 ws0] eqn:Ews; [discriminate Hl|].
  cbv beta iota zeta. rewrite <- Ews in *. clear Ews w0 ws0.
  change (Py.int_of (inject_Z (Chunker.or_default (Some 100) (Chunker.chunk_size self)) / (13 # 10))) with 76.
  change (Py.int_of (inject_Z (Chunker.or_default (Some 20) (Chunker.chunk_overlap self)) / (13 # 10))) with 15.
  destruct fuel as [|[|[|[|[|[|[|[|fuel]]]]]]]]; try lia.
  eexists. split; [|split; [|split]].
  - do 7 (rewrite chunk_loop_continue; [|rewrite Hlen; lia|rewrite Hlen; lia]).
    rewrite chunk_loop_last; [|rewrite Hlen; lia|rewrite Hlen; lia]. reflexivity.
  - unfold window, chunk_of, Py.slice, Py.len. rewrite Hl.
    cbv -[firstn skipn Py.join]. reflexivity.
  - intros k Hk. split; [apply window_length|apply window_overlap]; auto.
  - unfold window, Py.slice, Py.len. rewrite Hl.
    rewrite length_take, length_drop, Hl. reflexivity.
Qed.

Lemma chunk_by_tokens_500_words_witness :
  exists chunks,
    Chunker.chunk_by_tokens 8 (Chunker.init (Some 100) (Some 20))
      Examples.five_hundred_words (Some 100) (Some 20) = Some chunks
    /\ map Chunker.text chunks
       = map (fun k => Py.join " " (window (repeat "word" 500) k)) (seq 0 8)
    /\ (forall k, (k < 7)%nat ->
          length (window (repeat "word" 500) k) = 76%nat
          /\ skipn 61 (window (repeat "word" 500) k)
             = firstn 15 (window (repeat "word" 500) (S k)))
    /\ length (window (repeat "word" 500) 7) = 73%nat.
Proof.
  apply (chunk_by_tokens_500_words (Chunker.init (Some 100) (Some 20))
           Examples.five_hundred_words (repeat "word" 500) 8);
    [vm_compute; reflexivity|reflexivity|lia].
Defined.

(** C9 as stated fails: the first of the 8 chunks of 500 identical
    words has 76 words, not 100. *)
Lemma chunk_by_tokens_100_words_counterexample :
  exists chunks,
    Chunker.chunk_by_tokens 8 (Chunker.init (Some 100) (Some 20))
      Examples.five_hundred_words (Some 100) (Some 20) = Some chunks
    /\ ~ all_but_last_have_words 100 chunks.
Proof.
  eexists. split; [vm_compute; reflexivity|].
  intros H. specialize (H 0%nat _ ltac:(simpl; lia) eq_refl).
  vm_compute in H. discriminate H.
Qed.

(** ** Query expansion *)

Section Normalise.
Import Py.

Lemma chars_str (l : list ascii) : chars (str l) = l.
Proof. apply list_ascii_of_string_of_list_ascii. Qed.

Lemma isspace_lower_char (c : ascii) : isspace (lower_char c) = isspace c.
Proof. destruct c as [[] [] [] [] [] [] [] []]; reflexivity. Qed.

Lemma lower_char_idemp (c : ascii) : lower_char (lower_char c) = lower_char c.
Proof. destruct c as [[] [] [] [] [] [] [] []]; reflexivity. Qed.

Lemma lstrip_map_lower (l : list ascii) :
  lstrip_chars (map lower_char l) = map lower_char (lstrip_chars l).
Proof.
  induction l as [|c l IH]; [reflexivity|]. simpl.
  rewrite isspace_lower_char. destruct (isspace c); [exact IH|reflexivity].
Qed.

Lemma lstrip_fix (l : list ascii) : stripped_head l -> lstrip_chars l = l.
Proof. destruct l as [|c l]; simpl; [reflexivity|]. now intros ->. Qed.

Lemma lstrip_head (l : list ascii) : stripped_head (lstrip_chars l).
Proof.
  induction l as [|c l IH]; simpl; [exact I|].
  destruct (isspace c) eqn:E; [exact IH|exact E].
Qed.

(** Dropping leading blanks keeps the last character. *)
Lemma lstrip_snoc (l : list ascii) (c : ascii) :
  isspace c = false ->
  exists m, lstrip_chars (l ++ [c]) = m ++ [c].
Proof.
  intros Hc. induction l as [|a l [m IH]]; simpl.
  - rewrite Hc. now exists [].
  - destruct (isspace a); [now exists m|]. now exists (a :: l).
Qed.

Lemma strip_chars_head (l : list ascii) : stripped_head (strip_chars l).
Proof.
  unfold strip_chars.
  pose proof (lstrip_head l) as H.
  destruct (lstrip_chars l) as [|c r]; [exact I|].
  simpl in H. simpl rev.
  destruct (lstrip_snoc (rev r) c H) as [m ->].
  rewrite rev_app_distr. exact H.
Qed.

Lemma strip_chars_idemp (l : list ascii) :
  strip_chars (strip_chars l) = strip_chars l.
Proof.
  unfold strip_chars at 1.
  rewrite (lstrip_fix _ (strip_chars_head l)).
  unfold strip_chars. rewrite rev_involutive.
  now rewrite (lstrip_fix _ (lstrip_head _)).
Qed.

Lemma strip_chars_map_lower (l : list ascii) :
  strip_chars (map lower_char l) = map lower_char (strip_chars l).
Proof.
  unfold strip_chars.
  now rewrite lstrip_map_lower, <- map_rev, lstrip_map_lower, map_rev.
Qed.

Lemma chars_strip (s : string) : chars (strip s) = strip_chars (chars s).
Proof. unfold strip. now rewrite chars_str. Qed.

Lemma chars_lower (s : string) : chars (lower s) = map lower_char (chars s).
Proof. unfold lower. now rewrite chars_str. Qed.

Lemma lower_strip_idemp (s : string) :
  lower (strip (lower (strip s))) = lower (strip s).
Proof.
  unfold lower at 1 3. f_equal.
  rewrite chars_strip, chars_lower, chars_strip.
  rewrite strip_chars_map_lower, strip_chars_idemp, map_map.
  apply map_ext. intros. apply lower_char_idemp.
Qed.
End Normalise.

Lemma candidates_normalised (content c : string) :
  In c (candidates content) -> Py.lower (Py.strip c) = c.
Proof.
  unfold candidates. rewrite in_map_iff. intros [r [<- _]].
  apply lower_strip_idemp.
Qed.

Section ExpandLoops.
Import VectorDB.

Lemma expand_inv_snoc wt (seen : gset string) t (q : Q) :
  expand_inv (wt, seen) -> (t ∉ seen) ->
  expand_inv (wt ++ [(t, q)], {[t]} ∪ seen).
Proof.
  unfold expand_inv. simpl. intros [-> Hnd] Hin. split.
  - rewrite fmap_app, list_to_set_app_L. simpl.
    rewrite (right_id_L ∅ (∪)). apply (comm_L (∪)).
  - rewrite fmap_app. apply NoDup_app. split; [exact Hnd|]. split.
    + intros x Hx. simpl. rewrite list_elem_of_singleton. intros ->.
      apply Hin. now apply elem_of_list_to_set.
    + simpl. apply NoDup_singleton.
Qed.

Lemma add_original_seen wt (seen : gset string) t (q : Q) :
  t ∈ seen -> add_original (wt, seen) (t, q) = (wt, seen).
Proof. intros H. unfold add_original. now rewrite decide_True. Qed.

Lemma add_original_new wt (seen : gset string) t (q : Q) :
  (t ∉ seen) ->
  add_original (wt, seen) (t, q) = (wt ++ [(t, q)], {[t]} ∪ seen).
Proof. intros H. unfold add_original. now rewrite decide_False. Qed.

Lemma add_expanded_new wt (seen : gset string) (i : nat) c :
  Py.lower (Py.strip c) = c -> c <> "" -> (c ∉ seen) ->
  add_expanded (wt, seen) (i, c)
  = (wt ++ [(c, expansion_weight i)], {[c]} ∪ seen).
Proof.
  intros Hc Hne Hs. unfold add_expanded. rewrite Hc.
  apply String.eqb_neq in Hne. rewrite Hne.
  now rewrite bool_decide_eq_true_2.
Qed.

Lemma add_expanded_skip wt (seen : gset string) (i : nat) c :
  Py.lower (Py.strip c) = c -> c = "" \/ c ∈ seen ->
  add_expanded (wt, seen) (i, c) = (wt, seen).
Proof.
  intros Hc Hs. unfold add_expanded. rewrite Hc.
  destruct Hs as [->|Hs]; [reflexivity|].
  rewrite (bool_decide_eq_false_2 (c ∉ seen)); [|tauto].
  now rewrite andb_false_r.
Qed.

(** The first loop keeps the original terms, first occurrence wins. *)
Lemma original_loop (l : list (string * Q)) : forall wt seen,
  expand_inv (wt, seen) ->
  exists og,
    (foldl add_original (wt, seen) l).1 = wt ++ og
    /\ expand_inv (foldl add_original (wt, seen) l)
    /\ (forall t q, In (t, q) og -> In (t, q) l /\ t ∉ seen)
    /\ (forall t, In t l.*1 -> t ∈ (foldl add_original (wt, seen) l).2)
    /\ seen ⊆ (foldl add_original (wt, seen) l).2.
Proof.
  induction l as [|[t q] l IH]; intros wt seen Hinv.
  - exists []. split; [simpl; now rewrite app_nil_r|].
    split; [exact Hinv|]. split; [intros t q []|].
    split; [intros t []|reflexivity].
  - cbn [foldl].
    destruct (decide (t ∈ seen)) as [Hin|Hin].
    + rewrite (add_original_seen _ _ _ _ Hin).
      destruct (IH wt seen Hinv) as (og & E & Hi & Hog & Hall & Hsub).
      exists og. split; [exact E|]. split; [exact Hi|].
      split; [|split; [|exact Hsub]].
      * intros t' q' H. apply Hog in H as [H1 H2]. split; [now right|exact H2].
      * intros t' [<-|Ht']; [simpl; now apply Hsub|now apply Hall].
    + rewrite (add_original_new _ _ _ _ Hin).
      destruct (IH _ _ (expand_inv_snoc wt seen t q Hinv Hin))
        as (og & E & Hi & Hog & Hall & Hsub).
      exists ((t, q) :: og). split; [rewrite E, <- app_assoc; reflexivity|].
      split; [exact Hi|]. split; [|split].
      * intros t' q' [H|H].
        -- inversion H; subst. split; [now left|exact Hin].
        -- apply Hog in H as [H1 H2]. split; [now right|set_solver].
      * intros t' [<-|Ht']; [simpl; apply Hsub; set_solver|now apply Hall].
      * set_solver.
Qed.

(** The second loop appends each new candidate with the weight of
    its position in the reply. *)
Lemma expanded_loop (l : list string) : forall k wt seen,
  expand_inv (wt, seen) ->
  (forall c, In c l -> Py.lower (Py.strip c) = c) ->
  exists ex,
    (foldl add_expanded (wt, seen) (zip (seq k (length l)) l)).1 = wt ++ ex
    /\ expand_inv (foldl add_expanded (wt, seen) (zip (seq k (length l)) l))
    /\ forall t q, In (t, q) ex ->
         exists i, l !! i = Some t
           /\ q = expansion_weight (k + i)
           /\ t <> "" /\ (t ∉ seen)
           /\ forall j, (j < i)%nat -> l !! j <> Some t.
Proof.
  induction l as [|c l IH]; intros k wt seen Hinv Hnorm.
  - exists []. split; [simpl; now rewrite app_nil_r|].
    split; [exact Hinv|]. intros t q [].
  - cbn [length seq zip zip_with foldl].
    assert (Hc : Py.lower (Py.strip c) = c) by (apply Hnorm; now left).
    assert (Hl : forall c', In c' l -> Py.lower (Py.strip c') = c')
      by (intros; apply Hnorm; now right).
    destruct (negb (c =? "")%string && bool_decide (c ∉ seen)) eqn:E.
    + apply andb_true_iff in E as [E1 E2].
      apply negb_true_iff, String.eqb_neq in E1.
      apply bool_decide_eq_true in E2.
      rewrite (add_expanded_new _ _ _ _ Hc E1 E2).
      destruct (IH (S k) _ _
                  (expand_inv_snoc wt seen c (expansion_weight k) Hinv E2) Hl)
        as (ex & E & Hi & Hex).
      eexists (_ :: ex). split; [rewrite E, <- app_assoc; reflexivity|].
      split; [exact Hi|].
      intros t q [H|H].
      * inversion H; subst. exists 0%nat.
        rewrite Nat.add_0_r. split; [reflexivity|]. split; [reflexivity|].
        split; [exact E1|]. split; [exact E2|]. intros j Hj. lia.
      * destruct (Hex t q H) as (i & Hli & Hq & Hne & Hseen & Hfirst).
        exists (S i). replace (k + S i)%nat with (S k + i)%nat by lia.
        split; [exact Hli|]. split; [exact Hq|]. split; [exact Hne|].
        split; [set_solver|].
        intros [|j] Hj; simpl; [intros [= ->]; set_solver|].
        apply Hfirst. lia.
    + assert (Hskip : c = "" \/ c ∈ seen).
      { apply andb_false_iff in E as [E|E].
        - left. now apply negb_false_iff, String.eqb_eq in E.
        - right. apply bool_decide_eq_false in E.
          destruct (decide (c ∈ seen)); tauto. }
      rewrite (add_expanded_skip _ _ _ _ Hc Hskip).
      destruct (IH (S k) wt seen Hinv Hl) as (ex & E' & Hi & Hex).
      exists ex. split; [exact E'|]. split; [exact Hi|].
      intros t q H.
      destruct (Hex t q H) as (i & Hli & Hq & Hne & Hseen & Hfirst).
      exists (S i). replace (k + S i)%nat with (S k + i)%nat by lia.
      split; [exact Hli|]. split; [exact Hq|]. split; [exact Hne|].
      split; [exact Hseen|].
      intros [|j] Hj; simpl; [|apply Hfirst; lia].
      intros [= ->]. destruct Hskip; contradiction.
Qed.
End ExpandLoops.

Lemma expand_query_success (w : VectorDB.World) (query content : string) :
  VectorDB.OPENAI_API_KEY w = true ->
  VectorDB.chat_completion w query = Some content ->
  VectorDB._expand_query w query
  = Py.slice_to
      (foldl VectorDB.add_expanded
         (foldl VectorDB.add_original ([], ∅)
            (map (fun t => (t, 2%Q)) (VectorDB._tokenize query)))
         (VectorDB.enumerate (candidates content))).1 20.
Proof.
  intros Hk Hc. unfold VectorDB._expand_query. rewrite Hk, Hc. reflexivity.
Qed.

Lemma expand_inv_empty : expand_inv ([], ∅).
Proof. split; [reflexivity|constructor]. Qed.

(** C6, as the code has it: when the collaborator replies, the result is
    the first 20 entries of the distinct original terms followed by the
    expansion terms, and an expansion term has weight
    [1 / (1 + 0.15 i)] where [i] is the position of its first occurrence
    among all the candidates of the reply, skipped ones included. *)
Theorem expansion_weight_by_reply_position (w : VectorDB.World)
    (query content : string) :
  VectorDB.OPENAI_API_KEY w = true ->
  VectorDB.chat_completion w query = Some content ->
  exists orig ex,
    VectorDB._expand_query w query = Py.slice_to (orig ++ ex) 20
    /\ (forall t q, In (t, q) orig ->
          q = 2%Q /\ In t (VectorDB._tokenize query))
    /\ (forall t q, In (t, q) ex ->
          exists i, candidates content !! i = Some t
            /\ q = expansion_weight i
            /\ (forall j, (j < i)%nat -> candidates content !! j <> Some t)
            /\ t <> "" /\ ~ In t (VectorDB._tokenize query)).
Proof.
  intros Hk Hc. rewrite (expand_query_success w query content Hk Hc).
  destruct (original_loop (map (fun t => (t, 2%Q)) (VectorDB._tokenize query))
              [] ∅ expand_inv_empty) as (og & E1 & Hi1 & Hog & Hall & _).
  destruct (foldl VectorDB.add_original _ _) as [wt1 seen1] eqn:Ef.
  simpl in E1. subst wt1.
  destruct (expanded_loop (candidates content) 0 og seen1 Hi1
              (candidates_normalised content)) as (ex & E2 & _ & Hex).
  exists og, ex. split; [unfold VectorDB.enumerate; now rewrite E2|].
  split.
  - intros t q H. apply Hog in H as [H _].
    apply in_map_iff in H as (t' & [= <- <-] & Ht). now split.
  - intros t q H.
    destruct (Hex t q H) as (i & Hl & Hq & Hne & Hseen & Hfirst).
    exists i. split; [exact Hl|]. split; [exact Hq|]. split; [exact Hfirst|].
    split; [exact Hne|]. intros Ht. apply Hseen. apply Hall.
    rewrite <- list_fmap_compose. simpl.
    apply in_map_iff. now exists t.
Qed.

Lemma expansion_weight_by_reply_position_witness :
  exists orig ex,
    VectorDB._expand_query Examples.world_expanding "crispr"
    = Py.slice_to (orig ++ ex) 20
    /\ (forall t q, In (t, q) orig ->
          q = 2%Q /\ In t (VectorDB._tokenize "crispr"))
    /\ (forall t q, In (t, q) ex ->
          exists i, candidates "crispr, cas9" !! i = Some t
            /\ q = expansion_weight i
            /\ (forall j, (j < i)%nat
                  -> candidates "crispr, cas9" !! j <> Some t)
            /\ t <> "" /\ ~ In t (VectorDB._tokenize "crispr")).
Proof.
  apply (expansion_weight_by_reply_position Examples.world_expanding
           "crispr" "crispr, cas9"); reflexivity.
Defined.

(** C6 as stated fails: the reply "crispr, cas9" to the query "crispr"
    adds one new term, "cas9"; it is the first newly added term but its
    weight is [1 / 1.15], the weight of position 1 of the reply, not
    [1 / (1 + 0.15 * 0) = 1]. *)
Lemma expansion_weight_counterexample :
  VectorDB._expand_query Examples.world_expanding "crispr"
  = [("crispr", 2%Q); ("cas9", expansion_weight 1)]
  /\ ~ (expansion_weight 1 == expansion_weight 0)%Q.
Proof. split; [reflexivity|]. vm_compute. discriminate. Qed.

(** When the collaborator replies, the result has at most 20 terms and
    no term twice. *)
Lemma expand_query_success_normalised (w : VectorDB.World)
    (query content : string) :
  VectorDB.OPENAI_API_KEY w = true ->
  VectorDB.chat_completion w query = Some content ->
  (length (VectorDB._expand_query w query) <= 20)%nat
  /\ NoDup (VectorDB._expand_query w query).*1.
Proof.
  intros Hk Hc. rewrite (expand_query_success w query content Hk Hc).
  destruct (original_loop (map (fun t => (t, 2%Q)) (VectorDB._tokenize query))
              [] ∅ expand_inv_empty) as (og & E1 & Hi1 & _).
  destruct (foldl VectorDB.add_original _ _) as [wt1 seen1] eqn:Ef.
  destruct (expanded_loop (candidates content) 0 wt1 seen1 Hi1
              (candidates_normalised content)) as (ex & _ & [_ Hnd] & _).
  unfold VectorDB.enumerate. split.
  - unfold Py.slice_to, Py.slice. rewrite length_take. 
    unfold Py.clamp. simpl. lia.
  - eapply sublist_NoDup; [exact Hnd|].
    unfold Py.slice_to. apply fmap_sublist, slice_sublist.
Qed.

(** C5 fails on the fall-back paths: without an API key a repeated
    query token is returned twice, and when the call fails a query of
    21 distinct tokens is returned with its 21 terms. *)
Theorem expand_query_fallback_not_normalised :
  VectorDB._expand_query Examples.world_offline "gene gene therapy"
  = [("gene", 2%Q); ("gene", 2%Q); ("therapy", 2%Q)]
  /\ ~ NoDup (VectorDB._expand_query Examples.world_offline
                "gene gene therapy").*1
  /\ length (VectorDB._expand_query Examples.world_failing
               Examples.twenty_one_tokens) = 21%nat.
Proof.
  split; [reflexivity|]. split; [|reflexivity].
  intros H. vm_compute in H. inversion H as [|x l Hx _]; subst.
  apply Hx. left.
Qed.

(** ** The lexical index *)

(** C2 fails on the code: [fit] resets [doc_freqs], [doc_lens] and
    [term_weights] but not [idf].  After a fit on "alpha beta" and a
    fit on "gamma delta" the idf vocabulary still holds "alpha" and
    "beta", which a fresh index fitted on "gamma delta" does not, and a
    document containing "alpha" is scored differently by the two. *)
Theorem fit_keeps_stale_idf (log : Q -> Q) :
  let refit := VectorDB.fit log
                 (VectorDB.fit log VectorDB.SPLADESearch_new
                    ["alpha beta"] ["a1"])
                 ["gamma delta"] ["b1"] in
  let fresh := VectorDB.fit log VectorDB.SPLADESearch_new
                 ["gamma delta"] ["b1"] in
  VectorDB.idf refit !! "alpha" = Some (log ((1 - 1 + (1 # 2)) / (1 + (1 # 2)) + 1)%Q)
  /\ VectorDB.idf fresh !! "alpha" = None
  /\ dom (VectorDB.idf refit) = {["alpha"; "beta"; "gamma"; "delta"]}
  /\ dom (VectorDB.idf fresh) = {["gamma"; "delta"]}
  /\ VectorDB.doc_freqs refit = VectorDB.doc_freqs fresh
  /\ refit <> fresh
  /\ (exists s s', VectorDB.score refit [("alpha", 1%Q)] 0 "alpha"
                   = Some (s, [("alpha", s')]))
  /\ VectorDB.score fresh [("alpha", 1%Q)] 0 "alpha" = Some (0%Q, []).
Proof.
  intros refit fresh.
  assert (H1 : VectorDB.idf refit !! "alpha" = Some (log ((1 - 1 + (1 # 2)) / (1 + (1 # 2)) + 1)%Q))
    by (vm_compute; reflexivity).
  assert (H2 : VectorDB.idf fresh !! "alpha" = None) by (vm_compute; reflexivity).
  split; [exact H1|]. split; [exact H2|].
  split; [vm_compute; reflexivity|]. split; [vm_compute; reflexivity|].
  split; [vm_compute; reflexivity|].
  split; [intros E; rewrite E, H2 in H1; discriminate H1|].
  split; [do 2 eexists; vm_compute; reflexivity|vm_compute; reflexivity].
Qed.

Lemma fit_empty_fresh (log : Q -> Q) (k1 b : Q) (doc_ids : list string) :
  let self := VectorDB.fit log (VectorDB.SPLADESearch_init k1 b) [] doc_ids in
  VectorDB.n_docs self = 0 /\ VectorDB.avg_doc_len self = 0%Q
  /\ VectorDB.idf self = ∅.
Proof.
  simpl. unfold VectorDB.fit. simpl.
  destruct doc_ids; simpl; rewrite map_fold_empty; auto.
Qed.

Section EmptyVocabulary.
Import VectorDB.
Variable self : SPLADESearch.
Hypothesis Hidf : idf self = ∅.

Lemma score_loop_empty_idf doc_len term_freqs doc_text query_terms :
  forall s ts,
  exists ts',
    score_loop self doc_len term_freqs doc_text query_terms s ts
    = Some (foldl (fun acc (tw : string * Q) =>
                     if is_phrase tw.1
                        && Py.contains tw.1 (Py.lower doc_text)
                     then (acc + tw.2 * 2)%Q else acc) s query_terms, ts')
    /\ ((forall t q, In (t, q) query_terms -> is_phrase t = false)
        -> ts' = ts).
Proof.
  induction query_terms as [|[t q] l IH]; intros s ts.
  - exists ts. split; [reflexivity|auto].
  - cbn [score_loop foldl fst snd].
    fold (is_phrase t). destruct (is_phrase t) eqn:Ep.
    + destruct (Py.contains t (Py.lower doc_text)); simpl andb; cbv iota.
      * destruct (IH (s + q * 2)%Q (dict_set t (q * 2)%Q ts)) as (ts' & E & _).
        exists ts'. split; [exact E|].
        intros H. specialize (H t q (or_introl eq_refl)). congruence.
      * destruct (IH s ts) as (ts' & E & _).
        exists ts'. split; [exact E|].
        intros H. specialize (H t q (or_introl eq_refl)). congruence.
    + rewrite Hidf, lookup_empty. simpl andb. cbv iota.
      destruct (IH s ts) as (ts' & E & Hts).
      exists ts'. split; [exact E|].
      intros H. apply Hts. intros t' q' Hin. apply (H t' q'). now right.
Qed.
End EmptyVocabulary.

(** C4, as the code has it: on an index of an empty corpus whose idf
    vocabulary is empty, as a new index is and stays when it is fitted
    on no document, [score] returns without dividing, and the total is
    the sum of the phrase bonuses [weight * 2] of the multi-word terms
    that occur in the lowercased text; for a query of single-token
    terms the total is 0 and no term is reported. *)
Theorem score_empty_vocabulary (self : VectorDB.SPLADESearch)
    (query_terms : list (string * Q)) (doc_idx : nat) (doc_text : string) :
  VectorDB.n_docs self = 0 ->
  VectorDB.idf self = ∅ ->
  exists term_scores,
    VectorDB.score self query_terms doc_idx doc_text
    = Some (phrase_total query_terms doc_text, term_scores)
    /\ ((forall t q, In (t, q) query_terms -> is_phrase t = false)
        -> phrase_total query_terms doc_text = 0%Q /\ term_scores = []).
Proof.
  intros _ Hidf. unfold VectorDB.score, phrase_total.
  destruct (score_loop_empty_idf self Hidf
              match VectorDB.doc_lens self !! doc_idx with
              | Some n => n
              | None => Py.len (VectorDB._tokenize doc_text)
              end
              (VectorDB.Counter (VectorDB._tokenize doc_text))
              doc_text query_terms 0%Q []) as (ts & E & Hts).
  exists ts. split; [exact E|].
  intros H. split; [|now apply Hts].
  clear E Hts. induction query_terms as [|[t q] l IH]; [reflexivity|].
  cbn [foldl fst snd]. rewrite (H t q (or_introl eq_refl)). simpl andb.
  cbv iota. apply IH. intros t' q' Hin. apply (H t' q'). now right.
Qed.

Lemma score_empty_vocabulary_witness :
  exists term_scores,
    VectorDB.score
      (VectorDB.fit Examples.log_approx VectorDB.SPLADESearch_new [] [])
      [("crispr", 2%Q); ("gene", 2%Q)] 0 "CRISPR gene editing"
    = Some (phrase_total [("crispr", 2%Q); ("gene", 2%Q)]
              "CRISPR gene editing", term_scores)
    /\ ((forall t q, In (t, q) [("crispr", 2%Q); ("gene", 2%Q)]
           -> is_phrase t = false)
        -> phrase_total [("crispr", 2%Q); ("gene", 2%Q)]
             "CRISPR gene editing" = 0%Q /\ term_scores = []).
Proof.
  apply (score_empty_vocabulary
           (VectorDB.fit Examples.log_approx VectorDB.SPLADESearch_new [] [])
           [("crispr", 2%Q); ("gene", 2%Q)] 0 "CRISPR gene editing");
    reflexivity.
Defined.

(** C4 as stated fails: a new index has no document, yet a phrase term
    that occurs in the text scores [weight * 2]. *)
Lemma score_empty_corpus_counterexample :
  VectorDB.n_docs VectorDB.SPLADESearch_new = 0
  /\ (VectorDB.avg_doc_len VectorDB.SPLADESearch_new == 0)%Q
  /\ VectorDB.score VectorDB.SPLADESearch_new [("stem cell", 1%Q)] 0
       "Stem cell therapy"
     = Some ((0 + 1 * 2)%Q, [("stem cell", (1 * 2)%Q)])
  /\ ~ (0 + 1 * 2 == 0)%Q.
Proof.
  split; [reflexivity|]. split; [reflexivity|]. split; [reflexivity|].
  vm_compute. discriminate.
Qed.

(** The guard [if denominator > 0] comes after the division: on an
    index fitted on a corpus and then on no document, the stale idf
    entry of "alpha" leads [score] to [doc_len / 0]. *)
Lemma score_stale_idf_divides_by_zero (log : Q -> Q) :
  let self := VectorDB.fit log
                (VectorDB.fit log VectorDB.SPLADESearch_new
                   ["alpha beta"] ["a1"]) [] [] in
  VectorDB.n_docs self = 0
  /\ VectorDB.score self [("alpha", 1%Q)] 0 "alpha beta" = None.
Proof. split; vm_compute; reflexivity. Qed.

(** ** What a second fit keeps *)

Section Refit.
Import VectorDB.

(** [fit] overwrites the idf of the terms of the new corpus and keeps
    every other entry of the old table. *)
Lemma fit_idf log self (documents doc_ids : list string) :
  idf (fit log self documents doc_ids)
  = (idf_of log (Py.len documents)
       <$> doc_freqs (fit log self documents doc_ids)) ∪ idf self.
Proof.
  unfold fit. destruct (foldl fit_step _ _) as [[lens freqs] weights].
  cbn [idf doc_freqs].
  apply (map_fold_weak_ind
           (fun r (m : gmap string Z) =>
              r = (idf_of log (Py.len documents) <$> m) ∪ idf self)).
  - now rewrite fmap_empty, (left_id_L ∅ (∪)).
  - intros term df m r Hm ->.
    now rewrite fmap_insert, insert_union_l.
Qed.

Lemma fit_fields log self (documents doc_ids : list string) :
  let fresh := fit log (SPLADESearch_init (k1 self) (b self))
                 documents doc_ids in
  let refit := fit log self documents doc_ids in
  k1 refit = k1 fresh /\ b refit = b fresh
  /\ doc_freqs refit = doc_freqs fresh /\ doc_lens refit = doc_lens fresh
  /\ avg_doc_len refit = avg_doc_len fresh /\ n_docs refit = n_docs fresh
  /\ term_weights refit = term_weights fresh.
Proof.
  unfold fit. destruct (foldl fit_step _ _) as [[lens freqs] weights].
  simpl. repeat split.
Qed.

(** A second fit equals a fresh one when the new corpus still holds
    every term of the old idf table, as when documents are only added. *)
Lemma fit_refit_when_vocabulary_kept log self (documents doc_ids : list string) :
  dom (idf self) ⊆ dom (doc_freqs (fit log self documents doc_ids)) ->
  fit log self documents doc_ids
  = fit log (SPLADESearch_init (k1 self) (b self)) documents doc_ids.
Proof.
  intros Hdom.
  pose proof (fit_idf log self documents doc_ids) as Hi.
  pose proof (fit_idf log (SPLADESearch_init (k1 self) (b self))
                documents doc_ids) as Hf.
  destruct (fit_fields log self documents doc_ids)
    as (E1 & E2 & E3 & E4 & E5 & E6 & E7).
  assert (Eidf : idf (fit log self documents doc_ids)
                 = idf (fit log (SPLADESearch_init (k1 self) (b self))
                          documents doc_ids)).
  { rewrite Hi, Hf, <- E3. cbn [idf SPLADESearch_init].
    rewrite (right_id_L ∅ (∪)).
    apply map_eq. intros term. rewrite lookup_union, lookup_fmap.
    destruct (doc_freqs (fit log self documents doc_ids) !! term) eqn:Ed;
      simpl.
    - now destruct (idf self !! term).
    - destruct (idf self !! term) eqn:Eo; [|reflexivity].
      exfalso. apply not_elem_of_dom in Ed. apply Ed, Hdom.
      apply elem_of_dom. eauto. }
  destruct (fit log self documents doc_ids),
    (fit log (SPLADESearch_init (k1 self) (b self)) documents doc_ids).
  simpl in *. congruence.
Qed.
End Refit.

(** ** The searches of a synced store return *)

Section Totality.
Import VectorDB.

Lemma fit_step_lens (l : list (string * string)) : forall lens freqs weights,
  (foldl fit_step (lens, freqs, weights) l).1.1
  = lens ++ map (fun d => Py.len (_tokenize d.2)) l.
Proof.
  induction l as [|[doc_id doc] l IH]; intros lens freqs weights.
  - simpl. now rewrite app_nil_r.
  - cbn [foldl]. unfold fit_step at 2. rewrite IH.
    rewrite <- app_assoc. reflexivity.
Qed.

Lemma fit_doc_lens log old (docs : list Document) :
  doc_lens (fit log old (map d_text docs) (map d_id docs))
  = map (fun d => Py.len (_tokenize (d_text d))) docs.
Proof.
  unfold fit.
  pose proof (fit_step_lens (zip (map d_id docs) (map d_text docs)) [] ∅ ∅)
    as H.
  destruct (foldl fit_step _ _) as [[lens freqs] weights]. simpl in *.
  rewrite H. clear H.
  induction docs as [|d docs IH]; [reflexivity|]. simpl. now rewrite IH.
Qed.

Lemma fit_avg_doc_len log old (documents doc_ids : list string) :
  avg_doc_len (fit log old documents doc_ids)
  = if 0 <? Py.len documents
    then (inject_Z (Num.sum (doc_lens (fit log old documents doc_ids)))
          / inject_Z (Py.len documents))%Q
    else 0%Q.
Proof.
  unfold fit. destruct (foldl fit_step _ _) as [[lens freqs] weights].
  reflexivity.
Qed.

Lemma foldl_add_shift (l : list Z) : forall a b,
  foldl Z.add (a + b) l = a + foldl Z.add b l.
Proof.
  induction l as [|x l IH]; intros a b; [reflexivity|].
  cbn [foldl]. rewrite <- Z.add_assoc. apply IH.
Qed.

Lemma sum_cons (x : Z) (l : list Z) : Num.sum (x :: l) = x + Num.sum l.
Proof.
  unfold Num.sum. cbn [foldl]. rewrite Z.add_comm. apply foldl_add_shift.
Qed.

Lemma sum_lookup_le (l : list Z) (i : nat) (v : Z) :
  Forall (fun x => 0 <= x) l -> l !! i = Some v -> v <= Num.sum l.
Proof.
  intros Hl. revert i. induction Hl as [|x l Hx Hl IH]; intros i Hi.
  - discriminate.
  - rewrite sum_cons.
    assert (Hs : 0 <= Num.sum l).
    { clear -Hl. induction Hl as [|y l Hy Hl IH]; [reflexivity|].
      rewrite sum_cons. lia. }
    destruct i as [|i]; simpl in Hi.
    + injection Hi as ->. lia.
    + specialize (IH i Hi). lia.
Qed.

Lemma Counter_lookup_nil (term : string) :
  default 0 (Counter [] !! term) = 0.
Proof. unfold Counter. simpl. now rewrite lookup_empty. Qed.

(** [score] raises only on a zero average document length. *)
Lemma score_loop_returns self doc_len term_freqs doc_text query_terms :
  Qeq_bool (avg_doc_len self) 0 = false
  \/ (forall term, default 0 (term_freqs !! term) = 0) ->
  forall s ts,
    is_Some (score_loop self doc_len term_freqs doc_text query_terms s ts).
Proof.
  intros H. induction query_terms as [|[t q] l IH]; intros s ts.
  - simpl. eauto.
  - cbn [score_loop].
    destruct (1 <? Py.len (Py.split t)).
    + destruct (Py.contains t (Py.lower doc_text)); apply IH.
    + destruct (idf self !! t); [|apply IH].
      destruct (default 0 (term_freqs !! t) =? 0) eqn:Etf; [apply IH|].
      destruct H as [H|H].
      * rewrite H. apply IH.
      * rewrite H in Etf. discriminate.
Qed.

Lemma score_synced log old (docs : list Document) (idx : nat) (d : Document)
    query_terms :
  docs !! idx = Some d ->
  is_Some (score (fit log old (map d_text docs) (map d_id docs))
             query_terms idx (d_text d)).
Proof.
  intros Hd. unfold score. apply score_loop_returns.
  destruct (_tokenize (d_text d)) as [|t0 ts0] eqn:Et.
  - right. apply Counter_lookup_nil.
  - left. rewrite fit_avg_doc_len, fit_doc_lens.
    assert (Hn : 0 < Py.len (map d_text docs)).
    { unfold Py.len. rewrite length_map.
      apply lookup_lt_Some in Hd. lia. }
    apply Z.ltb_lt in Hn as Hn'. rewrite Hn'.
    set (lens := map (fun d => Py.len (_tokenize (d_text d))) docs).
    assert (Hsum : 1 <= Num.sum lens).
    { apply Z.le_trans with (Py.len (_tokenize (d_text d))).
      - rewrite Et. unfold Py.len. simpl. lia.
      - apply (sum_lookup_le lens idx).
        + apply List.Forall_forall. intros x Hx.
          apply in_map_iff in Hx as (d' & <- & _). unfold Py.len. lia.
        + unfold lens. rewrite list_lookup_fmap, Hd. reflexivity. }
    destruct (Qeq_bool _ 0) eqn:E; [|reflexivity].
    apply Qeq_bool_iff in E. exfalso.
    assert (Hpos : (0 < inject_Z (Num.sum lens)
                        / inject_Z (Py.len (map d_text docs)))%Q).
    { apply Qlt_shift_div_l; [now apply inject_Z_pos|].
      rewrite Qmult_0_l. apply inject_Z_pos. lia. }
    rewrite E in Hpos. exact (Qlt_irrefl _ Hpos).
Qed.

Lemma search_loop_returns self query_terms n
    (docs : list (nat * (string * string))) :
  (forall idx doc doc_id, In (idx, (doc, doc_id)) docs ->
     (idx < n)%nat /\ is_Some (score self query_terms idx doc)) ->
  forall results, Forall (fun h => (h_idx h < n)%nat) results ->
  exists hits, search_loop self query_terms docs results = Some hits
               /\ Forall (fun h => (h_idx h < n)%nat) hits.
Proof.
  induction docs as [|[idx [doc doc_id]] docs IH]; intros Hdocs results Hr.
  - exists results. now split.
  - cbn [search_loop].
    destruct (Hdocs idx doc doc_id (or_introl eq_refl)) as [Hidx [[s ts] Hs]].
    rewrite Hs.
    assert (Hrest : forall idx doc doc_id, In (idx, (doc, doc_id)) docs ->
                      (idx < n)%nat /\ is_Some (score self query_terms idx doc))
      by (intros i' d' id' Hin; apply (Hdocs i' d' id'); now right).
    destruct (Num.Qltb 0 s); [|now apply IH].
    apply IH; [exact Hrest|].
    apply Forall_app. split; [exact Hr|]. now repeat constructor.
Qed.

Lemma enumerate_lookup {A} (l : list A) (i : nat) (x : A) :
  In (i, x) (enumerate l) -> l !! i = Some x.
Proof.
  unfold enumerate. intros H.
  apply list_elem_of_In, list_elem_of_lookup_1 in H as [j Hj].
  apply lookup_zip_with_Some in Hj as (a & b & [= -> ->] & Ha & Hb).
  apply lookup_seq in Ha as [-> _]. exact Hb.
Qed.

(** The sparse search of a synced store never raises. *)
Lemma search_sparse_returns w self query top_k :
  index_synced self -> is_Some (search_sparse w self query top_k).
Proof.
  intros Hsync. unfold search_sparse.
  destruct (documents self) as [|d0 ds] eqn:Ed; [eauto|]. rewrite <- Ed.
  destruct (_splade_fitted self) eqn:Ef; [|simpl; eauto]. simpl.
  destruct (Hsync Ef) as (log & old & ->).
  unfold search.
  assert (Hloop : exists hits,
             search_loop
               (fit log old (map d_text (documents self))
                  (map d_id (documents self)))
               (_expand_query w query)
               (enumerate (zip (map d_text (documents self))
                             (map d_id (documents self)))) [] = Some hits
             /\ Forall (fun h => (h_idx h < length (documents self))%nat) hits).
  { apply search_loop_returns; [|constructor].
    intros idx doc doc_id Hin. apply enumerate_lookup in Hin.
    apply lookup_zip_with_Some in Hin as (a & b & [= -> ->] & Ha & Hb).
    rewrite list_lookup_fmap in Ha.
    destruct (documents self !! idx) as [d|] eqn:Hd; [|discriminate].
    injection Ha as <-. split; [now apply lookup_lt_Some in Hd|].
    now apply score_synced. }
  destruct Hloop as (hits & -> & Hhits).
  destruct (mapM (sparse_result self) _) as [rs|] eqn:Em; [eauto|].
  exfalso.
  assert (Hs : is_Some (mapM (sparse_result self)
                          (Py.slice_to (Num.sort_desc h_score hits)
                             (Py.len (map d_text (documents self)))))).
  { apply mapM_is_Some, List.Forall_forall. intros h Hh.
    apply In_slice in Hh.
    apply (Permutation_in _ (Permutation_sym (sort_desc_perm _ _))) in Hh.
    rewrite List.Forall_forall in Hhits. specialize (Hhits h Hh).
    unfold compose, sparse_result.
    destruct (documents self !! h_idx h) eqn:El; [eauto|].
    apply lookup_ge_None in El. lia. }
  rewrite Em in Hs. destruct Hs as [? Hs]. discriminate Hs.
Qed.

Lemma search_hybrid_returns w self query top_k dense_weight :
  index_synced self ->
  is_Some (search_hybrid w self query top_k dense_weight).
Proof.
  intros Hsync. unfold search_hybrid, hybrid_combined.
  destruct (documents self) eqn:Ed; [eauto|]. rewrite <- Ed.
  destruct (search_sparse_returns w self query (Py.len (documents self)) Hsync)
    as [sr ->].
  eauto.
Qed.

Lemma rebuild_index_synced log self :
  index_synced self -> index_synced (_rebuild_sparse_index log self).
Proof.
  intros Hs. unfold _rebuild_sparse_index.
  destruct (documents self) eqn:Ed; [exact Hs|]. rewrite <- Ed.
  intros _. simpl. eauto.
Qed.

Lemma clear_index_synced self : index_synced (clear self).
Proof. intros H. discriminate H. Qed.
End Totality.

Lemma two_papers_synced : index_synced Examples.two_papers.
Proof.
  apply rebuild_index_synced. intros H. discriminate H.
Qed.

(** ** The fusion engine *)

(** C1, as the code has it: [search] has no validation; every mode
    string other than "dense" and "sparse" runs the hybrid search. *)
Theorem search_other_mode_is_hybrid (w : VectorDB.World)
    (self : VectorDB.HybridVectorStore) (query : string) (top_k : Z)
    (mode : string) (dense_weight : Q) :
  mode <> "dense" -> mode <> "sparse" ->
  VectorDB.store_search w self query top_k mode dense_weight
  = VectorDB.search_hybrid w self query top_k dense_weight.
Proof.
  intros Hd Hs. unfold VectorDB.store_search.
  apply String.eqb_neq in Hd, Hs. now rewrite Hd, Hs.
Qed.

Lemma search_other_mode_is_hybrid_witness :
  VectorDB.store_search Examples.world_offline Examples.two_papers
    "CRISPR gene editing" 5 "bogus" (7 # 10)
  = VectorDB.search_hybrid Examples.world_offline Examples.two_papers
      "CRISPR gene editing" 5 (7 # 10).
Proof.
  apply (search_other_mode_is_hybrid Examples.world_offline
           Examples.two_papers "CRISPR gene editing" 5 "bogus" (7 # 10));
    discriminate.
Defined.

(** C1 as stated fails: the mode "bogus" is none of the recognized
    modes, and the search is not rejected: it returns the hybrid result
    for paper "a". *)
Lemma search_unknown_mode_counterexample :
  ~ In "bogus" recognized_modes
  /\ exists r,
       VectorDB.store_search Examples.world_offline Examples.two_papers
         "CRISPR gene editing" 5 "bogus" (7 # 10) = Some [r]
       /\ VectorDB.r_id r = "a"
       /\ VectorDB.r_search_engine r = "hybrid".
Proof.
  split.
  - unfold recognized_modes. simpl. intros [H|[H|[H|[]]]]; discriminate H.
  - eexists. split; [vm_compute; reflexivity|]. split; reflexivity.
Qed.

Section Bounds.
Import VectorDB.

Lemma normalize_dense_unit (s : Q) : unit_interval (_normalize_dense_score s).
Proof.
  unfold unit_interval, _normalize_dense_score.
  set (x := if Num.Qltb s 0 then ((s + 1) / 2)%Q else s).
  destruct (min_cases 1 x) as [[-> H]|[-> H]];
    destruct (max_cases 0 x) as [[E H']|[E H']];
    destruct (max_cases 0 1) as [[E1 H1]|[E1 H1]];
    try rewrite E; try rewrite E1; lra.
Qed.

Lemma dense_result_bounded id text (s : Q) metadata engine :
  bounded_result (dense_result id text (_normalize_dense_score s)
                    metadata engine).
Proof.
  pose proof (round_unit_interval _ 4 (normalize_dense_unit s)) as H.
  split; [exact H|]. eexists. split; [reflexivity|exact H].
Qed.

Lemma normalize_sparse_nonneg (s : Q) : (0 <= _normalize_sparse_score s)%Q.
Proof.
  unfold _normalize_sparse_score.
  destruct (Qle_bool s 0) eqn:E; [apply Qle_refl|].
  assert (Hs : (0 < s)%Q).
  { apply Qnot_le_lt. intros H. apply Qle_bool_iff in H. congruence. }
  apply round_nonneg.
  destruct (min_cases (s * 3) 30) as [[-> H]|[-> H]]; lra.
Qed.

(** Every result of the dense search is built by [dense_result] from
    a normalized score. *)
Lemma search_dense_forall (P : Result -> Prop) w self query top_k :
  (forall id text s metadata engine,
     P (dense_result id text (_normalize_dense_score s) metadata engine)) ->
  Forall P (search_dense w self query top_k).
Proof.
  intros HP.
  assert (Hmem : forall qe k, Forall P (search_dense_in_memory w self qe k)).
  { intros qe k. unfold search_dense_in_memory.
    apply List.Forall_forall. intros r Hr.
    apply In_slice in Hr.
    apply (Permutation_in _ (Permutation_sym (sort_desc_perm _ _))) in Hr.
    apply list_elem_of_In, list_elem_of_omap in Hr as (d & _ & Hd).
    destruct (d_embedding d); [|discriminate].
    injection Hd as <-. apply HP. }
  unfold search_dense.
  destruct (documents self); [constructor|].
  destruct (get_embedding w query) as [qe|]; [|constructor].
  destruct (use_qdrant self); [|apply Hmem].
  destruct (query_points w qe top_k) as [points|]; [|apply Hmem].
  apply List.Forall_forall. intros r Hr.
  apply in_map_iff in Hr as (p & <- & _). apply HP.
Qed.

Lemma search_dense_bounded w self query top_k :
  Forall bounded_result (search_dense w self query top_k).
Proof. apply search_dense_forall. apply dense_result_bounded. Qed.

(** An entry of the dict built from a result list comes from a result. *)
Lemma dict_by_id_lookup {V} (f : Result -> option V) (results : list Result)
    (k : string) (v : V) :
  dict_by_id f results !! k = Some v ->
  exists r, In r results /\ f r = Some v /\ r_id r = k.
Proof.
  unfold dict_by_id.
  assert (H : forall m : gmap string V,
             foldl (fun m r => match f r with
                               | Some v => <[r_id r := v]> m
                               | None => m
                               end) m results !! k = Some v ->
             m !! k = Some v
             \/ exists r, In r results /\ f r = Some v /\ r_id r = k).
  { induction results as [|r l IH]; intros m Hm; [now left|].
    cbn [foldl] in Hm. apply IH in Hm as [Hm|(r' & Hin & Hf & Hid)].
    - destruct (f r) as [v'|] eqn:Ef; [|now left].
      destruct (decide (r_id r = k)) as [<-|Hne].
      + rewrite lookup_insert_eq in Hm. injection Hm as ->.
        right. exists r. split; [now left|]. now split.
      + rewrite lookup_insert_ne in Hm by exact Hne. now left.
    - right. exists r'. split; [now right|]. now split. }
  intros Hk. apply H in Hk as [Hk|Hk]; [|exact Hk].
  rewrite lookup_empty in Hk. discriminate.
Qed.

Lemma search_sparse_nonneg w self query top_k results :
  search_sparse w self query top_k = Some results ->
  forall r s, In r results -> r_sparse_score r = Some s -> (0 <= s)%Q.
Proof.
  unfold search_sparse.
  destruct (documents self) eqn:Ed; [intros [= <-] r s []|].
  rewrite <- Ed. clear Ed.
  destruct (negb (_splade_fitted self)); [intros [= <-] r s []|].
  destruct (search w (splade self) query _ _ _) as [hits|]; [|discriminate].
  destruct (mapM (sparse_result self) hits) as [rs|] eqn:Em; [|discriminate].
  intros [= <-] r s Hr Hs. apply In_slice in Hr.
  apply mapM_Some in Em.
  apply list_elem_of_In, list_elem_of_lookup_1 in Hr as [i Hi].
  destruct (Forall2_lookup_r _ _ _ _ _ Em Hi) as (h & _ & Hh).
  unfold sparse_result in Hh.
  destruct (documents self !! h_idx h); [|discriminate].
  injection Hh as <-. simpl in Hs. injection Hs as <-.
  apply normalize_sparse_nonneg.
Qed.
End Bounds.

Section HybridBounds.
Import VectorDB.

Lemma default_unit (o : option Q) :
  (forall v, o = Some v -> unit_interval v) -> unit_interval (default 0%Q o).
Proof.
  intros H. destruct o as [v|]; simpl; [now apply H|].
  split; [apply Qle_refl|discriminate].
Qed.

Lemma fused_unit (d s dw : Q) (boost : bool) :
  unit_interval d -> unit_interval s -> unit_interval dw ->
  unit_interval
    (if boost
     then Num.min (d * dw + s * (1 - dw) + (1 # 10) * Num.min d s) 1
     else d * dw + s * (1 - dw))%Q.
Proof.
  unfold unit_interval. intros Hd Hs Hw.
  destruct boost; [|nra].
  destruct (min_cases d s) as [[-> H]|[-> H]];
    match goal with
    | |- (0 <= Num.min ?x 1 <= 1)%Q =>
        destruct (min_cases x 1) as [[-> H']|[-> H']]
    end; nra.
Qed.

Lemma combine_bounded self dense_results dense_scores sparse_scores
    normalized matched dw (doc_id : string) (r : Result) :
  unit_interval dw ->
  (forall v, dense_scores !! doc_id = Some v -> unit_interval v) ->
  (forall v, normalized !! doc_id = Some v -> unit_interval v) ->
  combine self dense_results dense_scores sparse_scores normalized matched
    dw (1 - dw)%Q doc_id = Some r ->
  bounded_result r.
Proof.
  intros Hw Hd Hn. unfold combine.
  destruct (match first_where _ (documents self) with
            | Some d => _ | None => _ end) as [[text metadata]|];
    [|discriminate].
  intros [= <-]. unfold bounded_result. simpl.
  pose proof (default_unit _ Hd) as Hd'.
  pose proof (default_unit _ Hn) as Hn'.
  split.
  - apply round_unit_interval. apply fused_unit; assumption.
  - eexists. split; [reflexivity|]. now apply round_unit_interval.
Qed.

Lemma normalized_unit (m : gmap string Q) (doc_id : string) (v : Q) :
  (forall k s, m !! k = Some s -> (0 <= s)%Q) ->
  ((fun score : Q =>
      if Num.Qltb 0 (match (map_to_list m).*2 with
                     | [] => 1%Q
                     | x :: l => Num.max_list x l
                     end)
      then (score / match (map_to_list m).*2 with
                    | [] => 1%Q
                    | x :: l => Num.max_list x l
                    end)%Q
      else 0%Q) <$> m) !! doc_id = Some v ->
  unit_interval v.
Proof.
  intros Hnn. rewrite lookup_fmap.
  destruct (m !! doc_id) as [s|] eqn:Es; [|discriminate].
  simpl. intros [= <-].
  assert (Hin : In s (map_to_list m).*2).
  { apply list_elem_of_In, list_elem_of_fmap. exists (doc_id, s).
    split; [reflexivity|]. now apply elem_of_map_to_list. }
  pose proof (Hnn _ _ Es) as Hs.
  destruct ((map_to_list m).*2) as [|x l]; [destruct Hin|].
  destruct (max_list_ge l x) as [Hx Hl].
  assert (Hle : (s <= Num.max_list x l)%Q).
  { destruct Hin as [<-|Hin]; [exact Hx|now apply Hl]. }
  destruct (Num.Qltb 0 (Num.max_list x l)) eqn:E.
  - apply Qltb_lt in E. split.
    + apply Qle_shift_div_l; [exact E|]. lra.
    + apply Qle_shift_div_r; [exact E|]. lra.
  - split; [apply Qle_refl|discriminate].
Qed.

Lemma hybrid_combined_bounded w self query dw combined :
  unit_interval dw ->
  hybrid_combined w self query dw = Some combined ->
  Forall bounded_result combined.
Proof.
  intros Hw. unfold hybrid_combined.
  destruct (search_sparse w self query _) as [sparse_results|] eqn:Es;
    [|discriminate].
  intros [= <-]. apply List.Forall_forall. intros r Hr.
  apply list_elem_of_In, list_elem_of_omap in Hr as (doc_id & _ & Hc).
  eapply combine_bounded; [exact Hw| | |exact Hc].
  - intros v Hv. apply dict_by_id_lookup in Hv as (r' & Hin & Hf & _).
    pose proof (search_dense_bounded w self query (Py.len (documents self)))
      as Hb.
    rewrite List.Forall_forall in Hb.
    destruct (Hb r' Hin) as [_ (d & Hd & Hu)]. congruence.
  - intros v. apply normalized_unit.
    intros k s Hk. apply dict_by_id_lookup in Hk as (r' & Hin & Hf & _).
    eapply search_sparse_nonneg; eauto.
Qed.
End HybridBounds.

(** C3: with a dense weight in [[0, 1]], every result of the hybrid
    search has its dense score and its fused score in [[0, 1]], and
    every result of the dense search has its score, which is its dense
    score, in [[0, 1]].  The hybrid search of a store whose index is
    synced with its documents does return. *)
Theorem search_scores_bounded (w : VectorDB.World)
    (self : VectorDB.HybridVectorStore) (query : string) (top_k : Z)
    (dense_weight : Q) :
  (0 <= dense_weight <= 1)%Q ->
  (index_synced self ->
   is_Some (VectorDB.search_hybrid w self query top_k dense_weight))
  /\ (forall results,
       VectorDB.search_hybrid w self query top_k dense_weight = Some results ->
       Forall bounded_result results)
  /\ Forall bounded_result (VectorDB.search_dense w self query top_k)
  /\ Forall (fun r => VectorDB.r_dense_score r = Some (VectorDB.r_score r))
       (VectorDB.search_dense w self query top_k).
Proof.
  intros Hw. split; [apply search_hybrid_returns|]. split; [|split].
  - intros results. unfold VectorDB.search_hybrid.
    destruct (VectorDB.documents self); [intros [= <-]; constructor|].
    destruct (VectorDB.hybrid_combined w self query dense_weight)
      as [combined|] eqn:Ec; [|discriminate].
    intros [= <-]. apply List.Forall_forall. intros r Hr.
    apply In_slice in Hr.
    apply (Permutation_in _ (Permutation_sym (sort_desc_perm _ _))) in Hr.
    pose proof (hybrid_combined_bounded _ _ _ _ _ Hw Ec) as Hb.
    rewrite List.Forall_forall in Hb. now apply Hb.
  - apply search_dense_bounded.
  - apply search_dense_forall. reflexivity.
Qed.

Lemma search_scores_bounded_witness :
  (index_synced Examples.two_papers ->
   is_Some (VectorDB.search_hybrid Examples.world_forward Examples.two_papers
              "CRISPR gene editing" 5 (7 # 10)))
  /\ (forall results,
       VectorDB.search_hybrid Examples.world_forward Examples.two_papers
         "CRISPR gene editing" 5 (7 # 10) = Some results ->
       Forall bounded_result results)
  /\ Forall bounded_result
       (VectorDB.search_dense Examples.world_forward Examples.two_papers
          "CRISPR gene editing" 5)
  /\ Forall (fun r => VectorDB.r_dense_score r = Some (VectorDB.r_score r))
       (VectorDB.search_dense Examples.world_forward Examples.two_papers
          "CRISPR gene editing" 5).
Proof.
  apply (search_scores_bounded Examples.world_forward Examples.two_papers
           "CRISPR gene editing" 5 (7 # 10)).
  split; [vm_compute; discriminate|vm_compute; discriminate].
Defined.


(** ** Ties and degradation of the hybrid search *)

Lemma omap_key_sublist {A B} (f : A -> option B) (g : B -> A) (l : list A) :
  (forall x y, f x = Some y -> g y = x) ->
  g <$> omap f l `sublist_of` l.
Proof.
  intros H. induction l as [|x l IH]; simpl; [constructor|].
  destruct (f x) as [y|] eqn:E; simpl.
  - rewrite (H x y E). now constructor.
  - now constructor.
Qed.

Lemma omap_ext_in {A B} (f g : A -> option B) (l : list A) :
  (forall x, In x l -> f x = g x) -> omap f l = omap g l.
Proof.
  intros H. induction l as [|x l IH]; [reflexivity|].
  change (omap f (x :: l))
    with (match f x with Some y => y :: omap f l | None => omap f l end).
  change (omap g (x :: l))
    with (match g x with Some y => y :: omap g l | None => omap g l end).
  rewrite (H x (or_introl eq_refl)), IH; [reflexivity|].
  intros y Hy. apply H. now right.
Qed.

Lemma combine_id self dense_results dense_scores sparse_scores normalized
    matched dw sw (doc_id : string) (r : VectorDB.Result) :
  VectorDB.combine self dense_results dense_scores sparse_scores normalized
    matched dw sw doc_id = Some r ->
  VectorDB.r_id r = doc_id.
Proof.
  unfold VectorDB.combine.
  destruct (match VectorDB.first_where _ (VectorDB.documents self) with
            | Some d => _ | None => _ end) as [[text metadata]|];
    [|discriminate].
  now intros [= <-].
Qed.

(** C7, as the code has it: the results are combined in the order in
    which the set of ids is iterated, then sorted by decreasing fused
    score by a stable sort and truncated; results with equal fused
    scores keep the order of that iteration. *)
Theorem hybrid_ties_keep_iteration_order (w : VectorDB.World)
    (self : VectorDB.HybridVectorStore) (query : string) (top_k : Z)
    (dense_weight : Q) (combined : list VectorDB.Result) :
  VectorDB.documents self <> [] ->
  VectorDB.hybrid_combined w self query dense_weight = Some combined ->
  exists (ids : gset string) (sorted : list VectorDB.Result),
    VectorDB.r_id <$> combined `sublist_of` VectorDB.set_iter w ids
    /\ VectorDB.search_hybrid w self query top_k dense_weight
       = Some (Py.slice_to sorted top_k)
    /\ Permutation combined sorted
    /\ StronglySorted (ge_key VectorDB.r_score) sorted
    /\ forall s, with_score s sorted = with_score s combined.
Proof.
  intros Hdocs Hc.
  assert (Hids : exists ids : gset string,
             VectorDB.r_id <$> combined `sublist_of` VectorDB.set_iter w ids).
  { unfold VectorDB.hybrid_combined in Hc.
    destruct (VectorDB.search_sparse w self query _) as [sr|]; [|discriminate].
    injection Hc as <-. eexists. apply omap_key_sublist.
    intros x y. apply combine_id. }
  destruct Hids as [ids Hids].
  exists ids, (Num.sort_desc VectorDB.r_score combined).
  split; [exact Hids|]. split.
  - unfold VectorDB.search_hybrid. rewrite Hc.
    destruct (VectorDB.documents self); [contradiction|reflexivity].
  - split; [apply sort_desc_perm|]. split; [apply sort_desc_sorted|].
    intros s. apply sort_desc_stable.
Qed.

Lemma hybrid_ties_keep_iteration_order_witness :
  exists (ids : gset string) (sorted : list VectorDB.Result),
    VectorDB.r_id <$> Examples.tie_combined
      `sublist_of` VectorDB.set_iter Examples.world_backward ids
    /\ VectorDB.search_hybrid Examples.world_backward Examples.two_papers
         "xyzzy" 5 (7 # 10) = Some (Py.slice_to sorted 5)
    /\ Permutation Examples.tie_combined sorted
    /\ StronglySorted (ge_key VectorDB.r_score) sorted
    /\ forall s, with_score s sorted = with_score s Examples.tie_combined.
Proof.
  apply (hybrid_ties_keep_iteration_order Examples.world_backward
           Examples.two_papers "xyzzy" 5 (7 # 10) Examples.tie_combined);
    [discriminate|vm_compute; reflexivity].
Defined.

(** C7 as stated fails: the two worlds answer every collaborator call
    alike and enumerate every set validly, in opposite orders; for the
    same query on the same store the two papers tie at 0.35 and come
    out in opposite orders, in the second world against the order in
    which they were added. *)
Lemma hybrid_tie_order_counterexample :
  set_iter_valid Examples.world_forward
  /\ set_iter_valid Examples.world_backward
  /\ map VectorDB.d_id (VectorDB.documents Examples.two_papers) = ["a"; "b"]
  /\ option_map (map (fun r => (VectorDB.r_id r, VectorDB.r_score r)))
       (VectorDB.search_hybrid Examples.world_forward Examples.two_papers
          "xyzzy" 5 (7 # 10))
     = Some [("a", Py.round (35 # 100) 4); ("b", Py.round (35 # 100) 4)]
  /\ option_map (map (fun r => (VectorDB.r_id r, VectorDB.r_score r)))
       (VectorDB.search_hybrid Examples.world_backward Examples.two_papers
          "xyzzy" 5 (7 # 10))
     = Some [("b", Py.round (35 # 100) 4); ("a", Py.round (35 # 100) 4)].
Proof.
  split; [intros s; reflexivity|].
  split; [intros s; apply Permutation_sym, Permutation_rev|].
  split; [reflexivity|]. split; vm_compute; reflexivity.
Qed.

Lemma slice_nil {A} (a b : Z) : Py.slice (@nil A) a b = [].
Proof. unfold Py.slice. now rewrite skipn_nil, firstn_nil. Qed.

Section Degradation.
Import VectorDB.
Variables (w : World) (self : HybridVectorStore).
Hypothesis Hiter : set_iter_valid w.
Hypothesis Hemb : forall text, get_embedding w text = None.

Lemma search_dense_unavailable query top_k :
  search_dense w self query top_k = [].
Proof.
  unfold search_dense. destruct (documents self); [reflexivity|].
  now rewrite Hemb.
Qed.

Lemma set_iter_elem (s : gset string) (x : string) :
  In x (set_iter w s) -> x ∈ s.
Proof.
  intros H. apply (Permutation_in _ (Hiter s)) in H.
  now apply list_elem_of_In, elem_of_elements in H.
Qed.

(** With no dense result the loop body of [search_hybrid] fuses the
    sparse score alone. *)
Lemma combine_sparse_only (scores : gmap string Q)
    (matched : gmap string (list string)) (dw : Q) (doc_id : string) (s : Q) :
  scores !! doc_id = Some s ->
  let batch_max := match (map_to_list scores).*2 with
                   | [] => 1%Q
                   | x :: l => Num.max_list x l
                   end in
  let g := fun score : Q =>
             if Num.Qltb 0 batch_max then (score / batch_max)%Q else 0%Q in
  combine self [] ∅ scores (g <$> scores) matched dw (1 - dw)%Q doc_id
  = match List.find (fun d => String.eqb (d_id d) doc_id) (documents self)
    with
    | Some d =>
        Some {| r_id := doc_id; r_text := d_text d;
                r_dense_score := Some (Py.round 0 4);
                r_sparse_score := Some (Py.round s 2);
                r_score := Py.round (g s * (1 - dw))%Q 4;
                r_metadata := d_metadata d;
                r_matched_terms := default [] (matched !! doc_id);
                r_search_engine := "hybrid" |}
    | None => None
    end.
Proof.
  intros Hs batch_max g. unfold combine, first_where.
  destruct (List.find _ (documents self)) as [d|]; [|reflexivity].
  rewrite lookup_empty, lookup_fmap, Hs. simpl.
  do 2 f_equal. apply round_proper. ring.
Qed.
End Degradation.

Lemma sparse_only_fused_nil (w : VectorDB.World)
    (self : VectorDB.HybridVectorStore) (dw : Q) (top_k : Z) :
  set_iter_valid w -> sparse_only_fused w self [] dw top_k = [].
Proof.
  intros Hiter. unfold sparse_only_fused.
  change (VectorDB.dict_by_id VectorDB.r_sparse_score [])
    with (∅ : gmap string Q).
  rewrite dom_empty_L.
  assert (E : VectorDB.set_iter w ∅ = []).
  { apply Permutation_nil, Permutation_sym.
    rewrite (Hiter ∅). now rewrite elements_empty. }
  rewrite E. apply slice_nil.
Qed.

(** C8: when the embedding collaborator returns null for every text,
    the dense search returns the empty list and the hybrid search
    returns exactly the sparse-only fusion of the sparse results: dense
    component 0 for every chunk and no synergy boost. *)
Theorem embedding_unavailable_degrades (w : VectorDB.World)
    (self : VectorDB.HybridVectorStore) (query : string) (top_k : Z)
    (dense_weight : Q) :
  set_iter_valid w ->
  (forall text, VectorDB.get_embedding w text = None) ->
  VectorDB.store_search w self query top_k "dense" dense_weight = Some []
  /\ VectorDB.store_search w self query top_k "hybrid" dense_weight
     = option_map
         (fun sparse_results =>
            sparse_only_fused w self sparse_results dense_weight top_k)
         (VectorDB.search_sparse w self query
            (Py.len (VectorDB.documents self))).
Proof.
  intros Hiter Hemb. split.
  - unfold VectorDB.store_search. simpl.
    now rewrite (search_dense_unavailable w self Hemb).
  - unfold VectorDB.store_search. simpl.
    unfold VectorDB.search_hybrid, VectorDB.hybrid_combined.
    rewrite (search_dense_unavailable w self Hemb).
    destruct (VectorDB.documents self) as [|d0 docs] eqn:Ed.
    + unfold VectorDB.search_sparse. rewrite Ed. cbn [option_map].
      now rewrite (sparse_only_fused_nil w self _ _ Hiter).
    + rewrite <- Ed.
      destruct (VectorDB.search_sparse w self query _) as [sr|];
        [|reflexivity].
      simpl. f_equal. unfold sparse_only_fused. f_equal. f_equal.
      change (VectorDB.dict_by_id VectorDB.r_dense_score [])
        with (∅ : gmap string Q).
      rewrite dom_empty_L, (left_id_L ∅ (∪)).
      apply omap_ext_in. intros doc_id Hin.
      apply (set_iter_elem w Hiter), elem_of_dom in Hin as [s Hs].
      rewrite (combine_sparse_only self _ _ _ _ _ Hs), Hs.
      destruct (List.find _ (VectorDB.documents self)); reflexivity.
Qed.

Lemma embedding_unavailable_degrades_witness :
  VectorDB.store_search Examples.world_offline Examples.two_papers
    "crispr finance" 5 "dense" (7 # 10) = Some []
  /\ VectorDB.store_search Examples.world_offline Examples.two_papers
       "crispr finance" 5 "hybrid" (7 # 10)
     = option_map
         (fun sparse_results =>
            sparse_only_fused Examples.world_offline Examples.two_papers
              sparse_results (7 # 10) 5)
         (VectorDB.search_sparse Examples.world_offline Examples.two_papers
            "crispr finance"
            (Py.len (VectorDB.documents Examples.two_papers))).
Proof.
  apply (embedding_unavailable_degrades Examples.world_offline
           Examples.two_papers "crispr finance" 5 (7 # 10)).
  - intros s. reflexivity.
  - intros text. reflexivity.
Defined.

(** ** Tokens, cleaned text and token estimates *)

Lemma Forall_sublist {A} (P : A -> Prop) (l k : list A) :
  l `sublist_of` k -> Forall P k -> Forall P l.
Proof.
  intros Hs Hk. apply List.Forall_forall. intros x Hx.
  rewrite List.Forall_forall in Hk. apply Hk.
  apply list_elem_of_In. eapply elem_of_sublist; [|exact Hs].
  now apply list_elem_of_In.
Qed.

(** The pieces of [split] are made of the non-blank characters. *)
Lemma split_ws_chars (P : ascii -> Prop) (l : list ascii) :
  (forall c, In c l -> Py.isspace c = false -> P c) ->
  forall cur, Forall P cur ->
  forall t, In t (Py.split_ws cur l) -> Forall P (Py.chars t).
Proof.
  induction l as [|c l IH]; intros Hl cur Hcur t Ht.
  - simpl in Ht. destruct cur as [|a cur]; [destruct Ht|].
    destruct Ht as [<-|[]]. rewrite chars_str. now apply List.Forall_rev.
  - assert (Hl' : forall c', In c' l -> Py.isspace c' = false -> P c')
      by (intros c' Hc'; apply Hl; now right).
    simpl in Ht. destruct (Py.isspace c) eqn:Ec.
    + destruct cur as [|a cur].
      * exact (IH Hl' [] (List.Forall_nil P) t Ht).
      * destruct Ht as [<-|Ht].
        -- rewrite chars_str. now apply List.Forall_rev.
        -- exact (IH Hl' [] (List.Forall_nil P) t Ht).
    + apply (IH Hl' (c :: cur)); [|exact Ht].
      constructor; [|exact Hcur]. apply Hl; [now left|exact Ec].
Qed.

Lemma tokenize_char (c : ascii) :
  let x := if Py.isword (Py.lower_char c) || Py.isspace (Py.lower_char c)
              || Ascii.eqb (Py.lower_char c) "-"%char
           then Py.lower_char c else " "%char in
  Py.isspace x = false -> token_char x = true.
Proof.
  destruct c as [[] [] [] [] [] [] [] []]; vm_compute;
    intros H; try reflexivity; discriminate H.
Qed.



(** Deleting matches keeps a subsequence of the text. *)
Lemma re_sub_delete_sublist (m : list ascii -> option nat) (l : list ascii) :
  forall skip, Py.re_sub_aux m [] skip l `sublist_of` l.
Proof.
  induction l as [|c l IH]; intros skip; simpl; [constructor|].
  destruct skip as [|k]; [|constructor; apply IH].
  destruct (m (c :: l)) as [[|k]|]; simpl;
    solve [constructor; apply IH].
Qed.

Lemma re_sub_blanks_plain (l : list ascii) : forall skip,
  Forall plain_blank
    (Py.re_sub_aux Chunker.match_blanks (Py.chars " ") skip l).
Proof.
  induction l as [|c l IH]; intros skip; simpl; [constructor|].
  destruct skip as [|k]; [|apply IH].
  unfold Chunker.match_blanks at 1. simpl Py.span.
  destruct (Py.isspace c) eqn:Ec; simpl.
  - constructor; [intros _; reflexivity|apply IH].
  - constructor; [intros H; congruence|apply IH].
Qed.

Lemma Forall_lstrip (P : ascii -> Prop) (l : list ascii) :
  Forall P l -> Forall P (Py.lstrip_chars l).
Proof.
  induction 1 as [|c l Hc Hl IH]; simpl; [constructor|].
  destruct (Py.isspace c); [exact IH|now constructor].
Qed.

Lemma Forall_strip_chars (P : ascii -> Prop) (l : list ascii) :
  Forall P l -> Forall P (strip_chars l).
Proof.
  intros H. unfold strip_chars.
  apply List.Forall_rev, Forall_lstrip, List.Forall_rev, Forall_lstrip, H.
Qed.

Lemma clean_text_head (text : string) :
  stripped_head (Py.chars (Chunker.clean_text text)).
Proof.
  unfold Chunker.clean_text.
  destruct (text =? "")%string; [constructor|].
  rewrite chars_strip. apply strip_chars_head.
Qed.

(** X2: in a cleaned text every blank character is a plain space, and
    the text neither starts nor ends with one. *)
Theorem clean_text_blanks (text : string) :
  Forall plain_blank (Py.chars (Chunker.clean_text text))
  /\ stripped_head (Py.chars (Chunker.clean_text text))
  /\ stripped_head (rev (Py.chars (Chunker.clean_text text))).
Proof.
  unfold Chunker.clean_text.
  destruct (text =? "")%string; [repeat split; constructor|].
  rewrite chars_strip. split; [|split].
  - apply Forall_strip_chars. unfold Py.re_sub at 1. rewrite chars_str.
    eapply Forall_sublist; [apply re_sub_delete_sublist|].
    unfold Py.re_sub at 1. rewrite chars_str. apply re_sub_blanks_plain.
  - apply strip_chars_head.
  - unfold strip_chars. rewrite rev_involutive. apply lstrip_head.
Qed.

(** X3: the estimate is 1.3 tokens per word, rounded down: at least the
    number of words and at most 1.3 times it. *)
Theorem estimate_tokens_bounds (text : string) :
  let words := Py.len (Py.split text) in
  let tokens := Chunker.estimate_tokens text in
  words <= tokens /\ 10 * tokens <= 13 * words < 10 * (tokens + 1).
Proof.
  unfold Chunker.estimate_tokens, Py.int_of, Py.len.
  set (n := Z.of_nat (length (Py.split text))).
  assert (Hn : 0 <= n) by (unfold n; lia).
  cbn [Qnum Qden Qmult inject_Z]. change (Z.pos (1 * 10)) with 10.
  rewrite Z.quot_div_nonneg by lia.
  pose proof (Z.div_mod (n * 13) 10 ltac:(lia)) as Hd.
  pose proof (Z.mod_pos_bound (n * 13) 10 ltac:(lia)) as Hm.
  lia.
Qed.

(** ** Words and sliding windows *)

Lemma str_chars (s : string) : Py.str (Py.chars s) = s.
Proof. apply string_of_list_ascii_of_string. Qed.

Lemma chars_append (a b : string) :
  Py.chars (a +:+ b) = Py.chars a ++ Py.chars b.
Proof. induction a as [|c a IH]; simpl; [reflexivity|now rewrite <- IH]. Qed.

Lemma str_nil (l : list ascii) : Py.str l = "" -> l = [].
Proof. intros H. rewrite <- (chars_str l), H. reflexivity. Qed.

Lemma split_ws_nonempty (l : list ascii) : forall cur t,
  In t (Py.split_ws cur l) -> t <> "".
Proof.
  assert (Hcur : forall a cur, Py.str (rev (a :: cur)) <> "").
  { intros a cur H. apply str_nil in H. simpl in H.
    now destruct (rev cur). }
  induction l as [|c l IH]; intros cur t Ht; simpl in Ht.
  - destruct cur as [|a cur]; [destruct Ht|].
    destruct Ht as [<-|[]]. apply Hcur.
  - destruct (Py.isspace c).
    + destruct cur as [|a cur]; [now apply (IH [])|].
      destruct Ht as [<-|Ht]; [apply Hcur|now apply (IH [])].
    + now apply (IH (c :: cur)).
Qed.

(** The pieces of [split] are words. *)
Lemma split_words (s : string) : Forall is_word (Py.split s).
Proof.
  apply List.Forall_forall. intros t Ht. split.
  - now apply (split_ws_nonempty (Py.chars s) []).
  - apply (split_ws_chars (fun c => Py.isspace c = false) (Py.chars s))
      with (cur := []); [auto|constructor|exact Ht].
Qed.

Lemma split_ws_word (l : list ascii) :
  Forall (fun c => Py.isspace c = false) l ->
  forall cur rest,
    Py.split_ws cur (l ++ rest) = Py.split_ws (rev l ++ cur) rest.
Proof.
  induction 1 as [|c l Hc Hl IH]; intros cur rest; [reflexivity|].
  simpl. rewrite Hc, IH, <- app_assoc. reflexivity.
Qed.

Lemma split_one_word (w : string) (rest : list ascii) :
  is_word w ->
  Py.split_ws [] (Py.chars w ++ " "%char :: rest)
  = w :: Py.split_ws [] rest.
Proof.
  intros [Hne Hw]. rewrite split_ws_word by exact Hw.
  rewrite app_nil_r. simpl.
  destruct (rev (Py.chars w)) as [|a cur] eqn:E.
  - exfalso. apply Hne. rewrite <- (str_chars w).
    rewrite <- (rev_involutive (Py.chars w)), E. reflexivity.
  - rewrite <- E, rev_involutive, str_chars. reflexivity.
Qed.

(** Joining words with blanks and splitting again gives the words
    back. *)
Lemma split_join (ws : list string) :
  Forall is_word ws -> Py.split (Py.join " " ws) = ws.
Proof.
  induction 1 as [|w ws Hw Hws IH]; [reflexivity|].
  destruct ws as [|w' ws].
  - unfold Py.split. simpl Py.join.
    rewrite <- (app_nil_r (Py.chars w)).
    destruct Hw as [Hne Hw]. rewrite split_ws_word by exact Hw.
    rewrite app_nil_r. simpl.
    destruct (rev (Py.chars w)) as [|a cur] eqn:E.
    + exfalso. apply Hne. rewrite <- (str_chars w).
      rewrite <- (rev_involutive (Py.chars w)), E. reflexivity.
    + rewrite <- E, rev_involutive, str_chars. reflexivity.
  - change (Py.join " " (w :: w' :: ws))
      with (w +:+ String " "%char (Py.join " " (w' :: ws))).
    unfold Py.split in *. rewrite chars_append.
    change (Py.chars (String " "%char (Py.join " " (w' :: ws))))
      with (" "%char :: Py.chars (Py.join " " (w' :: ws))).
    rewrite split_one_word by exact Hw. now rewrite IH.
Qed.

Lemma Forall_is_word_sublist (w ws : list string) :
  w `sublist_of` ws -> Forall is_word ws -> Forall is_word w.
Proof. apply Forall_sublist. Qed.

(** A slice with bounds inside the list. *)
Lemma slice_inside {A} (l : list A) (a b : Z) :
  0 <= a -> a <= b -> b <= Py.len l ->
  Py.slice l a b = firstn (Z.to_nat (b - a)) (skipn (Z.to_nat a) l).
Proof.
  intros Ha Hab Hb. unfold Py.slice.
  rewrite !clamp_nonneg by lia. now rewrite !Z.min_l by lia.
Qed.

Lemma slice_length {A} (l : list A) (a b : Z) :
  0 <= a -> a <= b -> b <= Py.len l ->
  length (Py.slice l a b) = Z.to_nat (b - a).
Proof.
  intros Ha Hab Hb. rewrite slice_inside by assumption.
  rewrite length_take, length_drop. unfold Py.len in Hb. lia.
Qed.

Section Windows.
Import VectorDB.
Variables (words : list string) (chunk_size overlap : Z).

(** The loop returns whenever the window advances. *)
Lemma chunk_text_loop_advances (fuel : nat) :
  overlap < chunk_size ->
  forall start chunks,
    (Z.to_nat (Py.len words - start) < fuel)%nat ->
    is_Some (chunk_text_loop fuel words chunk_size overlap start chunks).
Proof.
  intros Hov. induction fuel as [|fuel IH]; intros start chunks Hf; [lia|].
  simpl.
  destruct (start <? Py.len words) eqn:Hlt; [|eauto].
  apply Z.ltb_lt in Hlt.
  destruct (_ >=? _) eqn:Hbrk; [eauto|].
  rewrite Z.geb_leb in Hbrk. apply Z.leb_gt in Hbrk.
  apply IH; lia.
Qed.

(** A text that fits into one window is one chunk. *)
Lemma chunk_text_loop_single (fuel : nat) (chunks : list string) :
  0 < Py.len words -> Py.len words <= chunk_size ->
  chunk_text_loop (S fuel) words chunk_size overlap 0 chunks
  = Some (chunks ++ [Py.join " " words]).
Proof.
  intros Hn Hle. simpl.
  apply Z.ltb_lt in Hn as Hn'. rewrite Hn'.
  rewrite Z.min_r by lia.
  rewrite slice_inside by lia.
  replace (Z.to_nat (Py.len words - 0)) with (length words)
    by (unfold Py.len; lia).
  change (Z.to_nat 0) with 0%nat. simpl skipn. rewrite firstn_all.
  destruct (_ >=? _) eqn:Hbrk; [reflexivity|].
  rewrite Z.geb_leb in Hbrk. apply Z.leb_gt in Hbrk. lia.
Qed.

Hypothesis Hov : 0 <= overlap < chunk_size.

(** The chunks the loop appends are the joined words of windows of at
    most [chunk_size] words that cover the words from [start] on, each
    window starting [overlap] words before the end of the one before. *)
Lemma chunk_text_loop_windows (fuel : nat) :
  forall start chunks r,
    0 <= start < Py.len words ->
    chunk_text_loop fuel words chunk_size overlap start chunks = Some r ->
    exists w rest,
      r = chunks ++ map (Py.join " ") (w :: rest)
      /\ length w = Z.to_nat (Z.min chunk_size (Py.len words - start))
      /\ w ++ concat (map (skipn (Z.to_nat overlap)) rest)
         = skipn (Z.to_nat start) words
      /\ Forall (fun w => w `sublist_of` words
                          /\ (0 < length w <= Z.to_nat chunk_size)%nat)
           (w :: rest).
Proof.
  induction fuel as [|fuel IH]; intros start chunks r Hs H; [discriminate|].
  simpl in H.
  destruct (start <? Py.len words) eqn:Hlt;
    [clear Hlt|apply Z.ltb_ge in Hlt; lia].
  set (end_ := Z.min (start + chunk_size) (Py.len words)) in *.
  assert (Hw : Py.slice words start end_
               = firstn (Z.to_nat (end_ - start))
                   (skipn (Z.to_nat start) words))
    by (apply slice_inside; unfold end_; lia).
  assert (Hlen : length (Py.slice words start end_)
                 = Z.to_nat (Z.min chunk_size (Py.len words - start))).
  { rewrite slice_length by (unfold end_; lia). unfold end_. lia. }
  assert (Hsub : Py.slice words start end_ `sublist_of` words)
    by apply slice_sublist.
  destruct (_ >=? _) eqn:Hbrk.
  - apply Z.geb_le in Hbrk. injection H as <-.
    exists (Py.slice words start end_), []. split; [reflexivity|].
    split; [exact Hlen|]. split.
    + simpl. rewrite app_nil_r, Hw. apply firstn_all2.
      rewrite length_drop. unfold end_, Py.len in *. lia.
    + constructor; [|constructor]. split; [exact Hsub|]. rewrite Hlen. lia.
  - rewrite Z.geb_leb in Hbrk. apply Z.leb_gt in Hbrk.
    assert (Hend : end_ = start + chunk_size) by (unfold end_; lia).
    apply IH in H; [|lia].
    destruct H as (w' & rest & -> & Hlen' & Hcat & Hall).
    exists (Py.slice words start end_), (w' :: rest).
    split; [now rewrite <- app_assoc|].
    split; [exact Hlen|]. split.
    + change (concat (map (skipn (Z.to_nat overlap)) (w' :: rest)))
        with (skipn (Z.to_nat overlap) w'
              ++ concat (map (skipn (Z.to_nat overlap)) rest)).
      assert (E : skipn (Z.to_nat overlap) w'
                  ++ concat (map (skipn (Z.to_nat overlap)) rest)
                  = skipn (Z.to_nat (start + chunk_size)) words).
      { replace (Z.to_nat (start + chunk_size))
          with (Z.to_nat overlap + Z.to_nat (end_ - overlap))%nat by lia.
        rewrite <- skipn_skipn, <- Hcat.
        rewrite skipn_app.
        replace (Z.to_nat overlap - length w')%nat with 0%nat by lia.
        reflexivity. }
      rewrite E, Hw, Hend.
      replace (Z.to_nat (start + chunk_size))
        with (Z.to_nat (start + chunk_size - start) + Z.to_nat start)%nat
        by lia.
      rewrite <- skipn_skipn. apply firstn_skipn.
    + constructor; [|exact Hall]. split; [exact Hsub|]. rewrite Hlen. lia.
Qed.
End Windows.

(** ** Chunking by tokens *)

Lemma numbered_nil : numbered [].
Proof. intros i c H. discriminate H. Qed.

Lemma numbered_snoc (chunks : list Chunker.TextChunk) (c : Chunker.TextChunk) :
  numbered chunks -> Chunker.index c = Py.len chunks ->
  numbered (chunks ++ [c]).
Proof.
  intros Hn Hc i c' H. apply lookup_app_Some in H as [H|[Hi H]].
  - now apply Hn.
  - destruct (i - length chunks)%nat as [|k] eqn:E; [|discriminate H].
    injection H as <-. rewrite Hc. unfold Py.len. lia.
Qed.

Section TokenLoop.
Import Chunker.
Variables (words : list string) (wpc wo : Z).

(** The texts of the chunks are those of the loop of [chunk_text]. *)
Lemma chunk_loop_texts (fuel : nat) : forall start chunks,
  option_map (map text) (chunk_loop fuel words wpc wo start chunks)
  = VectorDB.chunk_text_loop fuel words wpc wo start (map text chunks).
Proof.
  induction fuel as [|fuel IH]; intros start chunks; simpl; [reflexivity|].
  destruct (start <? Py.len words); [|reflexivity].
  destruct (_ >=? _).
  - simpl. now rewrite map_app.
  - now rewrite IH, map_app.
Qed.

Lemma chunk_loop_plain (fuel : nat) : forall start chunks r,
  numbered chunks -> Forall plain_chunk chunks ->
  chunk_loop fuel words wpc wo start chunks = Some r ->
  numbered r /\ Forall plain_chunk r.
Proof.
  induction fuel as [|fuel IH]; intros start chunks r Hn Hp H;
    [discriminate|].
  simpl in H.
  destruct (start <? Py.len words); [|injection H as <-; now split].
  match type of H with
  | context [chunks ++ [?c]] =>
      assert (Hn' : numbered (chunks ++ [c]))
        by (apply numbered_snoc; [exact Hn|reflexivity]);
      assert (Hp' : Forall plain_chunk (chunks ++ [c]))
        by (apply Forall_app; split;
            [exact Hp|constructor; [now split|constructor]])
  end.
  destruct (_ >=? _).
  - injection H as <-. now split.
  - eapply IH; eassumption.
Qed.

Lemma chunk_loop_some (fuel : nat) (start : Z) (chunks : list TextChunk) :
  is_Some (VectorDB.chunk_text_loop fuel words wpc wo start
             (map text chunks)) ->
  is_Some (chunk_loop fuel words wpc wo start chunks).
Proof.
  rewrite <- chunk_loop_texts.
  destruct (chunk_loop _ _ _ _ _ _); [eauto|intros [x Hx]; discriminate].
Qed.

Lemma chunk_loop_fuel_mono (fuel fuel' : nat) :
  (fuel <= fuel')%nat ->
  forall start chunks r,
    chunk_loop fuel words wpc wo start chunks = Some r ->
    chunk_loop fuel' words wpc wo start chunks = Some r.
Proof.
  revert fuel'. induction fuel as [|fuel IH];
    intros fuel' Hle start chunks r H; [discriminate|].
  destruct fuel' as [|fuel']; [lia|].
  simpl in *.
  destruct (start <? Py.len words); [|exact H].
  destruct (_ >=? _); [exact H|].
  apply IH; [lia|exact H].
Qed.
End TokenLoop.

(** A cleaned text that is not empty has a word. *)
Lemma split_ws_cur (l : list ascii) : forall cur,
  cur <> [] -> Py.split_ws cur l <> [].
Proof.
  induction l as [|c l IH]; intros cur Hc; simpl.
  - now destruct cur.
  - destruct (Py.isspace c); [now destruct cur|]. now apply IH.
Qed.

Lemma cleaned_words_nonempty (text : string) :
  Chunker.clean_text text <> "" -> cleaned_words text <> [].
Proof.
  intros Hne. unfold cleaned_words, Py.split.
  pose proof (clean_text_head text) as Hhead.
  destruct (Py.chars (Chunker.clean_text text)) as [|c l] eqn:E.
  - exfalso. apply Hne. rewrite <- (str_chars (Chunker.clean_text text)), E.
    reflexivity.
  - simpl in *. rewrite Hhead. now apply split_ws_cur.
Qed.

Lemma chunk_by_tokens_loop (fuel : nat) (self : Chunker.TextChunker)
    (text : string) (chunk_size overlap : option Z) :
  cleaned_words text <> [] ->
  Chunker.chunk_by_tokens fuel self text chunk_size overlap
  = Chunker.chunk_loop fuel (cleaned_words text)
      (words_per_chunk self chunk_size) (words_overlap self overlap) 0 [].
Proof.
  intros Hne. unfold Chunker.chunk_by_tokens.
  destruct (Chunker.clean_text text =? "")%string eqn:He.
  - exfalso. apply Hne. unfold cleaned_words.
    now rewrite (proj1 (String.eqb_eq _ _) He).
  - fold (cleaned_words text).
    destruct (cleaned_words text) eqn:E; [now destruct Hne|reflexivity].
Qed.

Lemma chunk_by_tokens_no_words (fuel : nat) (self : Chunker.TextChunker)
    (text : string) (chunk_size overlap : option Z) :
  cleaned_words text = [] ->
  Chunker.chunk_by_tokens fuel self text chunk_size overlap = Some [].
Proof.
  intros He. unfold Chunker.chunk_by_tokens.
  destruct (Chunker.clean_text text =? "")%string; [reflexivity|].
  fold (cleaned_words text). now rewrite He.
Qed.

(** With any fuel above the number of words the result is the same. *)
Lemma chunk_by_tokens_fuel (self : Chunker.TextChunker) (text : string)
    (chunk_size overlap : option Z) :
  Py.len (cleaned_words text) <= words_per_chunk self chunk_size
  \/ words_overlap self overlap < words_per_chunk self chunk_size ->
  exists chunks,
    forall fuel, (length (cleaned_words text) < fuel)%nat ->
      Chunker.chunk_by_tokens fuel self text chunk_size overlap
      = Some chunks.
Proof.
  intros Hcase.
  destruct (cleaned_words text) as [|w0 ws] eqn:Ew.
  { exists []. intros fuel _. now apply chunk_by_tokens_no_words. }
  rewrite <- Ew in *.
  assert (Hne : cleaned_words text <> []) by (rewrite Ew; discriminate).
  assert (Hpos : 0 < Py.len (cleaned_words text))
    by (rewrite Ew; unfold Py.len; simpl; lia).
  assert (Hsome : is_Some (Chunker.chunk_loop
                             (S (length (cleaned_words text)))
                             (cleaned_words text)
                             (words_per_chunk self chunk_size)
                             (words_overlap self overlap) 0 [])).
  { destruct Hcase as [Hfit|Hadv].
    - rewrite chunk_loop_last by lia. eauto.
    - apply chunk_loop_some, chunk_text_loop_advances; [exact Hadv|].
      unfold Py.len. lia. }
  destruct Hsome as [r Hr]. exists r.
  intros fuel Hf. rewrite chunk_by_tokens_loop by exact Hne.
  eapply chunk_loop_fuel_mono; [|exact Hr]. lia.
Qed.

Lemma chunk_by_tokens_plain (self : Chunker.TextChunker) (text : string)
    (chunk_size overlap : option Z) (fuel : nat)
    (chunks : list Chunker.TextChunk) :
  Chunker.chunk_by_tokens fuel self text chunk_size overlap = Some chunks ->
  numbered chunks /\ Forall plain_chunk chunks.
Proof.
  intros H. destruct (cleaned_words text) as [|w0 ws] eqn:Ew.
  - rewrite chunk_by_tokens_no_words in H by exact Ew.
    injection H as <-. split; [apply numbered_nil|constructor].
  - rewrite chunk_by_tokens_loop in H by (rewrite Ew; discriminate).
    eapply chunk_loop_plain; [apply numbered_nil|constructor|exact H].
Qed.

(** X4: [chunk_by_tokens] returns, with any fuel above the number of
    words, when the cleaned text fits into one window or the overlap in
    words is below the window; the chunks are numbered from 0 by their
    position, carry no section and the token estimate of their text. *)
Theorem chunk_by_tokens_returns (self : Chunker.TextChunker) (text : string)
    (chunk_size overlap : option Z) :
  Py.len (cleaned_words text) <= words_per_chunk self chunk_size
  \/ words_overlap self overlap < words_per_chunk self chunk_size ->
  exists chunks,
    (forall fuel, (length (cleaned_words text) < fuel)%nat ->
       Chunker.chunk_by_tokens fuel self text chunk_size overlap
       = Some chunks)
    /\ numbered chunks /\ Forall plain_chunk chunks.
Proof.
  intros Hcase.
  destruct (chunk_by_tokens_fuel self text chunk_size overlap Hcase)
    as [chunks Hchunks].
  exists chunks. split; [exact Hchunks|].
  eapply chunk_by_tokens_plain.
  apply (Hchunks (S (length (cleaned_words text)))). lia.
Qed.

Lemma chunk_by_tokens_returns_witness :
  exists chunks,
    (forall fuel, (length (cleaned_words "a b c d e f g") < fuel)%nat ->
       Chunker.chunk_by_tokens fuel (Chunker.init (Some 4) (Some 2))
         "a b c d e f g" None None = Some chunks)
    /\ numbered chunks /\ Forall plain_chunk chunks.
Proof.
  apply (chunk_by_tokens_returns (Chunker.init (Some 4) (Some 2))
           "a b c d e f g" None None).
  right. vm_compute. reflexivity.
Defined.

(** X5: when the cleaned text has more words than fit into one window
    and the overlap in words is not below the window, [chunk_by_tokens]
    never returns: the window never advances, whatever the fuel. *)
Theorem chunk_by_tokens_never_returns (self : Chunker.TextChunker)
    (text : string) (chunk_size overlap : option Z) :
  0 < Py.len (cleaned_words text) ->
  words_per_chunk self chunk_size < Py.len (cleaned_words text) ->
  words_per_chunk self chunk_size <= words_overlap self overlap ->
  forall fuel,
    Chunker.chunk_by_tokens fuel self text chunk_size overlap = None.
Proof.
  intros Hpos Hlong Hov fuel.
  assert (Hne : cleaned_words text <> []).
  { intros E. rewrite E in Hpos. unfold Py.len in Hpos. simpl in Hpos. lia. }
  rewrite chunk_by_tokens_loop by exact Hne.
  pose proof (chunk_loop_texts (cleaned_words text)
                (words_per_chunk self chunk_size)
                (words_overlap self overlap) fuel 0 []) as Ht.
  rewrite (chunk_text_diverges_loop _ _ _ Hlong Hpos Hov) in Ht by lia.
  destruct (Chunker.chunk_loop _ _ _ _ _ _); [discriminate Ht|reflexivity].
Qed.

Lemma chunk_by_tokens_never_returns_witness :
  Chunker.chunk_by_tokens 1000 (Chunker.init (Some 4) None)
    "a b c d e f g" None None = None.
Proof.
  apply (chunk_by_tokens_never_returns (Chunker.init (Some 4) None)
           "a b c d e f g" None None);
    vm_compute; [reflexivity|reflexivity|intros H; discriminate H].
Defined.

Lemma map_split_join (wins : list (list string)) :
  Forall (Forall is_word) wins ->
  map Py.split (map (Py.join " ") wins) = wins.
Proof.
  induction 1 as [|w wins Hw Hws IH]; [reflexivity|].
  simpl. now rewrite split_join, IH.
Qed.

Lemma windows_of_words (words : list string) (n : nat)
    (wins : list (list string)) :
  Forall is_word words ->
  Forall (fun w => w `sublist_of` words /\ (0 < length w <= n)%nat) wins ->
  Forall (Forall is_word) wins.
Proof.
  intros Hw H. eapply List.Forall_impl; [|exact H].
  intros w [Hs _]. eapply Forall_sublist; eassumption.
Qed.

(** X6: for [0 <= words_overlap < words_per_chunk] no word of the cleaned
    text is lost or reordered: the words of the first chunk, followed by
    the words of every later chunk without its first [words_overlap]
    words, are the words of the cleaned text; and every chunk has
    between 1 and [words_per_chunk] words. *)
Theorem chunk_by_tokens_covers (self : Chunker.TextChunker) (text : string)
    (chunk_size overlap : option Z) (fuel : nat)
    (chunks : list Chunker.TextChunk) :
  0 <= words_overlap self overlap < words_per_chunk self chunk_size ->
  Chunker.chunk_by_tokens fuel self text chunk_size overlap = Some chunks ->
  stitch (words_overlap self overlap)
    (map (fun c => Py.split (Chunker.text c)) chunks)
  = cleaned_words text
  /\ Forall (fun c => 0 < Py.len (Py.split (Chunker.text c))
                      <= words_per_chunk self chunk_size) chunks.
Proof.
  intros Hov H.
  destruct (cleaned_words text) as [|w0 ws] eqn:Ew.
  { rewrite chunk_by_tokens_no_words in H by exact Ew.
    injection H as <-. split; [reflexivity|constructor]. }
  rewrite <- Ew in *.
  assert (Hne : cleaned_words text <> []) by (rewrite Ew; discriminate).
  assert (Hpos : 0 < Py.len (cleaned_words text))
    by (rewrite Ew; unfold Py.len; simpl; lia).
  rewrite chunk_by_tokens_loop in H by exact Hne.
  pose proof (chunk_loop_texts (cleaned_words text)
                (words_per_chunk self chunk_size)
                (words_overlap self overlap) fuel 0 []) as Ht.
  rewrite H in Ht. simpl in Ht. symmetry in Ht.
  apply chunk_text_loop_windows in Ht; [|exact Hov|lia].
  destruct Ht as (w & rest & Etexts & _ & Hcat & Hall).
  rewrite app_nil_l in Etexts.
  assert (Ewins : map (fun c => Py.split (Chunker.text c)) chunks
                  = w :: rest).
  { rewrite <- (map_map Chunker.text Py.split), Etexts.
    apply map_split_join.
    eapply windows_of_words; [apply split_words|exact Hall]. }
  split.
  - rewrite Ewins. exact Hcat.
  - apply List.Forall_map with (f := fun c => Py.split (Chunker.text c))
      (P := fun ws => 0 < Py.len ws <= words_per_chunk self chunk_size).
    rewrite Ewins. eapply List.Forall_impl; [|exact Hall].
    intros a [_ Ha]. unfold Py.len. lia.
Qed.

Lemma chunk_by_tokens_covers_witness :
  exists chunks,
    Chunker.chunk_by_tokens 8 (Chunker.init (Some 4) (Some 2))
      "a b c d e f g" None None = Some chunks
    /\ stitch 1 (map (fun c => Py.split (Chunker.text c)) chunks)
       = ["a"; "b"; "c"; "d"; "e"; "f"; "g"]
    /\ Forall (fun c => 0 < Py.len (Py.split (Chunker.text c)) <= 3) chunks.
Proof.
  eexists. split; [vm_compute; reflexivity|].
  apply (chunk_by_tokens_covers (Chunker.init (Some 4) (Some 2))
           "a b c d e f g" None None 8);
    [vm_compute; split; [intros H; discriminate H|reflexivity]
    |vm_compute; reflexivity].
Defined.

Lemma words_for_tokens (n size : Z) :
  0 < n <= words_for size ->
  0 < Py.int_of (inject_Z n * (13 # 10)) <= size.
Proof.
  unfold words_for, Py.int_of.
  cbn [Qnum Qden Qmult Qdiv Qinv inject_Z].
  change (Z.pos (1 * 10)) with 10. change (Z.pos (1 * 13)) with 13.
  intros [Hn Hle].
  destruct (Z.le_gt_cases size 0) as [Hs|Hs].
  - exfalso.
    assert (size * 10 ÷ 13 <= 0); [|lia].
    apply Z.quot_le_upper_bound; lia.
  - rewrite Z.quot_div_nonneg in Hle by lia.
    rewrite Z.quot_div_nonneg by lia.
    pose proof (Z.div_mod (size * 10) 13 ltac:(lia)).
    pose proof (Z.mod_pos_bound (size * 10) 13 ltac:(lia)).
    pose proof (Z.div_mod (n * 13) 10 ltac:(lia)).
    pose proof (Z.mod_pos_bound (n * 13) 10 ltac:(lia)).
    lia.
Qed.

(** X7: for [0 <= words_overlap < words_per_chunk] the token count of
    every chunk is positive and at most the chunk size in force. *)
Theorem chunk_by_tokens_within_size (self : Chunker.TextChunker)
    (text : string) (chunk_size overlap : option Z) (fuel : nat)
    (chunks : list Chunker.TextChunk) :
  0 <= words_overlap self overlap < words_per_chunk self chunk_size ->
  Chunker.chunk_by_tokens fuel self text chunk_size overlap = Some chunks ->
  Forall (fun c => exists t,
            Chunker.token_count c = Some t
            /\ 0 < t <= Chunker.or_default chunk_size
                          (Chunker.chunk_size self)) chunks.
Proof.
  intros Hov H.
  assert (Hplain : Forall plain_chunk chunks)
    by (eapply chunk_by_tokens_plain; exact H).
  assert (Hlen : Forall (fun c => 0 < Py.len (Py.split (Chunker.text c))
                                  <= words_per_chunk self chunk_size) chunks).
  { destruct (cleaned_words text) as [|w0 ws] eqn:Ew.
    - rewrite chunk_by_tokens_no_words in H by exact Ew.
      injection H as <-. constructor.
    - assert (Hne : cleaned_words text <> []) by (rewrite Ew; discriminate).
      assert (Hpos : 0 < Py.len (cleaned_words text))
        by (rewrite Ew; unfold Py.len; simpl; lia).
      rewrite chunk_by_tokens_loop in H by exact Hne.
      pose proof (chunk_loop_texts (cleaned_words text)
                    (words_per_chunk self chunk_size)
                    (words_overlap self overlap) fuel 0 []) as Ht.
      rewrite H in Ht. simpl in Ht. symmetry in Ht.
      apply chunk_text_loop_windows in Ht; [|exact Hov|lia].
      destruct Ht as (w & rest & Etexts & _ & _ & Hall).
      rewrite app_nil_l in Etexts.
      apply List.Forall_map with (f := fun c => Py.split (Chunker.text c))
        (P := fun ws => 0 < Py.len ws <= words_per_chunk self chunk_size).
      rewrite <- (map_map Chunker.text Py.split), Etexts.
      rewrite map_split_join
        by (eapply windows_of_words; [apply split_words|exact Hall]).
      eapply List.Forall_impl; [|exact Hall].
      intros a [_ Ha]. unfold Py.len. lia. }
  rewrite List.Forall_forall in *. intros c Hc.
  destruct (Hplain c Hc) as [_ Htc]. specialize (Hlen c Hc).
  eexists. split; [exact Htc|].
  unfold Chunker.estimate_tokens. apply words_for_tokens. exact Hlen.
Qed.

Lemma chunk_by_tokens_within_size_witness :
  exists chunks,
    Chunker.chunk_by_tokens 8 (Chunker.init (Some 4) (Some 2))
      "a b c d e f g" None None = Some chunks
    /\ Forall (fun c => exists t,
                 Chunker.token_count c = Some t /\ 0 < t <= 4) chunks.
Proof.
  eexists. split; [vm_compute; reflexivity|].
  apply (chunk_by_tokens_within_size (Chunker.init (Some 4) (Some 2))
           "a b c d e f g" None None 8);
    [vm_compute; split; [intros H; discriminate H|reflexivity]
    |vm_compute; reflexivity].
Defined.

(** ** [chunk_text] of the vector store *)

(** X8: for [0 <= overlap < chunk_size] no word of the text is lost or
    reordered by [chunk_text]: the words of the first chunk, followed
    by the words of every later chunk without its first [overlap]
    words, are the words of the text; no chunk has more than
    [chunk_size] words. *)
Theorem chunk_text_covers (text : string) (chunk_size overlap : Z)
    (fuel : nat) (chunks : list string) :
  0 <= overlap < chunk_size ->
  VectorDB.chunk_text fuel text chunk_size overlap = Some chunks ->
  stitch overlap (map Py.split chunks) = Py.split text
  /\ Forall (fun c => Py.len (Py.split c) <= chunk_size) chunks.
Proof.
  intros Hov H. unfold VectorDB.chunk_text in H.
  destruct (text =? "")%string eqn:He.
  - injection H as <-. rewrite (split_empty_text _ He).
    split; [reflexivity|constructor].
  - destruct (Py.len (Py.split text) <=? chunk_size) eqn:Hle.
    + injection H as <-. apply Z.leb_le in Hle. simpl.
      rewrite app_nil_r. split; [reflexivity|].
      constructor; [exact Hle|constructor].
    + apply Z.leb_gt in Hle.
      apply chunk_text_loop_windows in H; [|exact Hov|lia].
      destruct H as (w & rest & -> & _ & Hcat & Hall).
      rewrite app_nil_l.
      assert (Hwords : Forall (Forall is_word) (w :: rest))
        by (eapply windows_of_words; [apply split_words|exact Hall]).
      rewrite map_split_join by exact Hwords.
      split; [exact Hcat|].
      apply List.Forall_map
        with (f := Py.join " ")
             (P := fun c => Py.len (Py.split c) <= chunk_size).
      rewrite List.Forall_forall in *. intros a Ha.
      rewrite split_join by (apply Hwords, Ha).
      destruct (Hall a Ha) as [_ Hlen]. unfold Py.len. lia.
Qed.

Lemma chunk_text_covers_witness :
  exists chunks,
    VectorDB.chunk_text 8 "a b c d  e f g" 3 1 = Some chunks
    /\ stitch 1 (map Py.split chunks) = Py.split "a b c d  e f g"
    /\ Forall (fun c => Py.len (Py.split c) <= 3) chunks.
Proof.
  eexists. split; [vm_compute; reflexivity|].
  apply (chunk_text_covers "a b c d  e f g" 3 1 8);
    [lia|vm_compute; reflexivity].
Defined.

(** X9: on a text whose cleaned form has more words than one window,
    the chunk texts of [chunk_by_tokens] are the chunks that
    [chunk_text] makes of the cleaned text with the window and the
    overlap converted to words. *)
Theorem chunk_by_tokens_as_chunk_text (self : Chunker.TextChunker)
    (text : string) (chunk_size overlap : option Z) (fuel : nat) :
  words_per_chunk self chunk_size < Py.len (cleaned_words text) ->
  option_map (map Chunker.text)
    (Chunker.chunk_by_tokens fuel self text chunk_size overlap)
  = VectorDB.chunk_text fuel (Chunker.clean_text text)
      (words_per_chunk self chunk_size) (words_overlap self overlap).
Proof.
  intros Hlong. unfold VectorDB.chunk_text.
  destruct (Chunker.clean_text text =? "")%string eqn:He.
  - rewrite chunk_by_tokens_no_words; [reflexivity|].
    unfold cleaned_words. now rewrite (proj1 (String.eqb_eq _ _) He).
  - assert (Hne : cleaned_words text <> []).
    { apply cleaned_words_nonempty. intros E. rewrite E in He.
      discriminate He. }
    rewrite chunk_by_tokens_loop by exact Hne.
    fold (cleaned_words text).
    apply Z.leb_gt in Hlong. rewrite Hlong.
    apply chunk_loop_texts.
Qed.

Lemma chunk_by_tokens_as_chunk_text_witness :
  option_map (map Chunker.text)
    (Chunker.chunk_by_tokens 8 (Chunker.init (Some 4) (Some 2))
       "a b [1] c d (Fig. 2) e f g" None None)
  = VectorDB.chunk_text 8
      (Chunker.clean_text "a b [1] c d (Fig. 2) e f g") 3 1.
Proof.
  apply (chunk_by_tokens_as_chunk_text (Chunker.init (Some 4) (Some 2))
           "a b [1] c d (Fig. 2) e f g" None None 8).
  vm_compute. reflexivity.
Defined.

(** ** Chunking by sentences *)

Lemma group_tokens_snoc (g : list string) (s : string) :
  group_tokens (g ++ [s]) = group_tokens g + Chunker.estimate_tokens s.
Proof.
  induction g as [|x g IH]; simpl; [lia|]. rewrite IH. lia.
Qed.

Section SentenceLoop.
Import Chunker Sentences.
Variable max_chunk_size : Z.

Lemma new_chunk_inv (chunks : list TextChunk) (groups : list (list string))
    (g : list string) :
  map text chunks = map (Py.join " ") groups ->
  numbered chunks -> Forall plain_chunk chunks ->
  Forall (sentence_group max_chunk_size) groups ->
  sentence_group max_chunk_size g ->
  map text (chunks ++ [new_chunk chunks (Py.join " " g)])
  = map (Py.join " ") (groups ++ [g])
  /\ numbered (chunks ++ [new_chunk chunks (Py.join " " g)])
  /\ Forall plain_chunk (chunks ++ [new_chunk chunks (Py.join " " g)])
  /\ Forall (sentence_group max_chunk_size) (groups ++ [g]).
Proof.
  intros Ht Hn Hp Hg Hok. split; [|split; [|split]].
  - rewrite !map_app, Ht. reflexivity.
  - apply numbered_snoc; [exact Hn|reflexivity].
  - apply Forall_app. split; [exact Hp|].
    constructor; [now split|constructor].
  - apply Forall_app. split; [exact Hg|]. constructor; [exact Hok|constructor].
Qed.

Lemma sentence_step_inv (st : list TextChunk * list string * Z)
    (groups : list (list string)) (sentence : string) :
  sentence_inv max_chunk_size st groups ->
  exists groups',
    sentence_inv max_chunk_size (sentence_step max_chunk_size st sentence)
      groups'
    /\ concat groups' ++ (sentence_step max_chunk_size st sentence).1.2
       = (concat groups ++ st.1.2) ++ [sentence].
Proof.
  destruct st as [[chunks cur] size].
  intros (Ht & Hn & Hp & Hg & Hcur & Hsize). unfold sentence_step.
  destruct ((max_chunk_size <? size + estimate_tokens sentence)
            && negb (length cur =? 0)%nat) eqn:Hflush.
  - apply andb_prop in Hflush as [_ Hne].
    assert (Hok : sentence_group max_chunk_size cur).
    { destruct Hcur as [->|Hok]; [discriminate Hne|exact Hok]. }
    exists (groups ++ [cur]).
    destruct (new_chunk_inv chunks groups cur Ht Hn Hp Hg Hok)
      as (Ht' & Hn' & Hp' & Hg').
    split.
    + split; [exact Ht'|]. split; [exact Hn'|]. split; [exact Hp'|].
      split; [exact Hg'|]. split.
      * right. split; [discriminate|now left].
      * simpl. lia.
    + simpl. rewrite concat_app. simpl. now rewrite app_nil_r.
  - exists groups. split.
    + split; [exact Ht|]. split; [exact Hn|]. split; [exact Hp|].
      split; [exact Hg|]. split.
      * right. split; [now destruct cur|].
        destruct cur as [|s0 cur]; [now left|right].
        rewrite group_tokens_snoc, <- Hsize.
        apply andb_false_iff in Hflush as [Hle|Hne];
          [apply Z.ltb_ge in Hle; exact Hle|discriminate Hne].
      * rewrite group_tokens_snoc. now rewrite Hsize.
    + simpl. now rewrite app_assoc.
Qed.

Lemma sentence_loop_inv (sentences : list string) :
  forall st groups,
    sentence_inv max_chunk_size st groups ->
    exists groups',
      sentence_inv max_chunk_size
        (foldl (sentence_step max_chunk_size) st sentences) groups'
      /\ concat groups'
           ++ (foldl (sentence_step max_chunk_size) st sentences).1.2
         = (concat groups ++ st.1.2) ++ sentences.
Proof.
  induction sentences as [|s sentences IH]; intros st groups Hinv.
  - exists groups. split; [exact Hinv|]. simpl. now rewrite app_nil_r.
  - destruct (sentence_step_inv st groups s Hinv) as (g1 & Hinv1 & E1).
    destruct (IH _ _ Hinv1) as (g2 & Hinv2 & E2).
    exists g2. split; [exact Hinv2|].
    cbn [foldl]. rewrite E2, E1, <- app_assoc. reflexivity.
Qed.
End SentenceLoop.

(** X10: [chunk_by_sentences] loses and reorders no sentence: its chunks
    are, in order, the sentences of the cleaned text cut into
    consecutive non-empty groups and joined by blanks; a group of more
    than one sentence has sentence estimates that sum to at most the
    maximal chunk size; the chunks are numbered from 0 and plain. *)
Theorem chunk_by_sentences_groups (self : Chunker.TextChunker)
    (text : string) (max_chunk_size : option Z) :
  exists groups,
    map Chunker.text
      (Sentences.chunk_by_sentences self text max_chunk_size)
    = map (Py.join " ") groups
    /\ concat groups = cleaned_sentences text
    /\ Forall (sentence_group
                 (Chunker.or_default max_chunk_size
                    (Chunker.chunk_size self))) groups
    /\ numbered (Sentences.chunk_by_sentences self text max_chunk_size)
    /\ Forall plain_chunk
         (Sentences.chunk_by_sentences self text max_chunk_size).
Proof.
  unfold Sentences.chunk_by_sentences, cleaned_sentences.
  destruct (Chunker.clean_text text =? "")%string.
  { exists []. repeat split; try constructor. apply numbered_nil. }
  set (max := Chunker.or_default max_chunk_size (Chunker.chunk_size self)).
  destruct (sentence_loop_inv max
              (Sentences.split_sentences (Chunker.clean_text text))
              ([], [], 0) [])
    as (groups & Hinv & Hcat).
  { split; [reflexivity|]. split; [apply numbered_nil|].
    split; [constructor|]. split; [constructor|]. split; [now left|].
    reflexivity. }
  destruct (foldl _ _ _) as [[chunks cur] size].
  destruct Hinv as (Ht & Hn & Hp & Hg & Hcur & _).
  simpl in Hcat.
  destruct cur as [|s cur].
  - exists groups. rewrite app_nil_r in Hcat. now repeat split.
  - assert (Hok : sentence_group max (s :: cur))
      by (destruct Hcur as [E|Hok]; [discriminate E|exact Hok]).
    destruct (new_chunk_inv max chunks groups (s :: cur) Ht Hn Hp Hg Hok)
      as (Ht' & Hn' & Hp' & Hg').
    exists (groups ++ [s :: cur]).
    split; [exact Ht'|]. split.
    + rewrite concat_app. simpl. now rewrite app_nil_r.
    + now repeat split.
Qed.

(** ** Chunking a paper *)

Section Paper.
Import Chunker Sentences.

Lemma append_section_spec (name : string) (section_chunks : list TextChunk) :
  forall chunks,
    numbered chunks ->
    numbered (append_section name chunks section_chunks)
    /\ map labelled_text (append_section name chunks section_chunks)
       = map labelled_text chunks ++ section_texts name section_chunks.
Proof.
  unfold append_section.
  induction section_chunks as [|c cs IH]; intros chunks Hn.
  - simpl. now rewrite app_nil_r.
  - cbn [foldl].
    match goal with
    | |- context [foldl _ (chunks ++ [?x]) cs] =>
        destruct (IH (chunks ++ [x])) as [Hn' Ht];
          [apply numbered_snoc; [exact Hn|reflexivity]|]
    end.
    split; [exact Hn'|]. rewrite Ht, map_app, <- app_assoc. reflexivity.
Qed.

Lemma chunk_sections_spec (fuel : nat) (self : TextChunker)
    (sections : list (string * string)) :
  forall chunks r,
    numbered chunks ->
    chunk_sections fuel self sections chunks = Some r ->
    exists section_chunks,
      Forall2 (fun sec cs =>
                 chunk_by_tokens fuel self sec.2 None None = Some cs)
        sections section_chunks
      /\ numbered r
      /\ map labelled_text r
         = map labelled_text chunks
           ++ concat (zip_with (fun sec cs =>
                                  section_texts (Py.lower sec.1) cs)
                        sections section_chunks).
Proof.
  induction sections as [|[name body] sections IH]; intros chunks r Hn H.
  - injection H as <-. exists []. split; [constructor|].
    split; [exact Hn|]. simpl. now rewrite app_nil_r.
  - simpl in H.
    destruct (chunk_by_tokens fuel self body None None) as [cs|] eqn:Ecs;
      [|discriminate H].
    destruct (append_section_spec (Py.lower name) cs chunks Hn)
      as [Hn' Ht].
    destruct (IH _ _ Hn' H) as (rest & Hall & Hnr & Htr).
    exists (cs :: rest). split; [constructor; [exact Ecs|exact Hall]|].
    split; [exact Hnr|]. rewrite Htr, Ht, <- app_assoc. reflexivity.
Qed.

Lemma chunk_sections_returns (fuel : nat) (self : TextChunker)
    (sections : list (string * string)) :
  Forall (fun sec =>
            is_Some (chunk_by_tokens fuel self sec.2 None None)) sections ->
  forall chunks, is_Some (chunk_sections fuel self sections chunks).
Proof.
  induction 1 as [|[name body] sections [cs Hcs] Hall IH]; intros chunks.
  - simpl. eauto.
  - simpl in *. rewrite Hcs. apply IH.
Qed.
End Paper.

(** X11: the chunks of [chunk_paper] are numbered from 0 through all the
    sections; they are the chunks of title and abstract, labelled
    "abstract", followed by the chunks of each section in the order of
    the sections, labelled with the lower-cased section name. *)
Theorem chunk_paper_sections (fuel : nat) (self : Chunker.TextChunker)
    (title abstract : string) (sections : option (list (string * string)))
    (chunks : list Chunker.TextChunk) :
  Sentences.chunk_paper fuel self title abstract sections = Some chunks ->
  exists abstract_chunks section_chunks,
    Chunker.chunk_by_tokens fuel self (title_and_abstract title abstract)
      None None = Some abstract_chunks
    /\ Forall2 (fun sec cs =>
                  Chunker.chunk_by_tokens fuel self sec.2 None None
                  = Some cs)
         (default [] sections) section_chunks
    /\ numbered chunks
    /\ map labelled_text chunks
       = section_texts "abstract" abstract_chunks
         ++ concat (zip_with (fun sec cs =>
                                section_texts (Py.lower sec.1) cs)
                      (default [] sections) section_chunks).
Proof.
  unfold Sentences.chunk_paper. fold (title_and_abstract title abstract).
  intros H.
  destruct (Chunker.chunk_by_tokens fuel self
              (title_and_abstract title abstract) None None)
    as [abstract_chunks|]; [|discriminate H].
  exists abstract_chunks.
  destruct (append_section_spec "abstract" abstract_chunks [] numbered_nil)
    as [Hn Ht].
  simpl in Ht.
  destruct sections as [sections|].
  - destruct (chunk_sections_spec fuel self sections _ _ Hn H)
      as (section_chunks & Hall & Hnr & Htr).
    exists section_chunks. split; [reflexivity|]. split; [exact Hall|].
    split; [exact Hnr|]. now rewrite Htr, Ht.
  - injection H as <-. exists []. split; [reflexivity|].
    split; [constructor|]. split; [exact Hn|].
    simpl. now rewrite app_nil_r.
Qed.

Lemma chunk_paper_sections_witness :
  exists chunks abstract_chunks section_chunks,
    Chunker.chunk_by_tokens 8 (Chunker.init (Some 4) (Some 2))
      (title_and_abstract "Gene editing" "CRISPR cuts DNA.")
      None None = Some abstract_chunks
    /\ Forall2 (fun sec cs =>
                  Chunker.chunk_by_tokens 8 (Chunker.init (Some 4) (Some 2))
                    sec.2 None None = Some cs)
         [("Methods", "we did things [1] well"); ("RESULTS", "")]
         section_chunks
    /\ numbered chunks
    /\ map labelled_text chunks
       = section_texts "abstract" abstract_chunks
         ++ concat (zip_with (fun sec cs =>
                                section_texts (Py.lower sec.1) cs)
                      [("Methods", "we did things [1] well");
                       ("RESULTS", "")] section_chunks).
Proof.
  eexists.
  apply (chunk_paper_sections 8 (Chunker.init (Some 4) (Some 2))
           "Gene editing" "CRISPR cuts DNA."
           (Some [("Methods", "we did things [1] well"); ("RESULTS", "")])).
  vm_compute. reflexivity.
Defined.

(** X12: with a chunker whose overlap in words is below its window in
    words, as the default [TextChunker()], [chunk_paper] returns for
    every paper, with any fuel above the number of words of each of its
    texts. *)
Theorem chunk_paper_returns (self : Chunker.TextChunker)
    (title abstract : string) (sections : option (list (string * string)))
    (fuel : nat) :
  words_overlap self None < words_per_chunk self None ->
  (length (cleaned_words (title_and_abstract title abstract)) < fuel)%nat ->
  Forall (fun sec => (length (cleaned_words sec.2) < fuel)%nat)
    (default [] sections) ->
  is_Some (Sentences.chunk_paper fuel self title abstract sections).
Proof.
  intros Hov Hhead Hsecs.
  unfold Sentences.chunk_paper. fold (title_and_abstract title abstract).
  destruct (chunk_by_tokens_fuel self (title_and_abstract title abstract)
              None None (or_intror Hov)) as [abstract_chunks Ha].
  rewrite (Ha fuel Hhead).
  destruct sections as [sections|]; [|eauto].
  apply chunk_sections_returns.
  eapply List.Forall_impl; [|exact Hsecs].
  intros [name body] Hf.
  destruct (chunk_by_tokens_fuel self body None None (or_intror Hov))
    as [cs Hcs].
  exists cs. now apply Hcs.
Qed.

Lemma chunk_paper_returns_witness :
  is_Some (Sentences.chunk_paper 9 (Chunker.init None None)
             "Gene editing" "CRISPR cuts DNA in living cells."
             (Some [("Methods", "we did things [1] well")])).
Proof.
  apply (chunk_paper_returns (Chunker.init None None)
           "Gene editing" "CRISPR cuts DNA in living cells."
           (Some [("Methods", "we did things [1] well")]) 9).
  - vm_compute. reflexivity.
  - vm_compute. lia.
  - repeat constructor.
Defined.

(** ** Normalisation of scores *)

Lemma min_list_le (l : list Q) : forall x,
  (Store.min_list x l <= x)%Q
  /\ forall y, In y l -> (Store.min_list x l <= y)%Q.
Proof.
  unfold Store.min_list.
  induction l as [|a l IH]; intros x; simpl.
  - split; [apply Qle_refl|intros y []].
  - destruct (IH (Num.min x a)) as [H1 H2].
    destruct (min_cases x a) as [[E Hlt]|[E Hle]]; rewrite E in *.
    + split; [eapply Qle_trans; [exact H1|apply Qlt_le_weak, Hlt]|].
      intros y [<-|Hy]; auto.
    + split; [exact H1|].
      intros y [<-|Hy]; [eapply Qle_trans; eauto|auto].
Qed.

Section MinMax.
Variables (x : Q) (l : list Q) (target_min target_max : Q).
Hypothesis Htarget : (target_min <= target_max)%Q.
Hypothesis Hspread :
  Qeq_bool (Num.max_list x l) (Store.min_list x l) = false.

Lemma spread_pos : (Store.min_list x l < Num.max_list x l)%Q.
Proof.
  destruct (min_list_le l x) as [Hm _].
  destruct (max_list_ge l x) as [HM _].
  destruct (Qle_lt_or_eq _ _ (Qle_trans _ _ _ Hm HM)) as [H|H];
    [exact H|].
  exfalso. apply Qeq_bool_neq in Hspread. apply Hspread. now symmetry.
Qed.

Lemma min_max_inside (s : Q) :
  In s (x :: l) ->
  (Store.min_list x l <= s <= Num.max_list x l)%Q.
Proof.
  destruct (min_list_le l x) as [Hm Hm'].
  destruct (max_list_ge l x) as [HM HM'].
  intros [<-|Hs]; split; auto.
Qed.

Lemma scaled_inside (s : Q) :
  In s (x :: l) ->
  in_range target_min target_max
    (target_min
     + (s - Store.min_list x l)
       / (Num.max_list x l - Store.min_list x l)
       * (target_max - target_min))%Q.
Proof.
  intros Hs. pose proof spread_pos as Hpos.
  destruct (min_max_inside s Hs) as [Hlo Hhi].
  set (m := Store.min_list x l) in *. set (M := Num.max_list x l) in *.
  assert (Hd0 : (0 <= (s - m) / (M - m))%Q)
    by (apply Qle_shift_div_l; lra).
  assert (Hd1 : ((s - m) / (M - m) <= 1)%Q)
    by (apply Qle_shift_div_r; lra).
  unfold in_range. split; nra.
Qed.

Lemma scaled_mono (s t : Q) :
  (s <= t)%Q ->
  (target_min
   + (s - Store.min_list x l)
     / (Num.max_list x l - Store.min_list x l)
     * (target_max - target_min)
   <= target_min
      + (t - Store.min_list x l)
        / (Num.max_list x l - Store.min_list x l)
        * (target_max - target_min))%Q.
Proof.
  intros Hst. pose proof spread_pos as Hpos.
  set (m := Store.min_list x l) in *. set (M := Num.max_list x l) in *.
  assert (Hd : ((s - m) / (M - m) <= (t - m) / (M - m))%Q).
  { apply Qle_shift_div_l; [lra|].
    unfold Qdiv. rewrite <- Qmult_assoc, (Qmult_comm (/ (M - m))).
    rewrite Qmult_inv_r by lra. lra. }
  nra.
Qed.
End MinMax.



(** X14: [_normalize_dense_score] does not keep the order of the cosine
    similarities: a negative similarity [s] is mapped to [(s + 1) / 2],
    which is above the image of every similarity [t >= 0] with
    [2 t < s + 1]. *)
Theorem normalize_dense_not_monotone (s t : Q) :
  (-1 <= s)%Q -> (s < 0)%Q -> (0 <= t)%Q -> (2 * t < s + 1)%Q ->
  (s < t)%Q
  /\ (VectorDB._normalize_dense_score t
      < VectorDB._normalize_dense_score s)%Q.
Proof.
  intros Hs1 Hs0 Ht Hst. split; [lra|].
  unfold VectorDB._normalize_dense_score.
  apply Qltb_lt in Hs0 as Es. rewrite Es.
  assert (Et : Num.Qltb t 0 = false) by (now apply Qltb_ge).
  rewrite Et.
  assert (Hhalf : ((s + 1) / 2 == (s + 1) * (1 # 2))%Q) by reflexivity.
  destruct (min_cases 1 t) as [[-> H1]|[-> H1]]; [|lra].
  destruct (min_cases 1 ((s + 1) / 2)) as [[-> H2]|[-> H2]];
    [|rewrite Hhalf in H2; lra].
  destruct (max_cases 0 t) as [[-> H3]|[-> H3]];
    destruct (max_cases 0 ((s + 1) / 2)) as [[-> H4]|[-> H4]];
    rewrite ?Hhalf in *; lra.
Qed.

Lemma normalize_dense_not_monotone_witness :
  (- (1 # 5) < 1 # 10)%Q
  /\ (VectorDB._normalize_dense_score (1 # 10)
      < VectorDB._normalize_dense_score (- (1 # 5)))%Q.
Proof.
  apply (normalize_dense_not_monotone (- (1 # 5)) (1 # 10));
    reflexivity || (intros H; discriminate H).
Defined.

(** Rounding keeps the order. *)
Lemma round_half_even_mono (x y : Q) :
  (x <= y)%Q -> Py.round_half_even x <= Py.round_half_even y.
Proof.
  intros Hxy. unfold Py.round_half_even.
  pose proof (Qfloor_resp_le _ _ Hxy) as Hf.
  pose proof (Qfloor_le x) as Hx. pose proof (Qlt_floor x) as Hx'.
  pose proof (Qfloor_le y) as Hy. pose proof (Qlt_floor y) as Hy'.
  destruct (Z.eq_dec (Qfloor x) (Qfloor y)) as [E|E].
  - rewrite E in *.
    destruct (Qcompare_spec (x - inject_Z (Qfloor y)) (1 # 2)) as [Ex|Ex|Ex];
      destruct (Qcompare_spec (y - inject_Z (Qfloor y)) (1 # 2))
        as [Ey|Ey|Ey];
      destruct (Z.even (Qfloor y)); try lia; exfalso; lra.
  - assert (Hlt : Qfloor x + 1 <= Qfloor y) by lia.
    destruct (_ ?= _)%Q; destruct (_ ?= _)%Q;
      repeat destruct (Z.even _); lia.
Qed.

Lemma round_mono (x y : Q) (n : nat) :
  (x <= y)%Q -> (Py.round x n <= Py.round y n)%Q.
Proof.
  intros Hxy. unfold Py.round.
  set (p := 10 ^ Z.of_nat n).
  assert (Hp : 0 < p) by (apply Z.pow_pos_nonneg; lia).
  assert (HpQ : (0 < inject_Z p)%Q) by (apply inject_Z_pos, Hp).
  assert (Hr : Py.round_half_even (x * inject_Z p)
               <= Py.round_half_even (y * inject_Z p))
    by (apply round_half_even_mono; nra).
  rewrite Zle_Qle in Hr.
  apply Qle_shift_div_l; [exact HpQ|].
  unfold Qdiv. rewrite <- Qmult_assoc, (Qmult_comm (/ inject_Z p)).
  rewrite Qmult_inv_r by lra. lra.
Qed.

Lemma normalize_sparse_range (s : Q) :
  in_range 0 30 (VectorDB._normalize_sparse_score s).
Proof.
  split; [apply normalize_sparse_nonneg|].
  unfold VectorDB._normalize_sparse_score.
  destruct (Qle_bool s 0); [intros H; discriminate H|].
  apply Qle_trans with (Py.round 30 2).
  - apply round_mono.
    destruct (min_cases (s * 3) 30) as [[-> H]|[-> H]]; lra.
  - intros H. discriminate H.
Qed.

Lemma normalize_sparse_mono (s t : Q) :
  (s <= t)%Q ->
  (VectorDB._normalize_sparse_score s
   <= VectorDB._normalize_sparse_score t)%Q.
Proof.
  intros Hst. pose proof (normalize_sparse_nonneg t) as Ht.
  unfold VectorDB._normalize_sparse_score in *.
  destruct (Qle_bool s 0) eqn:Es; [exact Ht|].
  assert (Hs : (0 < s)%Q).
  { apply Qnot_le_lt. intros H. apply Qle_bool_iff in H. congruence. }
  destruct (Qle_bool t 0) eqn:Et; [apply Qle_bool_iff in Et; lra|].
  apply round_mono.
  destruct (min_cases (s * 3) 30) as [[-> H]|[-> H]];
    destruct (min_cases (t * 3) 30) as [[-> H']|[-> H']]; lra.
Qed.

(** ** The result lists of the searches *)

Lemma StronglySorted_sublist {A} (R : A -> A -> Prop) (l k : list A) :
  l `sublist_of` k -> StronglySorted R k -> StronglySorted R l.
Proof.
  induction 1 as [|x l k Hs IH|x l k Hs IH]; intros Hk.
  - constructor.
  - apply StronglySorted_inv in Hk as [Hk Hall].
    constructor; [now apply IH|]. eapply Forall_sublist; eassumption.
  - apply StronglySorted_inv in Hk as [Hk _]. now apply IH.
Qed.

Lemma slice_to_length {A} (l : list A) (top_k : Z) :
  at_most top_k (Py.slice_to l top_k).
Proof.
  intros Hk. unfold Py.slice_to, Py.slice, Py.len.
  rewrite !clamp_nonneg by lia. rewrite length_take. lia.
Qed.

Lemma descending_nil : descending [].
Proof. apply SSorted_nil. Qed.

Lemma at_most_nil {A} (top_k : Z) : at_most top_k (@nil A).
Proof. intros H. exact H. Qed.

Lemma sorted_slice {A} (key : A -> Q) (l : list A) (top_k : Z) :
  StronglySorted (ge_key key) (Py.slice_to (Num.sort_desc key l) top_k).
Proof.
  eapply StronglySorted_sublist; [apply slice_sublist|].
  apply sort_desc_sorted.
Qed.

Lemma Forall_slice {A} (P : A -> Prop) (l : list A) (a b : Z) :
  Forall P l -> Forall P (Py.slice l a b).
Proof. apply Forall_sublist, slice_sublist. Qed.

Lemma Forall_sort_desc {A} (P : A -> Prop) (key : A -> Q) (l : list A) :
  Forall P l -> Forall P (Num.sort_desc key l).
Proof.
  rewrite !List.Forall_forall. intros H x Hx. apply H.
  now apply (Permutation_in _ (Permutation_sym (sort_desc_perm key l))).
Qed.

(** A list sorted by a key stays sorted when every element is replaced
    by one whose key is a monotone image of its key. *)
Lemma sorted_Forall2 {A B} (ka : A -> Q) (kb : B -> Q) (f : Q -> Q)
    (l : list A) (k : list B) :
  (forall x y, (x <= y)%Q -> (f x <= f y)%Q) ->
  Forall2 (fun a b => kb b = f (ka a)) l k ->
  StronglySorted (ge_key ka) l -> StronglySorted (ge_key kb) k.
Proof.
  intros Hf. induction 1 as [|a b l k Hab Hlk IH]; intros Hs; [constructor|].
  apply StronglySorted_inv in Hs as [Hs Hall].
  constructor; [now apply IH|].
  clear IH Hs. induction Hlk as [|a' b' l k Hab' Hlk IH]; [constructor|].
  apply Forall_cons_1 in Hall as [Ha Hall].
  constructor; [|now apply IH].
  unfold ge_key in *. rewrite Hab, Hab'. now apply Hf.
Qed.

Section Hits.
Import VectorDB.

Lemma search_loop_hits self query_terms (documents doc_ids : list string)
    (docs : list (nat * (string * string))) :
  (forall idx doc doc_id, In (idx, (doc, doc_id)) docs ->
     documents !! idx = Some doc /\ doc_ids !! idx = Some doc_id) ->
  forall results hits,
    Forall (positive_hit documents doc_ids) results ->
    search_loop self query_terms docs results = Some hits ->
    Forall (positive_hit documents doc_ids) hits.
Proof.
  induction docs as [|[idx [doc doc_id]] docs IH];
    intros Hdocs results hits Hr H.
  - injection H as <-. exact Hr.
  - cbn [search_loop] in H.
    destruct (score self query_terms idx doc) as [[s ts]|]; [|discriminate H].
    assert (Hrest : forall idx doc doc_id, In (idx, (doc, doc_id)) docs ->
              documents !! idx = Some doc /\ doc_ids !! idx = Some doc_id)
      by (intros i' d' id' Hin; apply Hdocs; now right).
    destruct (Num.Qltb 0 s) eqn:Hs; [|now apply (IH Hrest results)].
    apply (IH Hrest _ _) in H; [exact H|].
    apply Forall_app. split; [exact Hr|].
    constructor; [|constructor].
    destruct (Hdocs idx doc doc_id (or_introl eq_refl)) as [Hd Hi].
    split; [now apply Qltb_lt|]. split; [apply slice_to_length; lia|].
    split; [now exists doc|exact Hi].
Qed.

Lemma search_hits_sorted w self query (documents doc_ids : list string)
    top_k hits :
  search w self query documents doc_ids top_k = Some hits ->
  descending_hits hits.
Proof.
  unfold search. intros H.
  destruct (search_loop _ _ _ _) as [results|]; [|discriminate H].
  injection H as <-. apply sorted_slice.
Qed.
End Hits.

(** X15: the hits of [SPLADESearch.search] are sorted by non-increasing
    score; each has a positive score, at most five matched terms and
    the position and id of a document of the call; there are at most
    [top_k] of them when [top_k] is not negative. *)
Theorem splade_search_hits (w : VectorDB.World)
    (self : VectorDB.SPLADESearch) (query : string)
    (documents doc_ids : list string) (top_k : Z)
    (hits : list VectorDB.SparseHit) :
  VectorDB.search w self query documents doc_ids top_k = Some hits ->
  descending_hits hits
  /\ Forall (positive_hit documents doc_ids) hits
  /\ at_most top_k hits.
Proof.
  unfold VectorDB.search. intros H.
  destruct (VectorDB.search_loop _ _ _ _) as [results|] eqn:El;
    [|discriminate H].
  injection H as <-. split; [apply sorted_slice|].
  split; [|apply slice_to_length].
  apply Forall_slice, Forall_sort_desc.
  eapply search_loop_hits; [|constructor|exact El].
  intros idx doc doc_id Hin. apply enumerate_lookup in Hin.
  apply lookup_zip_with_Some in Hin as (a & b & [= -> ->] & Ha & Hb).
  now split.
Qed.

Lemma splade_search_hits_witness :
  exists hits,
    VectorDB.search Examples.world_offline
      (VectorDB.fit Examples.log_approx VectorDB.SPLADESearch_new
         ["CRISPR gene editing"; "finance"; "gene therapy gene"]
         ["a"; "b"; "c"])
      "gene" ["CRISPR gene editing"; "finance"; "gene therapy gene"]
      ["a"; "b"; "c"] 2 = Some hits
    /\ descending_hits hits
    /\ Forall (positive_hit
                 ["CRISPR gene editing"; "finance"; "gene therapy gene"]
                 ["a"; "b"; "c"]) hits
    /\ at_most 2 hits.
Proof.
  eexists. split; [vm_compute; reflexivity|].
  apply (splade_search_hits Examples.world_offline
           (VectorDB.fit Examples.log_approx VectorDB.SPLADESearch_new
              ["CRISPR gene editing"; "finance"; "gene therapy gene"]
              ["a"; "b"; "c"])
           "gene"
           ["CRISPR gene editing"; "finance"; "gene therapy gene"]
           ["a"; "b"; "c"] 2).
  vm_compute. reflexivity.
Defined.

Section SparseResults.
Import VectorDB.

Lemma sparse_result_spec self (h : SparseHit) (r : Result) :
  sparse_result self h = Some r ->
  sparse_only_result r /\ of_document self r
  /\ r_score r = _normalize_sparse_score (h_score h).
Proof.
  unfold sparse_result.
  destruct (documents self !! h_idx h) as [d|] eqn:Ed; [|discriminate].
  intros [= <-]. split; [|split; [|reflexivity]].
  - split; [apply normalize_sparse_range|]. now repeat split.
  - exists d. split; [|now repeat split].
    eapply list_elem_of_In, list_elem_of_lookup_2, Ed.
Qed.

End SparseResults.

(** X16: the results of [search_sparse] are sorted by non-increasing
    score; each reports a document of the store, has a score between 0
    and 30 that is also its sparse score, and no dense score; there are
    at most [top_k] of them when [top_k] is not negative. *)
Theorem search_sparse_results (w : VectorDB.World)
    (self : VectorDB.HybridVectorStore) (query : string) (top_k : Z)
    (results : list VectorDB.Result) :
  VectorDB.search_sparse w self query top_k = Some results ->
  descending results
  /\ Forall sparse_only_result results
  /\ Forall (of_document self) results
  /\ at_most top_k results.
Proof.
  assert (Hnil : descending [] /\ Forall sparse_only_result []
                 /\ Forall (of_document self) []
                 /\ at_most top_k (@nil VectorDB.Result))
    by (repeat apply conj;
        [apply descending_nil|apply List.Forall_nil..|apply at_most_nil]).
  unfold VectorDB.search_sparse.
  destruct (VectorDB.documents self) eqn:Ed; [now intros [= <-]|].
  rewrite <- Ed. clear Ed.
  destruct (negb (VectorDB._splade_fitted self)); [now intros [= <-]|].
  destruct (VectorDB.search w (VectorDB.splade self) query _ _ _) as [hits|] eqn:Eh;
    [|discriminate].
  destruct (mapM (VectorDB.sparse_result self) hits) as [rs|] eqn:Em; [|discriminate].
  intros [= <-]. apply mapM_Some in Em.
  apply search_hits_sorted in Eh as Hsorted.
  assert (Hall : Forall (fun r => sparse_only_result r /\ of_document self r)
                   rs).
  { apply List.Forall_forall. intros r Hr.
    apply list_elem_of_In, list_elem_of_lookup_1 in Hr as [i Hi].
    destruct (Forall2_lookup_r _ _ _ _ _ Em Hi) as (h & _ & Hh).
    apply sparse_result_spec in Hh as (H1 & H2 & _). now split. }
  split; [|split; [|split]].
  - eapply StronglySorted_sublist; [apply slice_sublist|].
    eapply (sorted_Forall2 VectorDB.h_score VectorDB.r_score
              VectorDB._normalize_sparse_score);
      [apply normalize_sparse_mono| |exact Hsorted].
    eapply Forall2_impl; [exact Em|].
    intros h r Hh. now apply sparse_result_spec in Hh as (_ & _ & E).
  - apply Forall_slice. eapply List.Forall_impl; [|exact Hall]. now intros r [].
  - apply Forall_slice. eapply List.Forall_impl; [|exact Hall]. now intros r [].
  - apply slice_to_length.
Qed.

Lemma search_sparse_results_witness :
  exists results,
    VectorDB.search_sparse Examples.world_offline Examples.two_papers
      "gene editing" 5 = Some results
    /\ descending results
    /\ Forall sparse_only_result results
    /\ Forall (of_document Examples.two_papers) results
    /\ at_most 5 results.
Proof.
  eexists. split; [vm_compute; reflexivity|].
  apply (search_sparse_results Examples.world_offline Examples.two_papers
           "gene editing" 5).
  vm_compute. reflexivity.
Defined.

Section DenseResults.
Import VectorDB.

Lemma search_dense_in_memory_spec w self query_embedding top_k :
  descending (search_dense_in_memory w self query_embedding top_k)
  /\ Forall dense_only_result
       (search_dense_in_memory w self query_embedding top_k)
  /\ Forall (of_document self)
       (search_dense_in_memory w self query_embedding top_k)
  /\ at_most top_k (search_dense_in_memory w self query_embedding top_k).
Proof.
  unfold search_dense_in_memory.
  split; [apply sorted_slice|].
  assert (Hall : Forall (fun r => dense_only_result r /\ of_document self r)
            (omap (fun doc =>
                     match d_embedding doc with
                     | Some e =>
                         Some (dense_result (d_id doc) (d_text doc)
                                 (_normalize_dense_score
                                    (cosine w query_embedding e))
                                 (d_metadata doc) "in_memory")
                     | None => None
                     end) (documents self))).
  { apply List.Forall_forall. intros r Hr.
    apply list_elem_of_In, list_elem_of_omap in Hr as (d & Hd & Hr).
    destruct (d_embedding d); [|discriminate].
    injection Hr as <-. split.
    - split; [|now repeat split].
      apply round_unit_interval, normalize_dense_unit.
    - exists d. split; [now apply list_elem_of_In|now repeat split]. }
  split; [|split; [|apply slice_to_length]].
  - apply Forall_slice, Forall_sort_desc.
    eapply List.Forall_impl; [|exact Hall]. now intros r [].
  - apply Forall_slice, Forall_sort_desc.
    eapply List.Forall_impl; [|exact Hall]. now intros r [].
Qed.
End DenseResults.

(** X17: when Qdrant is not in use or its query raises, the results of
    [search_dense] are sorted by non-increasing score; each reports a
    document of the store, has a score between 0 and 1 that is also its
    dense score, and no sparse score; there are at most [top_k] of them
    when [top_k] is not negative. *)
Theorem search_dense_in_memory_results (w : VectorDB.World)
    (self : VectorDB.HybridVectorStore) (query : string) (top_k : Z) :
  (VectorDB.use_qdrant self = false
   \/ forall v, VectorDB.query_points w v top_k = None) ->
  descending (VectorDB.search_dense w self query top_k)
  /\ Forall dense_only_result (VectorDB.search_dense w self query top_k)
  /\ Forall (of_document self) (VectorDB.search_dense w self query top_k)
  /\ at_most top_k (VectorDB.search_dense w self query top_k).
Proof.
  intros Hmem.
  assert (Hnil : descending [] /\ Forall dense_only_result []
                 /\ Forall (of_document self) []
                 /\ at_most top_k (@nil VectorDB.Result))
    by (repeat apply conj;
        [apply descending_nil|apply List.Forall_nil..|apply at_most_nil]).
  unfold VectorDB.search_dense.
  destruct (VectorDB.documents self) eqn:Ed; [exact Hnil|].
  clear Ed.
  destruct (VectorDB.get_embedding w query) as [qe|]; [|exact Hnil].
  destruct (VectorDB.use_qdrant self) eqn:Eq;
    [|apply search_dense_in_memory_spec].
  destruct Hmem as [Hmem|Hmem]; [discriminate Hmem|].
  rewrite Hmem. apply search_dense_in_memory_spec.
Qed.

Lemma search_dense_in_memory_results_witness :
  descending
    (VectorDB.search_dense Examples.world_forward Examples.two_papers
       "gene" 1)
  /\ Forall dense_only_result
       (VectorDB.search_dense Examples.world_forward Examples.two_papers
          "gene" 1)
  /\ Forall (of_document Examples.two_papers)
       (VectorDB.search_dense Examples.world_forward Examples.two_papers
          "gene" 1)
  /\ at_most 1
       (VectorDB.search_dense Examples.world_forward Examples.two_papers
          "gene" 1).
Proof.
  apply (search_dense_in_memory_results Examples.world_forward
           Examples.two_papers "gene" 1).
  left. reflexivity.
Defined.

(** X18: the results of [search_hybrid] are sorted by non-increasing
    fused score, carry the engine name "hybrid", and there are at most
    [top_k] of them when [top_k] is not negative; when iterating a set
    yields each element once, no id is reported twice. *)
Theorem search_hybrid_results (w : VectorDB.World)
    (self : VectorDB.HybridVectorStore) (query : string) (top_k : Z)
    (dense_weight : Q) (results : list VectorDB.Result) :
  set_iter_valid w ->
  VectorDB.search_hybrid w self query top_k dense_weight = Some results ->
  descending results
  /\ Forall (fun r => VectorDB.r_search_engine r = "hybrid") results
  /\ NoDup (map VectorDB.r_id results)
  /\ at_most top_k results.
Proof.
  intros Hiter. unfold VectorDB.search_hybrid.
  destruct (VectorDB.documents self) eqn:Ed.
  { intros [= <-]. repeat apply conj;
      [apply descending_nil|apply List.Forall_nil|apply NoDup_nil_2
      |apply at_most_nil]. }
  clear Ed.
  destruct (VectorDB.hybrid_combined w self query dense_weight)
    as [combined|] eqn:Ec; [|discriminate].
  intros [= <-]. unfold VectorDB.hybrid_combined in Ec.
  destruct (VectorDB.search_sparse w self query _) as [sparse|];
    [|discriminate Ec].
  injection Ec as <-.
  match goal with
  | |- context [omap ?f (VectorDB.set_iter w ?s)] =>
      set (comb := f); set (ids := s)
  end.
  split; [apply sorted_slice|]. split; [|split; [|apply slice_to_length]].
  - apply Forall_slice, Forall_sort_desc, List.Forall_forall.
    intros r Hr.
    apply list_elem_of_In, list_elem_of_omap in Hr as (doc_id & _ & Hr).
    unfold comb, VectorDB.combine in Hr.
    destruct (match VectorDB.first_where _ (VectorDB.documents self) with
              | Some d => _ | None => _ end) as [[text metadata]|];
      [|discriminate Hr].
    now injection Hr as <-.
  - assert (Hnd : NoDup (map VectorDB.r_id (omap comb (VectorDB.set_iter w ids)))).
    { eapply sublist_NoDup;
        [|apply (omap_key_sublist comb VectorDB.r_id)].
      - apply NoDup_ListNoDup.
        eapply Permutation_NoDup; [apply Permutation_sym, Hiter|].
        apply NoDup_ListNoDup, NoDup_elements.
      - intros x y Hxy. unfold comb in Hxy.
        now apply combine_id in Hxy. }
    eapply sublist_NoDup;
      [|apply (fmap_sublist VectorDB.r_id), slice_sublist].
    apply NoDup_ListNoDup.
    eapply Permutation_NoDup; [apply Permutation_map, sort_desc_perm|].
    apply NoDup_ListNoDup, Hnd.
Qed.

Lemma search_hybrid_results_witness :
  exists results,
    VectorDB.search_hybrid Examples.world_forward Examples.two_papers
      "gene editing" 5 (7 # 10) = Some results
    /\ descending results
    /\ Forall (fun r => VectorDB.r_search_engine r = "hybrid") results
    /\ NoDup (map VectorDB.r_id results)
    /\ at_most 5 results.
Proof.
  eexists. split; [vm_compute; reflexivity|].
  apply (search_hybrid_results Examples.world_forward Examples.two_papers
           "gene editing" 5 (7 # 10));
    [intros s; reflexivity|vm_compute; reflexivity].
Defined.

(** ** The lexical index: counts, errors and ingestion *)

Section Counts.
Import VectorDB.

Lemma Counter_fold (term : string) (l : list string) :
  forall m : gmap string Z,
    default 0 (foldl (fun m t => <[t := default 0 (m !! t) + 1]> m) m l
               !! term)
    = default 0 (m !! term) + Py.len (List.filter (String.eqb term) l).
Proof.
  induction l as [|t l IH]; intros m.
  - unfold Py.len. simpl. lia.
  - cbn [foldl List.filter]. rewrite IH.
    destruct (String.eqb_spec term t) as [->|Hne].
    + rewrite lookup_insert_eq. unfold Py.len. simpl. lia.
    + rewrite lookup_insert_ne by congruence. reflexivity.
Qed.

Lemma Counter_In (term : string) (l : list string) :
  default 0 (Counter l !! term) <> 0 <-> In term l.
Proof.
  unfold Counter. rewrite Counter_fold, lookup_empty. simpl.
  induction l as [|t l IH]; simpl.
  - unfold Py.len. simpl. split; [lia|tauto].
  - destruct (String.eqb_spec term t) as [->|Hne].
    + split; [now left|]. intros _. unfold Py.len. simpl. lia.
    + rewrite IH. split; [now right|]. intros [E|H]; [congruence|exact H].
Qed.

Lemma positive_counts_lookup (df : gmap string Z) (t : string) (c : Z) :
  positive_counts df -> default 0 (df !! t) = c ->
  df !! t = if c =? 0 then None else Some c.
Proof.
  intros Hp Hc. destruct (df !! t) as [k|] eqn:E; simpl in Hc; subst c.
  - apply Hp in E. now destruct (Z.eqb_spec k 0); [lia|].
  - reflexivity.
Qed.

Lemma df_step (term : string) (df : gmap string Z) (X : gset string) :
  positive_counts df ->
  positive_counts
    (set_fold (fun term df => <[term := default 0 (df !! term) + 1]> df)
       df X)
  /\ default 0
       (set_fold (fun term df => <[term := default 0 (df !! term) + 1]> df)
          df X !! term)
     = default 0 (df !! term) + (if decide (term ∈ X) then 1 else 0).
Proof.
  intros Hp.
  set (f := fun (term : string) (df : gmap string Z) =>
              <[term := default 0 (df !! term) + 1]> df).
  set (P := fun (r : gmap string Z) (Y : gset string) =>
              positive_counts r
              /\ default 0 (r !! term)
                 = default 0 (df !! term)
                   + (if decide (term ∈ Y) then 1 else 0)).
  change (P (set_fold f df X) X).
  apply (set_fold_ind_L P f df); unfold P, f; clear P f.
  - split; [exact Hp|]. rewrite decide_False by set_solver. lia.
  - intros x Y r Hx [Hr Hl]. split.
    + intros t k. destruct (decide (x = t)) as [->|Hne].
      * rewrite lookup_insert_eq. intros [= <-].
        destruct (r !! t) as [k|] eqn:E; simpl; [apply Hr in E; lia|lia].
      * rewrite lookup_insert_ne by exact Hne. apply Hr.
    + destruct (decide (x = term)) as [->|Hne].
      * rewrite lookup_insert_eq. simpl. rewrite Hl.
        rewrite decide_False by exact Hx.
        rewrite decide_True by set_solver. lia.
      * rewrite lookup_insert_ne by exact Hne. rewrite Hl.
        destruct (decide (term ∈ Y)).
        -- rewrite decide_True by set_solver. reflexivity.
        -- rewrite decide_False by set_solver. reflexivity.
Qed.

Lemma containing_cons (term doc : string) (docs : list string) :
  containing term (doc :: docs)
  = (if decide (term ∈ (list_to_set (_tokenize doc) : gset string))
     then 1 else 0) + containing term docs.
Proof.
  unfold containing, Py.len. cbn [List.filter].
  destruct (bool_decide (term ∈ _tokenize doc)) eqn:E.
  - apply bool_decide_eq_true in E.
    rewrite decide_True by (now apply elem_of_list_to_set). simpl. lia.
  - apply bool_decide_eq_false in E.
    rewrite decide_False by (now rewrite elem_of_list_to_set). lia.
Qed.

Lemma fit_step_freqs (term : string) (l : list (string * string)) :
  forall lens freqs weights,
    positive_counts freqs ->
    positive_counts (foldl fit_step (lens, freqs, weights) l).1.2
    /\ default 0 ((foldl fit_step (lens, freqs, weights) l).1.2 !! term)
       = default 0 (freqs !! term) + containing term (map snd l).
Proof.
  induction l as [|[doc_id doc] l IH]; intros lens freqs weights Hp.
  - split; [exact Hp|]. unfold containing, Py.len. simpl. lia.
  - cbn [foldl]. unfold fit_step at 2 4.
    destruct (df_step term freqs (list_to_set (_tokenize doc)) Hp)
      as [Hp' Hl].
    destruct (IH (lens ++ [Py.len (_tokenize doc)]) _
                (<[doc_id := (fun freq : Z =>
                                if 0 <? Py.len (_tokenize doc)
                                then (inject_Z freq
                                      / inject_Z (Py.len (_tokenize doc)))%Q
                                else 0%Q) <$> Counter (_tokenize doc)]>
                   weights) Hp') as [Hp'' Hl''].
    split; [exact Hp''|].
    rewrite Hl'', Hl. cbn [map snd]. rewrite containing_cons. lia.
Qed.

Lemma fit_doc_freqs_lookup log self (documents doc_ids : list string)
    (term : string) :
  length doc_ids = length documents ->
  doc_freqs (fit log self documents doc_ids) !! term
  = df_entry term documents.
Proof.
  intros Hlen. unfold fit, df_entry.
  destruct (fit_step_freqs term (zip doc_ids documents) [] ∅ ∅)
    as [Hp Hl]; [intros t k H; rewrite lookup_empty in H; discriminate H|].
  destruct (foldl fit_step _ _) as [[lens freqs] weights].
  cbn [doc_freqs]. simpl in Hp, Hl.
  rewrite lookup_empty in Hl. simpl in Hl.
  assert (Hsnd : map snd (zip doc_ids documents) = documents).
  { change (map snd (zip doc_ids documents))
      with ((zip doc_ids documents).*2).
    apply snd_zip. lia. }
  rewrite Hsnd in Hl. now apply positive_counts_lookup.
Qed.

Lemma containing_app (term : string) (a b : list string) :
  containing term (a ++ b) = containing term a + containing term b.
Proof.
  unfold containing, Py.len. rewrite List.filter_app, length_app. lia.
Qed.

Lemma containing_nonneg (term : string) (docs : list string) :
  0 <= containing term docs.
Proof. unfold containing, Py.len. lia. Qed.
End Counts.

(** X19: [fit] of a new index on as many ids as documents records the
    number of documents, for every term the number of documents that
    have it among their tokens (no entry when there is none), and as
    idf of the term [log((n - df + 0.5) / (df + 0.5) + 1)]. *)
Theorem fit_document_frequencies (log : Q -> Q) (k1 b : Q)
    (documents doc_ids : list string) (term : string) :
  length doc_ids = length documents ->
  let index :=
    VectorDB.fit log (VectorDB.SPLADESearch_init k1 b) documents doc_ids in
  VectorDB.n_docs index = Py.len documents
  /\ VectorDB.doc_freqs index !! term = df_entry term documents
  /\ VectorDB.idf index !! term
     = option_map (idf_of log (Py.len documents))
         (df_entry term documents).
Proof.
  intros Hlen index.
  pose proof (fit_doc_freqs_lookup log (VectorDB.SPLADESearch_init k1 b)
                documents doc_ids term Hlen) as Hdf.
  pose proof (fit_idf log (VectorDB.SPLADESearch_init k1 b)
                documents doc_ids) as Hidf.
  fold index in Hdf, Hidf. split; [|split; [exact Hdf|]].
  - unfold index, VectorDB.fit.
    now destruct (foldl VectorDB.fit_step _ _) as [[lens freqs] weights].
  - rewrite Hidf. cbn [VectorDB.idf VectorDB.SPLADESearch_init].
    rewrite (right_id_L ∅ (∪)), lookup_fmap, Hdf.
    now destruct (df_entry term documents).
Qed.

Lemma fit_document_frequencies_witness :
  let index :=
    VectorDB.fit Examples.log_approx
      (VectorDB.SPLADESearch_init (15 # 10) (75 # 100))
      ["gene editing"; "finance"; "gene therapy gene"] ["a"; "b"; "c"] in
  VectorDB.n_docs index = 3
  /\ VectorDB.doc_freqs index !! "gene" = Some 2
  /\ VectorDB.idf index !! "gene"
     = option_map (idf_of Examples.log_approx 3) (Some 2).
Proof.
  apply (fit_document_frequencies Examples.log_approx (15 # 10) (75 # 100)
           ["gene editing"; "finance"; "gene therapy gene"]
           ["a"; "b"; "c"] "gene").
  reflexivity.
Defined.

Section ScoreErrors.
Import VectorDB.
Variables (self : SPLADESearch) (doc_len : Z) (term_freqs : gmap string Z)
  (doc_text : string).

Lemma score_loop_none (query_terms : list (string * Q)) :
  forall s ts,
    score_loop self doc_len term_freqs doc_text query_terms s ts = None ->
    Qeq_bool (avg_doc_len self) 0 = true
    /\ exists tw, In tw query_terms /\ divides self term_freqs tw.
Proof.
  induction query_terms as [|[t q] l IH]; intros s ts H; [discriminate H|].
  assert (Hrest : forall s ts,
            score_loop self doc_len term_freqs doc_text l s ts = None ->
            Qeq_bool (avg_doc_len self) 0 = true
            /\ exists tw, In tw ((t, q) :: l) /\ divides self term_freqs tw).
  { intros s' ts' H'. destruct (IH _ _ H') as (Ha & tw & Hin & Hd).
    split; [exact Ha|]. exists tw. split; [now right|exact Hd]. }
  cbn [score_loop] in H. fold (is_phrase t) in H.
  destruct (is_phrase t) eqn:Ep.
  - destruct (Py.contains t (Py.lower doc_text)); eapply Hrest, H.
  - destruct (idf self !! t) as [idf_t|] eqn:Ei; [|eapply Hrest, H].
    destruct (default 0 (term_freqs !! t) =? 0) eqn:Etf; [eapply Hrest, H|].
    destruct (Qeq_bool (avg_doc_len self) 0) eqn:Ea; [|eapply Hrest, H].
    split; [reflexivity|]. exists (t, q). split; [now left|].
    split; [exact Ep|]. split; [simpl; rewrite Ei; eauto|].
    simpl. now apply Z.eqb_neq.
Qed.

Lemma score_loop_divides (query_terms : list (string * Q)) :
  Qeq_bool (avg_doc_len self) 0 = true ->
  (exists tw, In tw query_terms /\ divides self term_freqs tw) ->
  forall s ts,
    score_loop self doc_len term_freqs doc_text query_terms s ts = None.
Proof.
  intros Ha. induction query_terms as [|[t q] l IH]; intros (tw & Hin & Hd);
    [destruct Hin|].
  intros s ts. cbn [score_loop]. fold (is_phrase t).
  destruct Hin as [<-|Hin].
  - destruct Hd as (Hp & [idf_t Hi] & Htf). simpl in *.
    rewrite Hp, Hi. apply Z.eqb_neq in Htf. rewrite Htf, Ha. reflexivity.
  - assert (Hl : forall s ts,
              score_loop self doc_len term_freqs doc_text l s ts = None)
      by (apply IH; eauto).
    destruct (is_phrase t).
    + destruct (Py.contains t (Py.lower doc_text)); apply Hl.
    + destruct (idf self !! t); [|apply Hl].
      destruct (default 0 (term_freqs !! t) =? 0); [apply Hl|].
      now rewrite Ha.
Qed.
End ScoreErrors.

(** X20: [score] raises the error of a division by zero exactly when the
    average document length of the index is zero and some query term
    is a single token of the idf table that occurs among the tokens of
    the document; in every other case it returns. *)
Theorem score_raises_iff (self : VectorDB.SPLADESearch)
    (query_terms : list (string * Q)) (doc_idx : nat) (doc_text : string) :
  VectorDB.score self query_terms doc_idx doc_text = None
  <-> Qeq_bool (VectorDB.avg_doc_len self) 0 = true
      /\ exists tw, In tw query_terms /\ bm25_term self doc_text tw.1.
Proof.
  unfold VectorDB.score, bm25_term. split.
  - intros H. apply score_loop_none in H as (Ha & tw & Hin & Hp & Hi & Htf).
    split; [exact Ha|]. exists tw. split; [exact Hin|].
    split; [exact Hp|]. split; [exact Hi|]. now apply Counter_In.
  - intros (Ha & tw & Hin & Hp & Hi & Htf).
    apply score_loop_divides; [exact Ha|].
    exists tw. split; [exact Hin|].
    split; [exact Hp|]. split; [exact Hi|]. now apply Counter_In.
Qed.

Section Ingestion.
Import VectorDB Store.

Lemma fit_k1_b log self (documents doc_ids : list string) :
  k1 (fit log self documents doc_ids) = k1 self
  /\ b (fit log self documents doc_ids) = b self.
Proof.
  unfold fit. now destruct (foldl fit_step _ _) as [[lens freqs] weights].
Qed.

(** Fitting an index that was fitted from new on a part of the documents
    gives the index fitted from new on all of them. *)
Lemma fit_after_prefix log (old new : list Document) :
  fit log (fit log SPLADESearch_new (map d_text old) (map d_id old))
    (map d_text (old ++ new)) (map d_id (old ++ new))
  = fit log SPLADESearch_new (map d_text (old ++ new))
      (map d_id (old ++ new)).
Proof.
  set (first := fit log SPLADESearch_new (map d_text old) (map d_id old)).
  rewrite (fit_refit_when_vocabulary_kept log first).
  - unfold first.
    destruct (fit_k1_b log SPLADESearch_new (map d_text old) (map d_id old))
      as [E1 E2].
    rewrite E1, E2. reflexivity.
  - intros term Hterm. apply elem_of_dom in Hterm.
    apply elem_of_dom.
    unfold first in Hterm. rewrite fit_idf in Hterm.
    cbn [idf SPLADESearch_new SPLADESearch_init] in Hterm.
    rewrite (right_id_L ∅ (∪)), lookup_fmap in Hterm.
    rewrite fit_doc_freqs_lookup in Hterm by now rewrite !length_map.
    rewrite fit_doc_freqs_lookup by now rewrite !length_map.
    unfold df_entry in *. rewrite map_app, containing_app.
    pose proof (containing_nonneg term (map d_text old)).
    pose proof (containing_nonneg term (map d_text new)).
    destruct (containing term (map d_text old) =? 0) eqn:E;
      [destruct Hterm as [x Hx]; discriminate Hx|].
    apply Z.eqb_neq in E.
    destruct (Z.eqb_spec (containing term (map d_text old)
                          + containing term (map d_text new)) 0);
      [lia|eauto].
Qed.
End Ingestion.

(** X21: [add_documents] keeps the sparse index equal to the one a new
    [SPLADESearch] gets when fitted on all the documents of the store:
    ingesting in several calls gives the index of ingesting at once,
    and the idf entries that [fit] never deletes cannot go stale this
    way. *)
Theorem add_documents_fresh_index (log : Q -> Q) (w : VectorDB.World)
    (g : Store.Ingest) (self : VectorDB.HybridVectorStore)
    (texts : list string) (metadatas : list (gmap string string))
    (ids : option (list string)) :
  fresh_index log self ->
  fresh_index log (Store.add_documents log w g self texts metadatas ids).1.
Proof.
  unfold fresh_index, Store.add_documents. intros Hfresh.
  cbn [fst]. unfold VectorDB._rebuild_sparse_index.
  cbn [VectorDB.documents VectorDB.splade VectorDB._splade_fitted].
  set (added := Store.zip_documents _ _ _ _).
  destruct (VectorDB.documents self) as [|d0 ds] eqn:Ed.
  - destruct Hfresh as [Hf Hs]. rewrite app_nil_l.
    destruct added as [|a added].
    + cbn [VectorDB.documents VectorDB.splade VectorDB._splade_fitted].
      now split.
    + cbn [VectorDB.documents VectorDB.splade VectorDB._splade_fitted].
      rewrite Hs. now split.
  - destruct Hfresh as [Hf Hs].
    change ((d0 :: ds) ++ added) with (d0 :: (ds ++ added)).
    cbn [VectorDB.documents VectorDB.splade VectorDB._splade_fitted].
    split; [reflexivity|].
    rewrite Hs.
    change (d0 :: ds ++ added) with ((d0 :: ds) ++ added).
    apply fit_after_prefix.
Qed.

Lemma add_documents_fresh_index_witness :
  fresh_index Examples.log_approx
    (Store.add_documents Examples.log_approx Examples.world_offline
       {| Store.embeddings_batch := fun _ => None;
          Store.uuid4s := fun n => repeat "id" n |}
       Examples.two_papers ["gene therapy"] [∅] (Some ["c"])).1.
Proof.
  apply (add_documents_fresh_index Examples.log_approx
           Examples.world_offline
           {| Store.embeddings_batch := fun _ => None;
              Store.uuid4s := fun n => repeat "id" n |}
           Examples.two_papers ["gene therapy"] [∅] (Some ["c"])).
  split; reflexivity.
Defined.

(** X22: every weighted term that [_expand_query] returns, on every path,
    is a token of the query with weight 2 or another non-empty term
    with a weight above 0 and at most 1. *)
Theorem expand_query_weights (w : VectorDB.World) (query : string) :
  Forall (query_term_ok query) (VectorDB._expand_query w query).
Proof.
  assert (Horig : Forall (query_term_ok query)
                    (map (fun t => (t, 2%Q)) (VectorDB._tokenize query))).
  { apply List.Forall_forall. intros tw Htw.
    apply in_map_iff in Htw as (t & <- & Ht). left. now split. }
  destruct (VectorDB.OPENAI_API_KEY w) eqn:Hk;
    [|unfold VectorDB._expand_query; now rewrite Hk].
  destruct (VectorDB.chat_completion w query) as [content|] eqn:Hc;
    [|unfold VectorDB._expand_query; now rewrite Hk, Hc].
  rewrite (expand_query_success w query content Hk Hc).
  destruct (original_loop (map (fun t => (t, 2%Q)) (VectorDB._tokenize query))
              [] ∅ expand_inv_empty) as (og & E1 & Hi1 & Hog & Hall & _).
  destruct (foldl VectorDB.add_original _ _) as [wt1 seen1] eqn:Ef.
  destruct (expanded_loop (candidates content) 0 wt1 seen1 Hi1
              (candidates_normalised content)) as (ex & E2 & _ & Hex).
  unfold VectorDB.enumerate. rewrite E2.
  apply Forall_sublist with (k := wt1 ++ ex); [apply slice_sublist|].
  simpl in E1. subst wt1. apply Forall_app. split.
  - apply List.Forall_forall. intros [t q] Htq.
    destruct (Hog t q Htq) as [Hin _].
    rewrite List.Forall_forall in Horig. now apply Horig.
  - apply List.Forall_forall. intros [t q] Htq.
    destruct (Hex t q Htq) as (i & _ & -> & Hne & Hseen & _).
    right. split; [|split; [exact Hne|]].
    + intros Hin. apply Hseen. simpl in Hall. apply Hall.
      rewrite map_map. simpl. now rewrite map_id.
    + simpl. unfold expansion_weight.
      match goal with
      | |- context [inject_Z ?z] =>
          assert (Hi : (0 <= inject_Z z)%Q)
            by (change 0%Q with (inject_Z 0); rewrite <- Zle_Qle; lia)
      end.
      split.
      * apply Qlt_shift_div_l; lra.
      * apply Qle_shift_div_r; lra.
Qed.

(** ** Sentences and the empty store *)

Section SplitSentences.
Import Sentences.

Lemma split_sentences_aux_cons (l : list ascii) : forall cur prev in_gap,
  split_sentences_aux cur prev in_gap l <> [].
Proof.
  induction l as [|c l IH]; intros cur prev in_gap; simpl; [discriminate|].
  destruct (Py.isspace c); [|apply IH].
  destruct in_gap; [apply IH|].
  destruct (is_end_punct prev); [discriminate|apply IH].
Qed.

Lemma split_sentences_aux_ends (l : list ascii) : forall cur prev in_gap,
  (in_gap = false -> prev = hd_error cur) ->
  Forall ends_sentence (removelast (split_sentences_aux cur prev in_gap l)).
Proof.
  induction l as [|c l IH]; intros cur prev in_gap Hprev; [constructor|].
  cbn [split_sentences_aux].
  destruct (Py.isspace c).
  - destruct in_gap; [apply IH; discriminate|].
    destruct (is_end_punct prev) eqn:Ep; [|now apply IH].
    pose proof (split_sentences_aux_cons l [] (Some c) true) as Hne.
    destruct (split_sentences_aux [] (Some c) true l) as [|s rest] eqn:E;
      [now destruct Hne|].
    change (removelast (Py.str (rev cur) :: s :: rest))
      with (Py.str (rev cur) :: removelast (s :: rest)).
    constructor.
    + unfold ends_sentence. rewrite chars_str, rev_involutive.
      now rewrite <- Hprev.
    + rewrite <- E. apply IH. discriminate.
  - now apply IH.
Qed.
End SplitSentences.

(** X23: every sentence that [chunk_by_sentences] cuts off, that is every
    piece of the split but the last, ends with a full stop, an
    exclamation or a question mark. *)
Theorem split_sentences_ends (text : string) :
  Forall ends_sentence (removelast (Sentences.split_sentences text)).
Proof.
  unfold Sentences.split_sentences.
  apply split_sentences_aux_ends. reflexivity.
Qed.

(** X24: on a store without documents every mode of [search] returns the
    empty list, whatever the state of the index and of the
    collaborators. *)
Theorem search_without_documents (w : VectorDB.World)
    (self : VectorDB.HybridVectorStore) (query : string) (top_k : Z)
    (mode : string) (dense_weight : Q) :
  VectorDB.documents self = [] ->
  VectorDB.store_search w self query top_k mode dense_weight = Some [].
Proof.
  intros Hd. unfold VectorDB.store_search, VectorDB.search_dense,
    VectorDB.search_sparse, VectorDB.search_hybrid.
  rewrite Hd.
  destruct (mode =? "dense")%string; [reflexivity|].
  now destruct (mode =? "sparse")%string.
Qed.

Lemma search_without_documents_witness :
  VectorDB.store_search Examples.world_forward
    (VectorDB.clear Examples.two_papers) "gene" 5 "sparse" (7 # 10)
  = Some [].
Proof.
  apply (search_without_documents Examples.world_forward
           (VectorDB.clear Examples.two_papers) "gene" 5 "sparse" (7 # 10)).
  reflexivity.
Defined.

(** ** Statistics of the store *)

Section Stats.
Import VectorDB Store.

Lemma containing_In (term : string) (docs : list string) :
  containing term docs <> 0
  <-> exists doc, In doc docs /\ term ∈ _tokenize doc.
Proof.
  unfold containing, Py.len. split.
  - intros H.
    destruct (List.filter _ docs) as [|doc l] eqn:E; [simpl in H; lia|].
    assert (Hin : In doc (List.filter
                            (fun doc => bool_decide (term ∈ _tokenize doc))
                            docs)) by (rewrite E; now left).
    apply filter_In in Hin as [Hin Hb]. apply bool_decide_eq_true in Hb.
    eauto.
  - intros (doc & Hin & Ht).
    assert (Hf : In doc (List.filter
                           (fun doc => bool_decide (term ∈ _tokenize doc))
                           docs)).
    { apply filter_In. split; [exact Hin|]. now apply bool_decide_eq_true. }
    destruct (List.filter _ docs); [destruct Hf|simpl; lia].
Qed.

Lemma fit_vocabulary log (docs : list Document) :
  dom (idf (fit log SPLADESearch_new (map d_text docs) (map d_id docs)))
  = list_to_set (concat (map (fun d => _tokenize (d_text d)) docs)).
Proof.
  rewrite fit_idf. cbn [idf SPLADESearch_new SPLADESearch_init].
  rewrite (right_id_L ∅ (∪)), dom_fmap_L.
  apply set_eq. intros term.
  rewrite elem_of_dom, elem_of_list_to_set.
  rewrite fit_doc_freqs_lookup by now rewrite !length_map.
  unfold df_entry.
  destruct (Z.eqb_spec (containing term (map d_text docs)) 0) as [E|E].
  - split; [intros [x Hx]; discriminate Hx|]. intros Hin. exfalso.
    assert (Hc : containing term (map d_text docs) <> 0); [|lia].
    apply containing_In.
    apply list_elem_of_In, in_concat in Hin as (tokens & Htokens & Hin).
    apply in_map_iff in Htokens as (d & <- & Hd).
    exists (d_text d). split; [now apply in_map|now apply list_elem_of_In].
  - split; [intros _|eauto].
    apply containing_In in E as (doc & Hdoc & Ht).
    apply in_map_iff in Hdoc as (d & <- & Hd).
    apply list_elem_of_In, in_concat.
    exists (_tokenize (d_text d)).
    split; [now apply (in_map (fun d => _tokenize (d_text d)))|].
    now apply list_elem_of_In.
Qed.
End Stats.

(** X25: on a store whose index is the one fitted from new on its
    documents, as [add_documents] and [clear] keep it, [get_stats]
    reports as vocabulary size the number of distinct tokens of the
    documents, as vector count the number of documents, and a number of
    embedded documents that does not exceed it. *)
Theorem get_stats_counts (log : Q -> Q) (self : VectorDB.HybridVectorStore) :
  fresh_index log self ->
  Store.splade_vocab_size (Store.get_stats self)
  = Z.of_nat (size (vocabulary self))
  /\ Store.vectors_count (Store.get_stats self)
     = Py.len (VectorDB.documents self)
  /\ 0 <= Store.with_embeddings (Store.get_stats self)
     <= Store.vectors_count (Store.get_stats self).
Proof.
  unfold fresh_index, Store.get_stats, vocabulary.
  cbn [Store.splade_vocab_size Store.vectors_count Store.with_embeddings].
  intros Hfresh. split; [|split; [reflexivity|]].
  - destruct (VectorDB.documents self) as [|d0 ds] eqn:Ed.
    + destruct Hfresh as [-> _]. reflexivity.
    + destruct Hfresh as [-> ->].
      rewrite <- fit_vocabulary with (log := log).
      now rewrite size_dom.
  - unfold Py.len.
    pose proof (filter_length_le
                  (fun d => match VectorDB.d_embedding d with
                            | Some _ => true
                            | None => false
                            end) (VectorDB.documents self)).
    lia.
Qed.

Lemma get_stats_counts_witness :
  Store.splade_vocab_size (Store.get_stats Examples.two_papers)
  = Z.of_nat (size (vocabulary Examples.two_papers))
  /\ Store.vectors_count (Store.get_stats Examples.two_papers)
     = Py.len (VectorDB.documents Examples.two_papers)
  /\ 0 <= Store.with_embeddings (Store.get_stats Examples.two_papers)
     <= Store.vectors_count (Store.get_stats Examples.two_papers).
Proof.
  apply (get_stats_counts Examples.log_approx Examples.two_papers).
  split; reflexivity.
Defined.
